(** * FinPyME Pro: the currency, chart-scaling, projection and insight
      computations, embedded from the TypeScript sources.

    Numbers are JavaScript numbers, extended with [NaN] and the two
    infinities (no signed zero).  The operations [jadd], [jmul], [jdiv]
    are exact; those of [Binary64] round to the nearest double, as the
    source's do, and every statement whose truth depends on rounding is
    made over them.  Dates are time values in milliseconds; [Calendar]
    reads them in UTC, [LocalCalendar] in the time zone of the runtime. *)

From Stdlib Require Import ZArith QArith Qcanon Qcabs List String Ascii Bool Lia Lqa.
From stdpp Require Import base decidable option numbers list sorting strings pretty gmap.

Set Default Proof Using "Type".
Local Open Scope Z_scope.

(** ** JavaScript numbers *)

Inductive jsnum : Type :=
| NaN
| NegInf
| PosInf
| Fin (q : Qc).

Definition jofZ (z : Z) : jsnum := Fin (Qc_of_Z z).

(** Sign of a rational, as a [comparison] with zero. *)
Definition jsgn (q : Qc) : comparison := (q ?= 0)%Qc.

Definition jneg (a : jsnum) : jsnum :=
  match a with
  | NaN => NaN
  | NegInf => PosInf
  | PosInf => NegInf
  | Fin q => Fin (- q)%Qc
  end.

Definition jadd (a b : jsnum) : jsnum :=
  match a, b with
  | NaN, _ | _, NaN => NaN
  | PosInf, NegInf | NegInf, PosInf => NaN
  | PosInf, _ | _, PosInf => PosInf
  | NegInf, _ | _, NegInf => NegInf
  | Fin x, Fin y => Fin (x + y)%Qc
  end.

Definition jsub (a b : jsnum) : jsnum := jadd a (jneg b).

(** An infinity of the sign of [c] ([NaN] when [c] is zero). *)
Definition jinf_signed (c : comparison) : jsnum :=
  match c with
  | Lt => NegInf
  | Eq => NaN
  | Gt => PosInf
  end.

Definition jsign_of (a : jsnum) : comparison :=
  match a with
  | NaN => Eq
  | NegInf => Lt
  | PosInf => Gt
  | Fin q => jsgn q
  end.

Definition jsign_mul (c d : comparison) : comparison :=
  match c, d with
  | Eq, _ | _, Eq => Eq
  | Lt, Lt | Gt, Gt => Gt
  | _, _ => Lt
  end.

Definition jmul (a b : jsnum) : jsnum :=
  match a, b with
  | NaN, _ | _, NaN => NaN
  | Fin x, Fin y => Fin (x * y)%Qc
  | _, _ => jinf_signed (jsign_mul (jsign_of a) (jsign_of b))
  end.

(** Division; a zero divisor counts as the positive zero. *)
Definition jdiv (a b : jsnum) : jsnum :=
  match a, b with
  | NaN, _ | _, NaN => NaN
  | Fin x, Fin y =>
      match jsgn y with
      | Eq => jinf_signed (jsgn x)
      | _ => Fin (x / y)%Qc
      end
  | Fin _, _ => Fin 0%Qc
  | _, Fin y =>
      match jsgn y with
      | Lt => jneg a
      | _ => a
      end
  | _, _ => NaN
  end.

(** [Math.abs] *)
Definition jabs (a : jsnum) : jsnum :=
  match a with
  | NaN => NaN
  | NegInf | PosInf => PosInf
  | Fin q => Fin (Qcabs q)
  end.

(** Ordering of two numbers; [None] when either is [NaN]. *)
Definition jcmp (a b : jsnum) : option comparison :=
  match a, b with
  | NaN, _ | _, NaN => None
  | NegInf, NegInf | PosInf, PosInf => Some Eq
  | NegInf, _ | _, PosInf => Some Lt
  | PosInf, _ | _, NegInf => Some Gt
  | Fin x, Fin y => Some (x ?= y)%Qc
  end.

Definition jlt (a b : jsnum) : bool :=
  match jcmp a b with Some Lt => true | _ => false end.
Definition jgt (a b : jsnum) : bool := jlt b a.
Definition jle (a b : jsnum) : bool :=
  match jcmp a b with Some Lt | Some Eq => true | _ => false end.
Definition jge (a b : jsnum) : bool := jle b a.

Definition isNaN (a : jsnum) : bool :=
  match a with NaN => true | _ => false end.

(** Truthiness of a number: [NaN] and zero are falsy. *)
Definition jtruthy (a : jsnum) : bool :=
  match a with
  | NaN => false
  | Fin q => match jsgn q with Eq => false | _ => true end
  | _ => true
  end.

(** [a || b] on numbers. *)
Definition jor_else (a b : jsnum) : jsnum := if jtruthy a then a else b.

(** [Math.max] of two arguments, then of a spread list. *)
Definition jmax2 (a b : jsnum) : jsnum :=
  match jcmp a b with
  | None => NaN
  | Some Lt => b
  | Some _ => a
  end.

Definition Math_max (l : list jsnum) : jsnum := fold_left jmax2 l NegInf.

Declare Scope js_scope.
Delimit Scope js_scope with js.
Bind Scope js_scope with jsnum.
Infix "+" := jadd : js_scope.
Infix "-" := jsub : js_scope.
Infix "*" := jmul : js_scope.
Infix "/" := jdiv : js_scope.
Infix "<?" := jlt : js_scope.
Infix ">?" := jgt : js_scope.
Infix "<=?" := jle : js_scope.
Infix ">=?" := jge : js_scope.

(** ** Chart value scaler (lib/chart-formatters) *)

Inductive Scale : Type := Units | Thousands | Millions.

Definition determineScale (values : list jsnum) : Scale :=
  let maxValue := Math_max (map jabs values) in
  if (maxValue >=? jofZ 1000000)%js then Millions
  else if (maxValue >=? jofZ 1000)%js then Thousands
  else Units.

(** ** The JavaScript runtime

    Library functions the sources call.  The embedding is parametric in
    them; [refRuntime] below is a reference reading used on examples. *)

Class Runtime : Type := {
  (** [parseFloat(s)] *)
  parseFloat : string -> jsnum;
  (** [x.toString()] on a number *)
  numberToString : jsnum -> string;
  (** [new Intl.NumberFormat('es-AR', { style: 'decimal',
        minimumFractionDigits: d, maximumFractionDigits: d }).format(x)] *)
  formatDecimal : nat -> jsnum -> string;
  (** time value of [new Date(s)]; [None] is an invalid date *)
  parseDate : string -> option Z;
  (** [new Date(t).toISOString()] *)
  toISOString : Z -> string
}.

(** A value of type [string | number]. *)
Inductive StringOrNumber : Type :=
| Str (s : string)
| Num (n : jsnum).

(** [parseFloat] of a possibly [undefined] string field. *)
Definition parseFloatU {RT : Runtime} (o : option string) : jsnum :=
  match o with
  | Some s => parseFloat s
  | None => NaN
  end.

(** [s || d] on a possibly [undefined] string. *)
Definition strOr (o : option string) (d : string) : string :=
  match o with
  | Some EmptyString | None => d
  | Some s => s
  end.

(** ** Currency conversion service (contexts/currency-context.tsx) *)

Inductive Currency : Type := ARS | USD.

Definition Currency_eqb (a b : Currency) : bool :=
  match a, b with
  | ARS, ARS | USD, USD => true
  | _, _ => false
  end.

Inductive DollarType : Type := oficial | blue | mep.

Record DollarRates : Type := {
  rate_oficial : jsnum;
  rate_blue : jsnum;
  rate_mep : jsnum
}.

Definition FALLBACK_RATES : DollarRates :=
  {| rate_oficial := jofZ 1270; rate_blue := jofZ 1300; rate_mep := jofZ 1304 |}.

Definition rateOf (r : DollarRates) (t : DollarType) : jsnum :=
  match t with
  | oficial => rate_oficial r
  | blue => rate_blue r
  | mep => rate_mep r
  end.

(** The provider's state; [exchangeRate] is [number | null]. *)
Record CurrencyState : Type := {
  currency : Currency;
  dollarType : DollarType;
  dollarRates : DollarRates;
  exchangeRate : option jsnum
}.

Definition initialCurrencyState : CurrencyState :=
  {| currency := ARS; dollarType := oficial; dollarRates := FALLBACK_RATES;
     exchangeRate := Some (rate_oficial FALLBACK_RATES) |}.

Definition setCurrency (st : CurrencyState) (c : Currency) : CurrencyState :=
  {| currency := c; dollarType := dollarType st; dollarRates := dollarRates st;
     exchangeRate := exchangeRate st |}.

Definition setDollarType (st : CurrencyState) (t : DollarType) : CurrencyState :=
  {| currency := currency st; dollarType := t; dollarRates := dollarRates st;
     exchangeRate := Some (rateOf (dollarRates st) t) |}.

(** Truthiness of [exchangeRate]. *)
Definition rateTruthy (r : option jsnum) : bool :=
  match r with
  | Some x => jtruthy x
  | None => false
  end.

Definition rateValue (r : option jsnum) : jsnum :=
  match r with
  | Some x => x
  | None => jofZ 0
  end.

Definition toNumeric {RT : Runtime} (amount : StringOrNumber) : jsnum :=
  match amount with
  | Str s => parseFloat s
  | Num n => n
  end.

Definition formatAmount {RT : Runtime} (st : CurrencyState)
    (amount : StringOrNumber) (showSymbol : bool) : string :=
  let numericAmount := toNumeric amount in
  if isNaN numericAmount then "0"%string
  else
    let numericAmount :=
      if Currency_eqb (currency st) USD && rateTruthy (exchangeRate st)
      then (numericAmount / rateValue (exchangeRate st))%js
      else numericAmount in
    let formatted :=
      formatDecimal (if Currency_eqb (currency st) USD then 2%nat else 0%nat)
                    (jabs numericAmount) in
    let symbol := "$"%string in
    let currencyCode :=
      (if Currency_eqb (currency st) USD then " USD" else " ARS")%string in
    if showSymbol then (symbol ++ formatted ++ currencyCode)%string
    else formatted.

Definition convertAmount {RT : Runtime} (st : CurrencyState)
    (amount : StringOrNumber) (fromCurrency toCurrency : Currency) : jsnum :=
  let numericAmount := toNumeric amount in
  if isNaN numericAmount || negb (rateTruthy (exchangeRate st)) then jofZ 0
  else if Currency_eqb fromCurrency toCurrency then numericAmount
  else if Currency_eqb fromCurrency ARS && Currency_eqb toCurrency USD
  then (numericAmount / rateValue (exchangeRate st))%js
  else if Currency_eqb fromCurrency USD && Currency_eqb toCurrency ARS
  then (numericAmount * rateValue (exchangeRate st))%js
  else numericAmount.

(** ** Cash-flow projection engine (interactive projections component) *)

Record CashFlowProjection : Type := {
  date : string;
  projectedIncome : option string;
  projectedExpenses : option string;
  netFlow : option string
}.

Record Scenario : Type := {
  name : string;
  incomeGrowth : jsnum;
  expenseReduction : jsnum;
  oneTimeIncome : jsnum;
  oneTimeExpense : jsnum;
  marketGrowth : option jsnum;
  inflationRate : option jsnum;
  timeFrame : option jsnum
}.

Inductive RiskLevel : Type := low | medium | high.

Record ProjectionMetrics : Type := {
  totalProjectedIncome : jsnum;
  totalProjectedExpenses : jsnum;
  netProjectedFlow : jsnum;
  worstCaseScenario : jsnum;
  bestCaseScenario : jsnum;
  averageMonthlyFlow : jsnum;
  breakEvenPoint : jsnum;
  riskLevel : RiskLevel
}.

(** [x || 0] on an optional number. *)
Definition numOr0 (o : option jsnum) : jsnum :=
  match o with
  | Some x => jor_else x (jofZ 0)
  | None => jofZ 0
  end.

(** [data.reduce((sum, item) => sum + parseFloat(field(item) || '0'), 0)] *)
Definition sumField {RT : Runtime} (field : CashFlowProjection -> option string)
    (data : list CashFlowProjection) : jsnum :=
  fold_left (fun sum item => (sum + parseFloat (strOr (field item) "0"))%js)
            data (jofZ 0).

Definition jlength {A} (l : list A) : jsnum := jofZ (Z.of_nat (length l)).

(** The historical averages read by [calculateProjectionMetrics]:
    from the income and expense fields when the first item has them, else
    estimated from the average net flow. *)
Definition historicalAverages {RT : Runtime} (data : list CashFlowProjection)
  : jsnum * jsnum :=
  match data with
  | [] => (jofZ 0, jofZ 0)
  | first :: _ =>
      match projectedIncome first with
      | Some _ =>
          ((sumField projectedIncome data / jlength data)%js,
           (sumField projectedExpenses data / jlength data)%js)
      | None =>
          let avgNetFlow := (sumField netFlow data / jlength data)%js in
          let avgIncome := (jabs avgNetFlow * Fin (Q2Qc (17 # 10)))%js in
          let avgExpenses := (jabs avgNetFlow * Fin (Q2Qc (7 # 10)))%js in
          if (avgNetFlow <? jofZ 0)%js then (avgExpenses, avgIncome)
          else (avgIncome, avgExpenses)
      end
  end.

Definition calculateProjectionMetrics {RT : Runtime}
    (data : list CashFlowProjection) (scenario : Scenario) (months : jsnum)
  : ProjectionMetrics :=
  match data with
  | [] =>
      {| totalProjectedIncome := jofZ 0; totalProjectedExpenses := jofZ 0;
         netProjectedFlow := jofZ 0; worstCaseScenario := jofZ 0;
         bestCaseScenario := jofZ 0; averageMonthlyFlow := jofZ 0;
         breakEvenPoint := jofZ 0; riskLevel := medium |}
  | _ :: _ =>
      let '(avgIncome, avgExpenses) := historicalAverages data in
      let projectedIncome_ :=
        (avgIncome * (jofZ 1 + incomeGrowth scenario / jofZ 100)
                   * (jofZ 1 + numOr0 (marketGrowth scenario) / jofZ 100))%js in
      let projectedExpenses_ :=
        (avgExpenses * (jofZ 1 - expenseReduction scenario / jofZ 100)
            * (jofZ 1 + numOr0 (inflationRate scenario) / jofZ 100 / jofZ 12))%js in
      let monthlyNetFlow := (projectedIncome_ - projectedExpenses_)%js in
      let totalProjectedIncome_ :=
        (projectedIncome_ * months + jor_else (oneTimeIncome scenario) (jofZ 0))%js in
      let totalProjectedExpenses_ :=
        (projectedExpenses_ * months + jor_else (oneTimeExpense scenario) (jofZ 0))%js in
      let netProjectedFlow_ := (totalProjectedIncome_ - totalProjectedExpenses_)%js in
      let variance := jabs (monthlyNetFlow * Fin (Q2Qc (2 # 10)))%js in
      let worstCase := (netProjectedFlow_ - variance * months)%js in
      let bestCase := (netProjectedFlow_ + variance * months)%js in
      let riskLevel_ :=
        if (worstCase <? jofZ 0)%js && (netProjectedFlow_ <? avgIncome * jofZ 2)%js
        then high
        else if (netProjectedFlow_ >? avgIncome * jofZ 6)%js then low
        else medium in
      {| totalProjectedIncome := totalProjectedIncome_;
         totalProjectedExpenses := totalProjectedExpenses_;
         netProjectedFlow := netProjectedFlow_;
         worstCaseScenario := worstCase;
         bestCaseScenario := bestCase;
         averageMonthlyFlow := monthlyNetFlow;
         breakEvenPoint :=
           if (projectedExpenses_ >? jofZ 0)%js
           then (projectedIncome_ / projectedExpenses_)%js else jofZ 0;
         riskLevel := riskLevel_ |}
  end.

(** [originalData.map((item, index) => ...)] of [calculateModifiedData]. *)
Fixpoint mapi_from {A B} (f : A -> nat -> B) (index : nat) (l : list A) : list B :=
  match l with
  | [] => []
  | x :: l' => f x index :: mapi_from f (S index) l'
  end.

Definition modifyItem {RT : Runtime} (scenario : Scenario)
    (item : CashFlowProjection) (index : nat) : CashFlowProjection :=
  let income := parseFloatU (projectedIncome item) in
  let expenses := parseFloatU (projectedExpenses item) in
  let modifiedIncome := (income * (jofZ 1 + incomeGrowth scenario / jofZ 100))%js in
  let modifiedExpenses :=
    (expenses * (jofZ 1 - expenseReduction scenario / jofZ 100))%js in
  let finalIncome :=
    if Nat.eqb index 0 then (modifiedIncome + oneTimeIncome scenario)%js
    else modifiedIncome in
  let finalExpenses :=
    if Nat.eqb index 0 then (modifiedExpenses + oneTimeExpense scenario)%js
    else modifiedExpenses in
  let netFlow_ := (finalIncome - finalExpenses)%js in
  {| date := date item;
     projectedIncome := Some (numberToString finalIncome);
     projectedExpenses := Some (numberToString finalExpenses);
     netFlow := Some (numberToString netFlow_) |}.

Definition calculateModifiedData {RT : Runtime}
    (originalData : list CashFlowProjection) (scenario : Scenario)
  : list CashFlowProjection :=
  mapi_from (modifyItem scenario) 0 originalData.

(** ** Insight generator (smart insights component) *)

Inductive InsightType : Type := pattern | opportunity | recommendation | alert.
Inductive Priority : Type := prio_low | prio_medium | prio_high.
Inductive Impact : Type := positive | negative | neutral.

Record SmartInsight : Type := {
  insight_id : string;
  insight_type : InsightType;
  title : string;
  description : string;
  priority : Priority;
  confidence : jsnum;
  impact : Impact;
  actionable : bool
}.

(** [arr.slice(-n)] *)
Definition slice_last {A} (n : nat) (arr : list A) : list A :=
  skipn (length arr - n) arr.

(** [arr.every((value, index, arr) => p value index arr)] *)
Fixpoint every_from {A} (p : A -> nat -> list A -> bool) (arr : list A)
    (index : nat) (rest : list A) : bool :=
  match rest with
  | [] => true
  | value :: rest' => p value index arr && every_from p arr (S index) rest'
  end.

Definition every {A} (p : A -> nat -> list A -> bool) (arr : list A) : bool :=
  every_from p arr 0 arr.

(** [arr[i]] on numbers; out of range is [undefined], which compares as [NaN]. *)
Definition at_index (arr : list jsnum) (i : nat) : jsnum := nth i arr NaN.

Definition trendDecreasing : SmartInsight :=
  {| insight_id := "trend-decreasing";
     insight_type := alert;
     title := "Tendencia Negativa en Flujo de Caja";
     description := "Se detecta una tendencia decreciente en el flujo de caja durante las últimas 3 semanas. Considera revisar gastos o incrementar ingresos.";
     priority := prio_high;
     confidence := Fin (Q2Qc (9 # 10));
     impact := negative;
     actionable := true |}.

Definition trendIncreasing : SmartInsight :=
  {| insight_id := "trend-increasing";
     insight_type := opportunity;
     title := "Tendencia Positiva en Flujo de Caja";
     description := "Excelente! Tu flujo de caja muestra una tendencia creciente. Este es un buen momento para considerar inversiones o reservas.";
     priority := prio_medium;
     confidence := Fin (Q2Qc (85 # 100));
     impact := positive;
     actionable := true |}.

Definition detectCashFlowTrends {RT : Runtime} (cashFlowData : list CashFlowProjection)
  : list SmartInsight :=
  if (length cashFlowData <? 3)%nat then []
  else
    let netFlows := map (fun d => parseFloatU (netFlow d)) cashFlowData in
    let isDecreasing :=
      every (fun value index arr =>
               Nat.eqb index 0 || (value <? at_index arr (index - 1))%js)
            (slice_last 3 netFlows) in
    let isIncreasing :=
      every (fun value index arr =>
               Nat.eqb index 0 || (value >? at_index arr (index - 1))%js)
            (slice_last 3 netFlows) in
    if isDecreasing then [trendDecreasing]
    else if isIncreasing then [trendIncreasing]
    else [].

(** ** REST API: authentication middleware and per-user GET routes
       (server/auth, server/routes.ts) *)

Module Server.

Record JWTPayload : Type := {
  payload_userId : string;
  payload_email : string
}.

Record AuthRequest : Type := {
  authorization : option string;      (* req.headers['authorization'] *)
  param_userId : string;              (* req.params.userId *)
  query_limit : option string;        (* req.query.limit *)
  req_userId : option string          (* req.userId, set by the middleware *)
}.

Definition set_userId (req : AuthRequest) (u : string) : AuthRequest :=
  {| authorization := authorization req; param_userId := param_userId req;
     query_limit := query_limit req; req_userId := Some u |}.

(** What the server knows besides the request: the JWT library, the clock
    and the storage layer.  A storage call that rejects is [None]. *)
Class Backend (Data : Type) : Type := {
  verifyToken : string -> option JWTPayload;
  parseInt : option string -> jsnum;
  getUserTransactions : string -> jsnum -> option Data;
  getDashboard : string -> option Data;
  getUserAiInsights : string -> option Data;
  getUserCashFlowProjections : string -> option Data;
  getUserNotifications : string -> jsnum -> option Data
}.

Inductive Body (Data : Type) : Type :=
| Message (m : string)
| Json (d : Data).
Arguments Message {Data} m.
Arguments Json {Data} d.

Record Response (Data : Type) : Type := {
  status : nat;
  body : Body Data
}.
Arguments status {Data} r.
Arguments body {Data} r.

(** [s.split(' ')] *)
Fixpoint split_space_aux (cur : string) (s : string) : list string :=
  match s with
  | EmptyString => [cur]
  | String c s' =>
      if Ascii.eqb c " " then cur :: split_space_aux EmptyString s'
      else split_space_aux (cur ++ String c EmptyString) s'
  end.

Definition split_space (s : string) : list string := split_space_aux EmptyString s.

(** [authHeader && authHeader.split(' ')[1]], kept when truthy. *)
Definition bearerToken (authHeader : option string) : option string :=
  match authHeader with
  | None | Some EmptyString => None
  | Some h =>
      match nth_error (split_space h) 1 with
      | Some EmptyString | None => None
      | Some t => Some t
      end
  end.

(** A middleware either answers or passes the request on ([next()]). *)
Inductive MiddlewareResult (Data : Type) : Type :=
| Respond (r : Response Data)
| Next (req : AuthRequest).
Arguments Respond {Data} r.
Arguments Next {Data} req.

Section Routes.
Context {Data : Type} {B : Backend Data}.

Definition authenticateToken (req : AuthRequest) : MiddlewareResult Data :=
  match bearerToken (authorization req) with
  | None =>
      Respond {| status := 401; body := Message "Token de acceso requerido" |}
  | Some token =>
      match verifyToken token with
      | None =>
          Respond {| status := 403; body := Message "Token inválido o expirado" |}
      | Some payload => Next (set_userId req (payload_userId payload))
      end
  end.

Definition optionalAuth (req : AuthRequest) : MiddlewareResult Data :=
  match bearerToken (authorization req) with
  | Some token =>
      match verifyToken token with
      | Some payload => Next (set_userId req (payload_userId payload))
      | None => Next req
      end
  | None => Next req
  end.

(** [res.json(x)] answers 200; a rejected storage call is caught as 500. *)
Definition jsonOr500 (r : option Data) (err : string) : Response Data :=
  match r with
  | Some d => {| status := 200; body := Json d |}
  | None => {| status := 500; body := Message err |}
  end.

Definition via (mw : AuthRequest -> MiddlewareResult Data)
    (handler : AuthRequest -> Response Data) (req : AuthRequest) : Response Data :=
  match mw req with
  | Respond r => r
  | Next req' => handler req'
  end.

(** The per-user GET resources. *)
Inductive Resource : Type :=
| Dashboard | Transactions | AiInsights | CashFlowProjections | Notifications.

Definition handleGet (r : Resource) : AuthRequest -> Response Data :=
  match r with
  | Dashboard =>
      via optionalAuth (fun req =>
        jsonOr500 (getDashboard (param_userId req)) "Error fetching dashboard data")
  | Transactions =>
      via optionalAuth (fun req =>
        let limit := jor_else (parseInt (query_limit req)) (jofZ 50) in
        jsonOr500 (getUserTransactions (param_userId req) limit)
                  "Error fetching transactions")
  | AiInsights =>
      via optionalAuth (fun req =>
        jsonOr500 (getUserAiInsights (param_userId req)) "Error fetching AI insights")
  | CashFlowProjections =>
      via optionalAuth (fun req =>
        jsonOr500 (getUserCashFlowProjections (param_userId req))
                  "Error fetching projections")
  | Notifications =>
      via authenticateToken (fun req =>
        let limit := jor_else (parseInt (query_limit req)) (jofZ 20) in
        if negb (bool_decide (req_userId req = Some (param_userId req)))
        then {| status := 403; body := Message "No autorizado" |}
        else jsonOr500 (getUserNotifications (param_userId req) limit)
                       "Error al obtener notificaciones")
  end.

End Routes.

End Server.

(** ** Dates

    A valid [Date] is its time value in milliseconds since the epoch; the
    local time zone is UTC.  Year, month and day follow the definitions of
    the language standard (DayFromYear, YearFromTime, MonthFromTime,
    DateFromTime, MakeDay, MakeDate). *)

Module Calendar.

Definition msPerDay : Z := 86400000.

Definition Day (t : Z) : Z := t / msPerDay.
Definition TimeWithinDay (t : Z) : Z := t mod msPerDay.

Definition isLeap (y : Z) : bool :=
  (y mod 4 =? 0) && (negb (y mod 100 =? 0) || (y mod 400 =? 0)).

Definition DaysInYear (y : Z) : Z := if isLeap y then 366 else 365.

Definition DayFromYear (y : Z) : Z :=
  365 * (y - 1970) + (y - 1969) / 4 - (y - 1901) / 100 + (y - 1601) / 400.

(** The largest year whose first day is not after day [d]. *)
Definition YearFromDay (d : Z) : Z :=
  let y0 := 1970 + (d * 400) / 146097 in
  if d <? DayFromYear y0 then y0 - 1
  else if d <? DayFromYear (y0 + 1) then y0
  else y0 + 1.

Definition leapDay (leap : bool) : Z := if leap then 1 else 0.

(** Days of the year before month [m] (0 is January). *)
Definition daysBeforeMonth (leap : bool) (m : Z) : Z :=
  if m <=? 0 then 0
  else if m =? 1 then 31
  else if m =? 2 then 59 + leapDay leap
  else if m =? 3 then 90 + leapDay leap
  else if m =? 4 then 120 + leapDay leap
  else if m =? 5 then 151 + leapDay leap
  else if m =? 6 then 181 + leapDay leap
  else if m =? 7 then 212 + leapDay leap
  else if m =? 8 then 243 + leapDay leap
  else if m =? 9 then 273 + leapDay leap
  else if m =? 10 then 304 + leapDay leap
  else 334 + leapDay leap.

Definition MonthFromDayInYear (leap : bool) (dayInYear : Z) : Z :=
  if dayInYear <? 31 then 0
  else if dayInYear <? 59 + leapDay leap then 1
  else if dayInYear <? 90 + leapDay leap then 2
  else if dayInYear <? 120 + leapDay leap then 3
  else if dayInYear <? 151 + leapDay leap then 4
  else if dayInYear <? 181 + leapDay leap then 5
  else if dayInYear <? 212 + leapDay leap then 6
  else if dayInYear <? 243 + leapDay leap then 7
  else if dayInYear <? 273 + leapDay leap then 8
  else if dayInYear <? 304 + leapDay leap then 9
  else if dayInYear <? 334 + leapDay leap then 10
  else 11.

Definition getFullYear (t : Z) : Z := YearFromDay (Day t).

Definition DayWithinYear (t : Z) : Z := Day t - DayFromYear (getFullYear t).

Definition getMonth (t : Z) : Z :=
  MonthFromDayInYear (isLeap (getFullYear t)) (DayWithinYear t).

Definition getDate (t : Z) : Z :=
  DayWithinYear t - daysBeforeMonth (isLeap (getFullYear t)) (getMonth t) + 1.

Definition getTime (t : Z) : Z := t.

(** Day number of day [date] of month [month] of [year]; months and days
    out of range carry over. *)
Definition MakeDay (year month date : Z) : Z :=
  let ym := year + month / 12 in
  let mn := month mod 12 in
  DayFromYear ym + daysBeforeMonth (isLeap ym) mn + date - 1.

Definition MakeDate (day time : Z) : Z := day * msPerDay + time.

Definition setDate (t date : Z) : Z :=
  MakeDate (MakeDay (getFullYear t) (getMonth t) date) (TimeWithinDay t).

Definition setMonth (t month : Z) : Z :=
  MakeDate (MakeDay (getFullYear t) month (getDate t)) (TimeWithinDay t).

Definition setFullYear (t year : Z) : Z :=
  MakeDate (MakeDay year (getMonth t) (getDate t)) (TimeWithinDay t).

(** [new Date(year, month, 1)]; years 0 to 99 mean 1900 to 1999. *)
Definition newDateYM1 (year month : Z) : Z :=
  let year := if (0 <=? year) && (year <=? 99) then 1900 + year else year in
  MakeDate (MakeDay year month 1) 0.

(** Months since year 0 of the month that contains [t]. *)
Definition monthIndex (t : Z) : Z := 12 * getFullYear t + getMonth t.


(** The first day of the month with index [k] (months since year 0). *)
Definition monthStart (k : Z) : Z := MakeDay 0 k 1.

End Calendar.

(** ** Transactions *)

Inductive TransactionType : Type := income | expense.

Definition TransactionType_eqb (a b : TransactionType) : bool :=
  match a, b with
  | income, income | expense, expense => true
  | _, _ => false
  end.

Record Transaction : Type := {
  tx_id : string;
  tx_amount : string;
  tx_type : TransactionType;
  tx_categoryId : string;
  tx_description : string;
  tx_date : string
}.

(** [a >= b] and [a <= b] on [Date] objects, one of which may be invalid. *)
Definition dateGe (a : option Z) (b : Z) : bool :=
  match a with Some t => b <=? t | None => false end.
Definition dateLe (a : option Z) (b : Z) : bool :=
  match a with Some t => t <=? b | None => false end.
Definition dateLt (a : option Z) (b : Z) : bool :=
  match a with Some t => t <? b | None => false end.

(** Sum of a list of numbers, left to right from zero. *)
Definition jsum (l : list jsnum) : jsnum := fold_left jadd l (jofZ 0).

(** The amounts of the transactions of one type, as read by [parseFloat],
    and their total. *)
Definition amountsOf {RT : Runtime} (ty : TransactionType)
    (transactions : list Transaction) : list jsnum :=
  map (fun t => parseFloat (tx_amount t))
      (List.filter (fun t => TransactionType_eqb (tx_type t) ty) transactions).

Definition totalOf {RT : Runtime} (ty : TransactionType)
    (transactions : list Transaction) : jsnum :=
  jsum (amountsOf ty transactions).

(** ** Bucketing of the real-data chart (RealDataChart)

    The body of the chart effect, which the component runs when the canvas
    exists and there is at least one transaction.  [periodData], an object
    keyed by ["<periodType>-<i>"], is the list whose position [i] holds the
    entry of that key. *)

Module RealDataChart.
Import Calendar.

Inductive TimeRange : Type := daily | weekly | monthly | yearly.
Inductive PeriodType : Type := day | week | month | year.

Record Period : Type := {
  p_income : jsnum;
  p_expense : jsnum;
  p_net : jsnum;
  p_date : Z
}.

Definition startDate (now : Z) (timeRange : TimeRange) : Z :=
  match timeRange with
  | daily => setDate now (getDate now - 30)
  | weekly => setDate now (getDate now - 8 * 7)
  | monthly => setDate (setMonth now (getMonth now - 11)) 1
  | yearly => setDate (setMonth (setFullYear now (getFullYear now - 4)) 0) 1
  end.

Definition periods (timeRange : TimeRange) : nat :=
  match timeRange with
  | daily => 30
  | weekly => 8
  | monthly => 12
  | yearly => 5
  end.

Definition periodType (timeRange : TimeRange) : PeriodType :=
  match timeRange with
  | daily => day
  | weekly => week
  | monthly => month
  | yearly => year
  end.

Definition periodStart (pt : PeriodType) (start : Z) (i : Z) : Z :=
  match pt with
  | day => setDate start (getDate start + i)
  | week => setDate start (getDate start + i * 7)
  | month => setDate (setMonth start (getMonth start + i)) 1
  | year => setDate (setMonth (setFullYear start (getFullYear start + i)) 0) 1
  end.

Definition initPeriods (pt : PeriodType) (start : Z) (n : nat) : list Period :=
  map (fun i => {| p_income := jofZ 0; p_expense := jofZ 0; p_net := jofZ 0;
                   p_date := periodStart pt start (Z.of_nat i) |})
      (seq 0 n).

Definition periodIndex (pt : PeriodType) (start : Z) (t : Z) : Z :=
  match pt with
  | day => (getTime t - getTime start) / (1000 * 60 * 60 * 24)
  | week => (getTime t - getTime start) / (1000 * 60 * 60 * 24 * 7)
  | month =>
      let yearDiff := getFullYear t - getFullYear start in
      let monthDiff := getMonth t - getMonth start in
      yearDiff * 12 + monthDiff
  | year => getFullYear t - getFullYear start
  end.

Definition addAmount (ty : TransactionType) (amount : jsnum) (p : Period) : Period :=
  match ty with
  | income =>
      {| p_income := (p_income p + amount)%js; p_expense := p_expense p;
         p_net := p_net p; p_date := p_date p |}
  | expense =>
      {| p_income := p_income p; p_expense := (p_expense p + amount)%js;
         p_net := p_net p; p_date := p_date p |}
  end.

(** One round of [transactions.forEach]. *)
Definition processTransaction {RT : Runtime} (now start : Z) (pt : PeriodType)
    (n : nat) (periodData : list Period) (transaction : Transaction)
  : list Period :=
  let transactionDate := parseDate (tx_date transaction) in
  match transactionDate with
  | Some t =>
      if dateGe transactionDate start && dateLe transactionDate now then
        let index := periodIndex pt start t in
        if (0 <=? index) && (index <? Z.of_nat n) then
          match periodData !! Z.to_nat index with
          | Some p =>
              let amount := parseFloat (tx_amount transaction) in
              <[Z.to_nat index := addAmount (tx_type transaction) amount p]> periodData
          | None => periodData
          end
        else periodData
      else periodData
  | None => periodData
  end.

(** [transactions.forEach] over a given [periodData]. *)
Definition processTransactions {RT : Runtime} (now : Z) (timeRange : TimeRange)
    (transactions : list Transaction) (periodData : list Period) : list Period :=
  fold_left (processTransaction now (startDate now timeRange)
               (periodType timeRange) (periods timeRange))
            transactions periodData.

Definition periodData {RT : Runtime} (now : Z) (timeRange : TimeRange)
    (transactions : list Transaction) : list Period :=
  processTransactions now timeRange transactions
    (initPeriods (periodType timeRange) (startDate now timeRange)
                 (periods timeRange)).

#[local] Instance period_date_le_dec : RelDecision (fun a b => p_date a <= p_date b).
Proof. intros a b. apply Z_le_dec. Defined.

(** [Object.keys(periodData).sort(by date)], as the entries themselves. *)
Definition sortedPeriods (pd : list Period) : list Period :=
  merge_sort (fun a b => p_date a <= p_date b) pd.

Record ChartSeries : Type := {
  incomeData : list jsnum;
  expenseData : list jsnum;
  netData : list jsnum;
  cumulativeData : list jsnum
}.

(** The loop over the sorted periods, carrying [cumulativeFlow]. *)
Fixpoint series_from (cumulativeFlow : jsnum) (ps : list Period) : ChartSeries :=
  match ps with
  | [] => {| incomeData := []; expenseData := []; netData := []; cumulativeData := [] |}
  | p :: ps' =>
      let net := (p_income p - p_expense p)%js in
      let cumulativeFlow := (cumulativeFlow + net)%js in
      let rest := series_from cumulativeFlow ps' in
      {| incomeData := p_income p :: incomeData rest;
         expenseData := p_expense p :: expenseData rest;
         netData := net :: netData rest;
         cumulativeData := cumulativeFlow :: cumulativeData rest |}
  end.

Definition chartSeries {RT : Runtime} (now : Z) (timeRange : TimeRange)
    (transactions : list Transaction) : ChartSeries :=
  series_from (jofZ 0) (sortedPeriods (periodData now timeRange transactions)).

(** Specification side: the bucket a transaction is added to, if any. *)
Definition bucketOf {RT : Runtime} (now : Z) (timeRange : TimeRange)
    (transaction : Transaction) : option nat :=
  let start := startDate now timeRange in
  match parseDate (tx_date transaction) with
  | Some t =>
      let index := periodIndex (periodType timeRange) start t in
      if (start <=? t) && (t <=? now) && (0 <=? index)
         && (index <? Z.of_nat (periods timeRange))
      then Some (Z.to_nat index) else None
  | None => None
  end.

Definition inBucket {RT : Runtime} (now : Z) (timeRange : TimeRange) (i : nat)
    (transaction : Transaction) : bool :=
  bool_decide (bucketOf now timeRange transaction = Some i).

(** The window of the chart: dates from [startDate] to [now]. *)
Definition inWindow {RT : Runtime} (now : Z) (timeRange : TimeRange)
    (transaction : Transaction) : bool :=
  dateGe (parseDate (tx_date transaction)) (startDate now timeRange)
  && dateLe (parseDate (tx_date transaction)) now.

(** The part of the window that the buckets cover: all of it for month
    and year buckets, all but the instant [now] for day and week ones. *)
Definition covered {RT : Runtime} (now : Z) (timeRange : TimeRange)
    (transaction : Transaction) : bool :=
  inWindow now timeRange transaction
  && match timeRange with
     | daily | weekly => dateLt (parseDate (tx_date transaction)) now
     | monthly | yearly => true
     end.

(** Whether a transaction gets a bucket at all. *)
Definition hasBucket {RT : Runtime} (now : Z) (timeRange : TimeRange)
    (tx : Transaction) : bool :=
  bool_decide (is_Some (bucketOf now timeRange tx)).

End RealDataChart.

(** ** Bucketing of the advanced cash-flow chart ([processTransactionData])

    The label of a bucket, a locale rendering of its start, is left out. *)

Module AdvancedChart.
Import Calendar.

Inductive TimeFrame : Type := weekly | monthly | quarterly.

Record PeriodAggregate : Type := {
  a_income : jsnum;
  a_expense : jsnum;
  a_netFlow : jsnum;
  a_date : Z
}.

Definition periods (frame : TimeFrame) : nat :=
  match frame with
  | weekly => 12
  | monthly => 12
  | quarterly => 4
  end.

(** [now] moved back by [k] steps of the frame. *)
Definition back (frame : TimeFrame) (now : Z) (k : Z) : Z :=
  match frame with
  | weekly => setDate now (getDate now - k * 7)
  | monthly => setMonth now (getMonth now - k)
  | quarterly => setMonth now (getMonth now - k * 3)
  end.

Definition periodStart (frame : TimeFrame) (now : Z) (i : nat) : Z :=
  back frame now (Z.of_nat i + 1).
Definition periodEnd (frame : TimeFrame) (now : Z) (i : nat) : Z :=
  back frame now (Z.of_nat i).

Definition inPeriod {RT : Runtime} (frame : TimeFrame) (now : Z) (i : nat)
    (t : Transaction) : bool :=
  let transactionDate := parseDate (tx_date t) in
  dateGe transactionDate (periodStart frame now i)
  && dateLt transactionDate (periodEnd frame now i).

(** [ts.filter(ofType).reduce((sum, t) => sum + parseFloat(t.amount), 0)] *)
Definition sumOfType {RT : Runtime} (ty : TransactionType) (ts : list Transaction) : jsnum :=
  fold_left (fun sum t => (sum + parseFloat (tx_amount t))%js)
            (List.filter (fun t => TransactionType_eqb (tx_type t) ty) ts) (jofZ 0).

Definition aggregate {RT : Runtime} (frame : TimeFrame) (now : Z)
    (transactions : list Transaction) (i : nat) : PeriodAggregate :=
  let periodTransactions :=
    List.filter (inPeriod frame now i) transactions in
  let income_ := sumOfType income periodTransactions in
  let expense_ := sumOfType expense periodTransactions in
  {| a_income := income_; a_expense := expense_;
     a_netFlow := (income_ - expense_)%js;
     a_date := periodStart frame now i |}.

(** The loop [for (i = periods - 1; i >= 0; i--)]. *)
Definition processTransactionData {RT : Runtime} (now : Z)
    (transactions : list Transaction) (frame : TimeFrame) : list PeriodAggregate :=
  map (aggregate frame now transactions) (rev (seq 0 (periods frame))).

(** Specification side: the window is the span of the buckets, from the
    start of the oldest one up to [now], which is left out. *)
Definition inWindow {RT : Runtime} (frame : TimeFrame) (now : Z)
    (t : Transaction) : bool :=
  dateGe (parseDate (tx_date t)) (back frame now (Z.of_nat (periods frame)))
  && dateLt (parseDate (tx_date t)) now.

End AdvancedChart.

(** ** Projections generated from transactions
       ([generateProjectionsFromTransactions]) *)

Module Projections.
Import Calendar.

(** [Math.random()]: the [n]-th draw of the run is [oracle n]; the state
    is the number of draws made so far. *)
Definition Math_random (oracle : nat -> jsnum) (drawn : nat) : jsnum * nat :=
  (oracle drawn, S drawn).

Record MonthData : Type := {
  md_date : string;
  md_income : jsnum;
  md_expenses : jsnum
}.

(** [s.padStart(2, '0')] *)
Definition padStart2 (s : string) : string :=
  match s with
  | EmptyString => "00"
  | String c EmptyString => String "0" (String c EmptyString)
  | _ => s
  end.

(** Year and month of a [Date] as numbers ([NaN] on an invalid date). *)
Definition yearNumber (d : option Z) : jsnum :=
  match d with Some t => jofZ (getFullYear t) | None => NaN end.
Definition monthNumber (d : option Z) : jsnum :=
  match d with Some t => jofZ (getMonth t) | None => NaN end.

Definition monthKey {RT : Runtime} (d : option Z) : string :=
  (numberToString (yearNumber d) ++ "-"
   ++ padStart2 (numberToString (monthNumber d + jofZ 1)%js))%string.

(** A result, or a thrown exception. *)
Inductive Outcome (A : Type) : Type :=
| Returns (a : A)
| Throws.
Arguments Returns {A} a.
Arguments Throws {A}.

(** [toISOString] of a [Date]; a [RangeError] on an invalid one. *)
Definition dateToISOString {RT : Runtime} (d : option Z) : Outcome string :=
  match d with
  | Some t => Returns (toISOString t)
  | None => Throws
  end.

(** One round of [transactions.forEach] over the [monthlyData] map. *)
Definition addTransaction {RT : Runtime} (monthlyData : gmap string MonthData)
    (transaction : Transaction) : Outcome (gmap string MonthData) :=
  let d := parseDate (tx_date transaction) in
  let key := monthKey d in
  let ensured :=
    match monthlyData !! key with
    | Some _ => Returns monthlyData
    | None =>
        match dateToISOString
                (match d with
                 | Some t => Some (newDateYM1 (getFullYear t) (getMonth t))
                 | None => None
                 end) with
        | Returns iso =>
            Returns (<[key := {| md_date := iso; md_income := jofZ 0;
                                 md_expenses := jofZ 0 |}]> monthlyData)
        | Throws => Throws
        end
    end in
  match ensured with
  | Throws => Throws
  | Returns m =>
      let amount := jor_else (parseFloat (tx_amount transaction)) (jofZ 0) in
      match m !! key with
      | Some monthData =>
          let monthData' :=
            match tx_type transaction with
            | income =>
                {| md_date := md_date monthData;
                   md_income := (md_income monthData + amount)%js;
                   md_expenses := md_expenses monthData |}
            | expense =>
                {| md_date := md_date monthData;
                   md_income := md_income monthData;
                   md_expenses := (md_expenses monthData + jabs amount)%js |}
            end in
          Returns (<[key := monthData']> m)
      | None => Returns m
      end
  end.

Fixpoint groupByMonth {RT : Runtime} (monthlyData : gmap string MonthData)
    (transactions : list Transaction) : Outcome (gmap string MonthData) :=
  match transactions with
  | [] => Returns monthlyData
  | t :: ts =>
      match addTransaction monthlyData t with
      | Returns m => groupByMonth m ts
      | Throws => Throws
      end
  end.

(** [Array.from(monthlyData.keys()).sort()] *)
Definition sortedMonths (monthlyData : gmap string MonthData) : list string :=
  merge_sort String.le (map fst (map_to_list monthlyData)).

Definition historical {RT : Runtime} (monthlyData : gmap string MonthData)
  : list CashFlowProjection :=
  omap (fun key =>
          match monthlyData !! key with
          | Some data =>
              Some {| date := md_date data;
                      projectedIncome := Some (numberToString (md_income data));
                      projectedExpenses := Some (numberToString (md_expenses data));
                      netFlow := Some (numberToString
                                         (md_income data - md_expenses data)%js) |}
          | None => None
          end)
       (sortedMonths monthlyData).

(** [projections.reduce((sum, p) => sum + parseFloat(field(p)), 0)] *)
Definition sumParsed {RT : Runtime} (field : CashFlowProjection -> option string)
    (projections : list CashFlowProjection) : jsnum :=
  fold_left (fun sum p => (sum + parseFloatU (field p))%js) projections (jofZ 0).

(** The loop [for (i = 1; i <= 6; i++)], from round [i] with [rounds]
    rounds to go. *)
Fixpoint futureProjections {RT : Runtime} (oracle : nat -> jsnum)
    (avgIncome avgExpenses : jsnum) (lastDate : option Z)
    (i : Z) (rounds : nat) (drawn : nat)
  : Outcome (list CashFlowProjection) * nat :=
  match rounds with
  | O => (Returns [], drawn)
  | S rounds' =>
      let futureDate :=
        match lastDate with
        | Some t => Some (setMonth t (getMonth t + i))
        | None => None
        end in
      let '(r, drawn) := Math_random oracle drawn in
      let growthFactor :=
        (jofZ 1 + (r - Fin (Q2Qc (1 # 2))) * Fin (Q2Qc (1 # 10)))%js in
      let futureIncome := (avgIncome * growthFactor)%js in
      let futureExpenses := (avgExpenses * growthFactor)%js in
      match dateToISOString futureDate with
      | Throws => (Throws, drawn)
      | Returns iso =>
          let p := {| date := iso;
                      projectedIncome := Some (numberToString futureIncome);
                      projectedExpenses := Some (numberToString futureExpenses);
                      netFlow := Some (numberToString
                                         (futureIncome - futureExpenses)%js) |} in
          match futureProjections oracle avgIncome avgExpenses lastDate
                                  (i + 1) rounds' drawn with
          | (Returns ps, drawn') => (Returns (p :: ps), drawn')
          | (Throws, drawn') => (Throws, drawn')
          end
      end
  end.

Definition generateProjectionsFromTransactions {RT : Runtime}
    (oracle : nat -> jsnum) (drawn : nat) (transactions : list Transaction)
  : Outcome (list CashFlowProjection) * nat :=
  match transactions with
  | [] => (Returns [], drawn)
  | _ :: _ =>
      match groupByMonth ∅ transactions with
      | Throws => (Throws, drawn)
      | Returns monthlyData =>
          let projections := historical monthlyData in
          match last projections with
          | None => (Returns projections, drawn)
          | Some lastProjection =>
              let avgIncome :=
                (sumParsed projectedIncome projections / jlength projections)%js in
              let avgExpenses :=
                (sumParsed projectedExpenses projections / jlength projections)%js in
              let lastDate := parseDate (date lastProjection) in
              match futureProjections oracle avgIncome avgExpenses lastDate 1 6 drawn with
              | (Returns future, drawn') => (Returns (projections ++ future), drawn')
              | (Throws, drawn') => (Throws, drawn')
              end
          end
      end
  end.

(** The component's pipeline: the projections it was given, or else the
    generated ones, then the metrics. *)
Definition projectionMetrics {RT : Runtime} (oracle : nat -> jsnum) (drawn : nat)
    (data : list CashFlowProjection) (transactions : list Transaction)
    (scenario : Scenario) (months : jsnum)
  : Outcome ProjectionMetrics * nat :=
  match data with
  | _ :: _ => (Returns (calculateProjectionMetrics data scenario months), drawn)
  | [] =>
      match generateProjectionsFromTransactions oracle drawn transactions with
      | (Returns effectiveData, drawn') =>
          (Returns (calculateProjectionMetrics effectiveData scenario months), drawn')
      | (Throws, drawn') => (Throws, drawn')
      end
  end.

(** Specification side: the part of the result that is aggregated from
    the transactions, before any projection into the future. *)
Definition historicalPart {RT : Runtime} (transactions : list Transaction)
  : Outcome (list CashFlowProjection) :=
  match transactions with
  | [] => Returns []
  | _ :: _ =>
      match groupByMonth ∅ transactions with
      | Throws => Throws
      | Returns monthlyData => Returns (historical monthlyData)
      end
  end.

End Projections.

(** ** A reference runtime

    One reading of the library functions, used to run the definitions on
    examples: decimal literals for [parseFloat], plain decimal expansions
    (at most twenty fraction digits) for [toString], grouping by [.] and
    [,] as decimal mark for the es-AR formatter, and the ISO format
    [YYYY-MM-DDTHH:mm:ss.sssZ] for dates. *)

Module Ref.
Import Calendar.

Definition pow10 (n : nat) : Z := 10 ^ Z.of_nat n.

Definition digitValue (c : ascii) : option Z :=
  let n := Z.of_N (N_of_ascii c) in
  if (48 <=? n) && (n <=? 57) then Some (n - 48) else None.

(** Reads a run of digits: its value, its length and the rest. *)
Fixpoint takeDigits (s : list ascii) (acc : Z) (count : nat) : Z * nat * list ascii :=
  match s with
  | c :: s' =>
      match digitValue c with
      | Some d => takeDigits s' (acc * 10 + d) (S count)
      | None => (acc, count, s)
      end
  | [] => (acc, count, [])
  end.

Fixpoint skipSpace (s : list ascii) : list ascii :=
  match s with
  | c :: s' => if Ascii.is_space c then skipSpace s' else s
  | [] => []
  end.

Definition takeSign (s : list ascii) : Z * list ascii :=
  match s with
  | "-"%char :: r => (-1, r)
  | "+"%char :: r => (1, r)
  | _ => (1, s)
  end.

Fixpoint startsWith (p s : list ascii) : bool :=
  match p, s with
  | [], _ => true
  | a :: p', b :: s' => Ascii.eqb a b && startsWith p' s'
  | _ :: _, [] => false
  end.

(** [mant * 10^e] as a rational. *)
Definition scale10 (mant e : Z) : Qc :=
  if 0 <=? e then Q2Qc (inject_Z (mant * 10 ^ e))
  else Q2Qc (Qmake mant (Z.to_pos (10 ^ (- e)))).

Definition exponentPart (s : list ascii) : Z :=
  match s with
  | c :: r =>
      if Ascii.eqb c "e" || Ascii.eqb c "E" then
        let '(esign, r') := takeSign r in
        let '(ev, ec, _) := takeDigits r' 0 0 in
        if Nat.eqb ec 0 then 0 else esign * ev
      else 0
  | [] => 0
  end.

Definition ref_parseFloat (s : string) : jsnum :=
  let cs := skipSpace (list_ascii_of_string s) in
  let '(sign, cs) := takeSign cs in
  if startsWith (list_ascii_of_string "Infinity") cs
  then (if sign <? 0 then NegInf else PosInf)
  else
    let '(ip, ic, cs1) := takeDigits cs 0 0 in
    let '(fp, fc, cs2) :=
      match cs1 with
      | "."%char :: r => takeDigits r 0 0
      | _ => (0, 0%nat, cs1)
      end in
    if Nat.eqb (ic + fc) 0 then NaN
    else
      let mant := sign * (ip * pow10 fc + fp) in
      Fin (scale10 mant (exponentPart cs2 - Z.of_nat fc)).

Definition showNat (z : Z) : string := pretty (Z.to_N z).

Fixpoint zeros (n : nat) : string :=
  match n with
  | O => EmptyString
  | S n' => String "0" (zeros n')
  end.

(** [s] padded on the left with zeros to [n] characters. *)
Definition padZeros (n : nat) (s : string) : string :=
  (zeros (n - String.length s) ++ s)%string.

(** The least [k], at most [k + fuel], with [n * 10^k] a multiple of [d]. *)
Fixpoint fractionDigits (fuel k : nat) (n d : Z) : nat :=
  match fuel with
  | O => k
  | S fuel' =>
      if (n * pow10 k) mod d =? 0 then k
      else fractionDigits fuel' (S k) n d
  end.

Definition ref_numberToString (x : jsnum) : string :=
  match x with
  | NaN => "NaN"
  | PosInf => "Infinity"
  | NegInf => "-Infinity"
  | Fin q =>
      let n := Z.abs (Qnum q) in
      let d := Zpos (Qden q) in
      let k := fractionDigits 20 0 n d in
      let scaled := (n * pow10 k) / d in
      let text :=
        (showNat (scaled / pow10 k)
         ++ (if Nat.eqb k 0 then "" else "." ++ padZeros k (showNat (scaled mod pow10 k))))%string in
      if Qnum q <? 0 then ("-" ++ text)%string else text
  end.

(** Groups of three digits from the right, separated by [.]. *)
Fixpoint groupRev (s : list ascii) (n : nat) : list ascii :=
  match s with
  | [] => []
  | c :: s' =>
      match n, s' with
      | 2%nat, _ :: _ => c :: "."%char :: groupRev s' 0
      | _, _ => c :: groupRev s' (S n)
      end
  end.

Definition grouped (s : string) : string :=
  string_of_list_ascii (List.rev (groupRev (List.rev (list_ascii_of_string s)) 0)).

Definition ref_formatDecimal (digits : nat) (x : jsnum) : string :=
  match x with
  | NaN => "NaN"
  | PosInf => "∞"
  | NegInf => "-∞"
  | Fin q =>
      let n := Z.abs (Qnum q) in
      let d := Zpos (Qden q) in
      let scaled := (2 * n * pow10 digits + d) / (2 * d) in
      let text :=
        (grouped (showNat (scaled / pow10 digits))
         ++ (if Nat.eqb digits 0 then ""
             else "," ++ padZeros digits (showNat (scaled mod pow10 digits))))%string in
      if (Qnum q <? 0) && negb (scaled =? 0) then ("-" ++ text)%string else text
  end.

Definition ref_toISOString (t : Z) : string :=
  let y := getFullYear t in
  let time := TimeWithinDay t in
  let year :=
    if (0 <=? y) && (y <=? 9999) then padZeros 4 (showNat y)
    else ((if (y <? 0)%Z then "-" else "+") ++ padZeros 6 (showNat (Z.abs y)))%string in
  (year ++ "-" ++ padZeros 2 (showNat (getMonth t + 1))
        ++ "-" ++ padZeros 2 (showNat (getDate t))
        ++ "T" ++ padZeros 2 (showNat (time / 3600000))
        ++ ":" ++ padZeros 2 (showNat (time / 60000 mod 60))
        ++ ":" ++ padZeros 2 (showNat (time / 1000 mod 60))
        ++ "." ++ padZeros 3 (showNat (time mod 1000)) ++ "Z")%string.

(** Exactly [n] digits. *)
Fixpoint readDigits (n : nat) (acc : Z) (s : list ascii) : option (Z * list ascii) :=
  match n with
  | O => Some (acc, s)
  | S n' =>
      match s with
      | c :: s' =>
          match digitValue c with
          | Some d => readDigits n' (acc * 10 + d) s'
          | None => None
          end
      | [] => None
      end
  end.

Definition expect (c : ascii) (s : list ascii) : option (list ascii) :=
  match s with
  | c' :: s' => if Ascii.eqb c c' then Some s' else None
  | [] => None
  end.

Definition daysInMonth (y m : Z) : Z :=
  MakeDay y (m + 1) 1 - MakeDay y m 1.

(** The time of day [HH:mm[:ss[.sss]]][Z] in milliseconds. *)
Definition parseTime (s : list ascii) : option Z :=
  '(hh, s) ← readDigits 2 0 s;
  s ← expect ":" s;
  '(mm, s) ← readDigits 2 0 s;
  '(ss, s) ← match expect ":" s with
             | Some s' => readDigits 2 0 s'
             | None => Some (0, s)
             end;
  '(ms, s) ← match expect "." s with
             | Some s' => readDigits 3 0 s'
             | None => Some (0, s)
             end;
  let s := match expect "Z" s with Some s' => s' | None => s end in
  match s with
  | [] =>
      if (hh <=? 23) && (mm <=? 59) && (ss <=? 59)
      then Some (((hh * 60 + mm) * 60 + ss) * 1000 + ms)
      else None
  | _ => None
  end.

Definition ref_parseDate (str : string) : option Z :=
  let s := list_ascii_of_string str in
  '(y, s) ← readDigits 4 0 s;
  s ← expect "-" s;
  '(m, s) ← readDigits 2 0 s;
  s ← expect "-" s;
  '(d, s) ← readDigits 2 0 s;
  if (1 <=? m) && (m <=? 12) && (1 <=? d) && (d <=? daysInMonth y (m - 1)) then
    match s with
    | [] => Some (MakeDate (MakeDay y (m - 1) d) 0)
    | c :: s' =>
        if Ascii.eqb c "T" then
          time ← parseTime s';
          Some (MakeDate (MakeDay y (m - 1) d) time)
        else None
    end
  else None.

Definition refRuntime : Runtime :=
  {| parseFloat := ref_parseFloat;
     numberToString := ref_numberToString;
     formatDecimal := ref_formatDecimal;
     parseDate := ref_parseDate;
     toISOString := ref_toISOString |}.

End Ref.

(** ** Specification-side notions *)

(** [m] is the largest magnitude among [values]. *)
Definition IsMaxAbs (values : list jsnum) (m : jsnum) : Prop :=
  (exists v, In v values /\ m = jabs v) /\
  (forall v, In v values -> jle (jabs v) m = true).

(** The historical average of a field: the mean of its readings, an empty
    or missing reading counting as "0". *)
Definition readingOr0 {RT : Runtime} (field : CashFlowProjection -> option string)
    (item : CashFlowProjection) : jsnum :=
  parseFloat (strOr (field item) "0").

Definition averageOf {RT : Runtime} (field : CashFlowProjection -> option string)
    (data : list CashFlowProjection) : jsnum :=
  (jsum (map (readingOr0 field) data) / jlength data)%js.

(** A scenario that changes nothing. *)
Definition IdentityScenario (s : Scenario) : Prop :=
  incomeGrowth s = jofZ 0 /\ expenseReduction s = jofZ 0 /\
  numOr0 (marketGrowth s) = jofZ 0 /\ numOr0 (inflationRate s) = jofZ 0 /\
  oneTimeIncome s = jofZ 0 /\ oneTimeExpense s = jofZ 0.

(** ** Example data *)

(** Equality test on numbers ([NaN] equal to itself), for examples. *)
Definition jeqb (a b : jsnum) : bool :=
  match a, b with
  | NaN, NaN | NegInf, NegInf | PosInf, PosInf => true
  | Fin x, Fin y => Qeq_bool x y
  | _, _ => false
  end.

(** 2025-03-31T12:30:00.000Z *)
Definition exampleNow : Z := 1743424200000.

Definition exampleTx (when amount : string) (ty : TransactionType) : Transaction :=
  {| tx_id := "1"; tx_amount := amount; tx_type := ty; tx_categoryId := "c";
     tx_description := ""; tx_date := when |}.

Definition usdState : CurrencyState := setCurrency initialCurrencyState USD.

Definition bucket (inc exp net : string) : CashFlowProjection :=
  {| date := "2025-01-01T00:00:00.000Z"; projectedIncome := Some inc;
     projectedExpenses := Some exp; netFlow := Some net |}.

Definition baseScenario : Scenario :=
  {| name := "Escenario Base"; incomeGrowth := jofZ 0; expenseReduction := jofZ 0;
     oneTimeIncome := jofZ 0; oneTimeExpense := jofZ 0;
     marketGrowth := Some (jofZ 0); inflationRate := Some (jofZ 0);
     timeFrame := Some (jofZ 6) |}.

Module ServerExamples.
Import Server.

(** A backend whose tokens are all rejected and whose storage holds one
    row per user. *)
Definition rejectingBackend : Backend string :=
  {| verifyToken := fun _ => None;
     parseInt := fun _ => NaN;
     getUserTransactions := fun u _ => Some u;
     getDashboard := fun u => Some u;
     getUserAiInsights := fun u => Some u;
     getUserCashFlowProjections := fun u => Some u;
     getUserNotifications := fun u _ => Some u |}.

(** A backend that reads the token as the user's id. *)
Definition trustingBackend : Backend string :=
  {| verifyToken := fun t => Some {| payload_userId := t; payload_email := "" |};
     parseInt := fun _ => NaN;
     getUserTransactions := fun u _ => Some u;
     getDashboard := fun u => Some u;
     getUserAiInsights := fun u => Some u;
     getUserCashFlowProjections := fun u => Some u;
     getUserNotifications := fun u _ => Some u |}.

Definition requestFor (user : string) (header : option string) : AuthRequest :=
  {| authorization := header; param_userId := user; query_limit := None;
     req_userId := None |}.

End ServerExamples.

(** Two runs of [Math.random]: every draw 0.5, and every draw 0. *)
Definition drawsHalf (n : nat) : jsnum := Fin (Q2Qc (1 # 2)).
Definition drawsZero (n : nat) : jsnum := jofZ 0.

(** Draws that agree with [drawsHalf] on the first six only. *)
Definition drawsHalfThenZero (n : nat) : jsnum :=
  if (n <? 6)%nat then Fin (Q2Qc (1 # 2)) else jofZ 0.

Definition januaryTransactions : list Transaction :=
  [exampleTx "2025-01-15T10:00:00.000Z" "1000" income;
   exampleTx "2025-01-20T10:00:00.000Z" "400" expense].

(** ** Chart value formatters (lib/chart-formatters) *)

Module ChartFormatters.

(** [new Intl.NumberFormat('es-AR', { style: currency ? 'currency' :
    'decimal', currency: currency ? 'ARS' : undefined,
    minimumFractionDigits: d, maximumFractionDigits: d }).format(x)];
    [None] is the [RangeError] raised for digits out of range. *)
Class NumberFormat : Type := {
  intlFormat : bool -> jsnum -> jsnum -> option string
}.

Inductive ScaleOption : Type :=
| auto
| fixed (s : Scale).

Record ChartFormattingOptions : Type := {
  scale : option ScaleOption;
  currency : option bool;
  decimals : option jsnum
}.

(** The default argument [options = {}]. *)
Definition noOptions : ChartFormattingOptions :=
  {| scale := None; currency := None; decimals := None |}.

(** [s.replace('$', '-$')]: the first dollar sign gets a minus in front. *)
Fixpoint replaceDollar (s : string) : string :=
  match s with
  | EmptyString => EmptyString
  | String c rest =>
      if Ascii.eqb c "$" then String "-" (String "$" rest)
      else String c (replaceDollar rest)
  end.

Definition scaledValue (value : jsnum) (scale : Scale) : jsnum :=
  match scale with
  | Thousands => (value / jofZ 1000)%js
  | Millions => (value / jofZ 1000000)%js
  | Units => value
  end.

Definition suffix (scale : Scale) : string :=
  match scale with
  | Thousands => "K"
  | Millions => "M"
  | Units => EmptyString
  end.

Definition formatValueWithScale {NF : NumberFormat} (value : jsnum) (scale : Scale)
    (options : ChartFormattingOptions) : option string :=
  let currency := default true (currency options) in
  let decimals := default (jofZ 1) (decimals options) in
  let scaledValue := scaledValue value scale in
  let suffix := suffix scale in
  let finalDecimals :=
    match scale with
    | Units => jofZ 0
    | _ => jmax2 (jofZ 1) decimals
    end in
  match intlFormat currency finalDecimals (jabs scaledValue) with
  | None => None
  | Some formattedValue =>
      let formattedValue :=
        if (value <? jofZ 0)%js then
          if currency then replaceDollar formattedValue
          else String "-" formattedValue
        else formattedValue in
      Some (formattedValue ++ suffix)%string
  end.

(** [allValues.length > 0 ? allValues : [value]] *)
Definition valuesOr (allValues : list jsnum) (value : jsnum) : list jsnum :=
  match allValues with
  | [] => [value]
  | _ => allValues
  end.

Definition smartFormatValue {NF : NumberFormat} (value : jsnum)
    (allValues : list jsnum) (options : ChartFormattingOptions) : option string :=
  let effectiveScale :=
    match default auto (scale options) with
    | auto => determineScale (valuesOr allValues value)
    | fixed s => s
    end in
  formatValueWithScale value effectiveScale options.

Definition createChartTickFormatter {RT : Runtime} {NF : NumberFormat}
    (allValues : list jsnum) (options : ChartFormattingOptions)
    (value : StringOrNumber) : option string :=
  let scale := default auto (scale options) in
  let currency := default false (currency options) in
  let numValue := toNumeric value in
  if isNaN numValue then Some EmptyString
  else
    let effectiveValues := valuesOr allValues numValue in
    let effectiveScale :=
      match scale with
      | auto => determineScale effectiveValues
      | fixed s => s
      end in
    formatValueWithScale numValue effectiveScale
      {| ChartFormatters.scale := ChartFormatters.scale options;
         ChartFormatters.currency := Some currency;
         ChartFormatters.decimals :=
           Some (match effectiveScale with Units => jofZ 0 | _ => jofZ 1 end) |}.

Definition createTooltipFormatter {RT : Runtime} {NF : NumberFormat}
    (allValues : list jsnum) (options : ChartFormattingOptions)
    (value : StringOrNumber) : option string :=
  let effectiveScale :=
    match default auto (scale options) with
    | auto => determineScale allValues
    | fixed s => s
    end in
  let numValue := toNumeric value in
  if isNaN numValue then Some EmptyString
  else formatValueWithScale numValue effectiveScale options.

Definition getScaleLabel (scale : Scale) : string :=
  match scale with
  | Thousands => "en miles (K)"
  | Millions => "en millones (M)"
  | Units => "en unidades"
  end.

(** The scale as a function of the maximum. *)
Definition scaleOfMax (maxValue : jsnum) : Scale :=
  if (maxValue >=? jofZ 1000000)%js then Millions
  else if (maxValue >=? jofZ 1000)%js then Thousands
  else Units.

(** Whether a text has a dollar sign. *)
Definition hasDollar (s : string) : bool :=
  existsb (fun c => Ascii.eqb c "$") (list_ascii_of_string s).

(** The scales in increasing order. *)
Definition scaleRank (s : Scale) : nat :=
  match s with
  | Units => 0
  | Thousands => 1
  | Millions => 2
  end.

End ChartFormatters.

(** A reference reading of the number formatter: the digits are floored
    and must lie in 0..100, and a currency text starts with the peso
    sign. *)
Definition refNumberFormat : ChartFormatters.NumberFormat :=
  {| ChartFormatters.intlFormat := fun currency digits x =>
       match digits with
       | Fin q =>
           let d := (Qnum q / Zpos (Qden q))%Z in
           if (0 <=? d) && (d <=? 100) then
             Some ((if currency then "$ " else EmptyString)
                   ++ Ref.ref_formatDecimal (Z.to_nat d) x)%string
           else None
       | _ => None
       end |}.

(** ** Rate refresh of the currency provider (contexts/currency-context.tsx) *)

Module CurrencyProvider.

(** The body of a DolarAPI answer: the selling and the buying price, each
    possibly missing. *)
Record Quote : Type := {
  venta : option jsnum;
  compra : option jsnum
}.

(** [a || b] where [a] may be [undefined]. *)
Definition orElse (a : option jsnum) (b : option jsnum) : option jsnum :=
  match a with
  | Some x => if jtruthy x then Some x else b
  | None => b
  end.

(** The rate taken from one endpoint; [None] is a failed request, an
    answer that is not [ok], or a body that is not JSON. *)
Definition endpointRate (response : option Quote) (fallback : jsnum) : jsnum :=
  match response with
  | Some data => default fallback (orElse (orElse (venta data) (compra data)) (Some fallback))
  | None => fallback
  end.

(** The answers of the three endpoints. *)
Record Responses : Type := {
  resp_oficial : option Quote;
  resp_blue : option Quote;
  resp_mep : option Quote
}.

(** [fetchExchangeRates], as state updates; [closureDollarType] is the
    [dollarType] the running closure captured. *)
Definition fetchExchangeRates (closureDollarType : DollarType)
    (r : Responses) (st : CurrencyState) : CurrencyState :=
  let newRates :=
    {| rate_oficial := endpointRate (resp_oficial r) (rate_oficial FALLBACK_RATES);
       rate_blue := endpointRate (resp_blue r) (rate_blue FALLBACK_RATES);
       rate_mep := endpointRate (resp_mep r) (rate_mep FALLBACK_RATES) |} in
  {| currency := currency st; dollarType := dollarType st;
     dollarRates := newRates;
     exchangeRate := Some (rateOf newRates closureDollarType) |}.

(** The effect on [[dollarType, dollarRates]]. *)
Definition syncExchangeRate (st : CurrencyState) : CurrencyState :=
  {| currency := currency st; dollarType := dollarType st;
     dollarRates := dollarRates st;
     exchangeRate := Some (rateOf (dollarRates st) (dollarType st)) |}.

(** A refresh once its effect has run. *)
Definition refreshRates (closureDollarType : DollarType)
    (r : Responses) (st : CurrencyState) : CurrencyState :=
  syncExchangeRate (fetchExchangeRates closureDollarType r st).

(** The states the provider settles in. *)
Inductive Settled : CurrencyState -> Prop :=
| settled_initial : Settled initialCurrencyState
| settled_setCurrency st c : Settled st -> Settled (setCurrency st c)
| settled_setDollarType st t :
    Settled st -> Settled (syncExchangeRate (setDollarType st t))
| settled_refresh st closureDollarType r :
    Settled st -> Settled (refreshRates closureDollarType r st).

End CurrencyProvider.

(** ** Binary64 arithmetic

    The numbers of the source are IEEE 754 double-precision values.  Where
    a statement depends on rounding, arithmetic is read through [round64]:
    the result of an operation is the double nearest to the exact result,
    the one with an even significand when two are equally near, and an
    infinity past the largest double.  The sign of a zero is not kept. *)

Module Binary64.

(** [2^k], for an integer [k]. *)
Definition pow2 (k : Z) : Qc :=
  if 0 <=? k then Qc_of_Z (2 ^ k) else (/ Qc_of_Z (2 ^ (- k)))%Qc.

(** The exponent [e] of a positive rational: [2^e <= x < 2^(e+1)]. *)
Definition magnitude (x : Qc) : Z :=
  let l := Z.log2 (Qnum x) - Z.log2 (Zpos (Qden x)) in
  match (x ?= pow2 l)%Qc with
  | Lt => l - 1
  | _ => l
  end.

(** The integer nearest to a rational, the even one of two equally near. *)
Definition nearestEven (m : Qc) : Z :=
  let n := Qnum m in
  let d := Zpos (Qden m) in
  let f := n / d in
  match 2 * (n mod d) ?= d with
  | Lt => f
  | Gt => f + 1
  | Eq => if Z.even f then f else f + 1
  end.

(** The exponent of the unit in the last place of the double nearest to
    [x]: a double has 53 significant bits and is a multiple of [2^-1074]. *)
Definition ulpExponent (x : Qc) : Z :=
  Z.max (magnitude (Qcabs x) - 52) (-1074).

(** The magnitude of [x], rounded to a multiple of that unit. *)
Definition roundedMagnitude (x : Qc) : Qc :=
  let q := ulpExponent x in
  (Qc_of_Z (nearestEven (Qcabs x / pow2 q)) * pow2 q)%Qc.

(** The double nearest to a rational; magnitudes that round to [2^1024]
    or more overflow. *)
Definition round64 (x : Qc) : jsnum :=
  match jsgn x with
  | Eq => Fin 0%Qc
  | sign =>
      let v := roundedMagnitude x in
      match (v ?= pow2 1024)%Qc with
      | Lt => Fin (match sign with Lt => - v | _ => v end)%Qc
      | _ => jinf_signed sign
      end
  end.

(** The result of an operation, rounded when it is finite. *)
Definition rounded (v : jsnum) : jsnum :=
  match v with
  | Fin q => round64 q
  | _ => v
  end.

Definition fadd (a b : jsnum) : jsnum := rounded (jadd a b).
Definition fsub (a b : jsnum) : jsnum := rounded (jsub a b).
Definition fmul (a b : jsnum) : jsnum := rounded (jmul a b).
Definition fdiv (a b : jsnum) : jsnum := rounded (jdiv a b).

End Binary64.

(** ** Currency conversion, over doubles

    [convertAmount] once more, with the division and the multiplication
    rounded as the source's are. *)

Module Doubles.
Import Binary64.

Definition convertAmount {RT : Runtime} (st : CurrencyState)
    (amount : StringOrNumber) (fromCurrency toCurrency : Currency) : jsnum :=
  let numericAmount := toNumeric amount in
  if isNaN numericAmount || negb (rateTruthy (exchangeRate st)) then jofZ 0
  else if Currency_eqb fromCurrency toCurrency then numericAmount
  else if Currency_eqb fromCurrency ARS && Currency_eqb toCurrency USD
  then fdiv numericAmount (rateValue (exchangeRate st))
  else if Currency_eqb fromCurrency USD && Currency_eqb toCurrency ARS
  then fmul numericAmount (rateValue (exchangeRate st))
  else numericAmount.

(** The provider's state with another selected rate. *)
Definition withRate (st : CurrencyState) (rate : jsnum) : CurrencyState :=
  {| currency := currency st; dollarType := dollarType st;
     dollarRates := dollarRates st; exchangeRate := Some rate |}.

(** Pesos to dollars and back, and dollars to pesos and back. *)
Definition pesosRoundTrip {RT : Runtime} (st : CurrencyState) (a : jsnum) : jsnum :=
  convertAmount st (Num (convertAmount st (Num a) ARS USD)) USD ARS.

Definition dollarsRoundTrip {RT : Runtime} (st : CurrencyState) (a : jsnum) : jsnum :=
  convertAmount st (Num (convertAmount st (Num a) USD ARS)) ARS USD.

End Doubles.

(** ** Finite numbers *)

(** [Number.isFinite] *)
Definition isFinite (a : jsnum) : bool :=
  match a with
  | Fin _ => true
  | _ => false
  end.

(** ** Monthly totals, specification side *)

Module MonthlyTotals.
Import Calendar Projections.

Section Totals.
Context {RT : Runtime}.

(** The month key and the amount the grouping loop reads off a
    transaction. *)
Definition keyOf (transaction : Transaction) : string :=
  monthKey (parseDate (tx_date transaction)).

Definition amountOf (transaction : Transaction) : jsnum :=
  jor_else (parseFloat (tx_amount transaction)) (jofZ 0).

Definition hasKey (key : string) (transaction : Transaction) : bool :=
  String.eqb (keyOf transaction) key.

(** The income amounts of a month, in the order of the transactions, and
    the magnitudes of its other amounts. *)
Definition incomesOf (key : string) (transactions : list Transaction) : list jsnum :=
  map amountOf
      (List.filter (fun tx => hasKey key tx && TransactionType_eqb (tx_type tx) income)
                   transactions).

Definition expensesOf (key : string) (transactions : list Transaction) : list jsnum :=
  map (fun tx => jabs (amountOf tx))
      (List.filter (fun tx => hasKey key tx && TransactionType_eqb (tx_type tx) expense)
                   transactions).

(** The entry a month starts from, and the update one transaction makes
    to its month. *)
Definition freshMonth (t : Z) : MonthData :=
  {| md_date := toISOString (newDateYM1 (getFullYear t) (getMonth t));
     md_income := jofZ 0; md_expenses := jofZ 0 |}.

Definition bump (transaction : Transaction) (monthData : MonthData) : MonthData :=
  match tx_type transaction with
  | income =>
      {| md_date := md_date monthData;
         md_income := (md_income monthData + amountOf transaction)%js;
         md_expenses := md_expenses monthData |}
  | expense =>
      {| md_date := md_date monthData;
         md_income := md_income monthData;
         md_expenses := (md_expenses monthData + jabs (amountOf transaction))%js |}
  end.

End Totals.

End MonthlyTotals.

(** ** Smart insights: spending patterns and recommendations
       (smart insights component) *)

Module SmartInsights.
Import Calendar.

(** [x.toFixed(digits)] *)
Class Printer : Type := {
  toFixed : nat -> jsnum -> string
}.

(** *** Objects used as maps

    An object literal [{}] whose properties are numbers: the own
    properties in the order of their creation.  Property names that
    [Object.prototype] already defines read as something else than a
    number, and are left outside the model. *)

Definition inheritedNames : list string :=
  ["__defineGetter__"; "__defineSetter__"; "__lookupGetter__"; "__lookupSetter__";
   "__proto__"; "constructor"; "hasOwnProperty"; "isPrototypeOf";
   "propertyIsEnumerable"; "toLocaleString"; "toString"; "valueOf"]%string.

Definition isInherited (key : string) : bool :=
  existsb (String.eqb key) inheritedNames.

Definition JSObject : Type := list (string * jsnum).

Fixpoint getProp (o : JSObject) (key : string) : option jsnum :=
  match o with
  | [] => None
  | (k, v) :: rest => if String.eqb k key then Some v else getProp rest key
  end.

Fixpoint setProp (o : JSObject) (key : string) (value : jsnum) : JSObject :=
  match o with
  | [] => [(key, value)]
  | (k, v) :: rest =>
      if String.eqb k key then (k, value) :: rest
      else (k, v) :: setProp rest key value
  end.

(** The value of a run of decimal digits. *)
Fixpoint digitsValue (s : string) (acc : Z) : option Z :=
  match s with
  | EmptyString => Some acc
  | String c rest =>
      match Ref.digitValue c with
      | Some d => digitsValue rest (10 * acc + d)
      | None => None
      end
  end.

(** A property name that is an array index: the canonical decimal form
    of an integer below 2^32 - 1. *)
Definition arrayIndex (key : string) : option Z :=
  match key with
  | EmptyString => None
  | String "0" EmptyString => Some 0
  | String "0" _ => None
  | _ =>
      match digitsValue key 0 with
      | Some n => if n <=? 4294967294 then Some n else None
      | None => None
      end
  end.

#[local] Instance index_le_dec :
  RelDecision (fun a b : Z * (string * jsnum) => a.1 <= b.1).
Proof. intros a b. apply Z_le_dec. Defined.

(** [Object.entries(o)]: the array indices in increasing order, then the
    other names in the order of their creation. *)
Definition indexed (o : JSObject) : list (Z * (string * jsnum)) :=
  omap (fun e => (fun i => (i, e)) <$> arrayIndex e.1) o.

Definition named (o : JSObject) : JSObject :=
  List.filter (fun e => match arrayIndex e.1 with Some _ => false | None => true end) o.

Definition objectEntries (o : JSObject) : JSObject :=
  map snd (merge_sort (fun a b => a.1 <= b.1) (indexed o)) ++ named o.

Definition objectValues (o : JSObject) : list jsnum := map snd (objectEntries o).

(** *** The insights *)

Inductive Metadata : Type :=
| CategoryShare (categoryId : string) (percentage amount : jsnum)
| DailyExpenses (avgDailyExpenses : jsnum).

(** An insight and its optional [metadata]. *)
Record Insight : Type := {
  insight : SmartInsight;
  metadata : option Metadata
}.

Definition isExpense (t : Transaction) : bool :=
  TransactionType_eqb (tx_type t) expense.

(** One round of the [reduce] over the expenses. *)
Definition addExpense {RT : Runtime} (acc : JSObject) (t : Transaction) : JSObject :=
  let current :=
    match getProp acc (tx_categoryId t) with
    | Some v => jor_else v (jofZ 0)
    | None => jofZ 0
    end in
  setProp acc (tx_categoryId t) (current + parseFloat (tx_amount t))%js.

Definition patternInsight {P : Printer} (categoryId : string)
    (percentage amount : jsnum) : Insight :=
  {| insight :=
       {| insight_id := "pattern-" ++ categoryId;
          insight_type := pattern;
          title := "Concentración de Gastos Detectada";
          description :=
            "El " ++ toFixed 1 percentage
            ++ "% de tus gastos se concentra en una sola categoría. Considera diversificar o optimizar esta área.";
          priority := if (percentage >? jofZ 50)%js then prio_high else prio_medium;
          confidence := Fin (Q2Qc (85 # 100));
          impact := negative;
          actionable := true |};
     metadata := Some (CategoryShare categoryId percentage amount) |}.

(** [None] when a category is named like a property of
    [Object.prototype]. *)
Definition detectSpendingPatterns {RT : Runtime} {P : Printer}
    (transactions : list Transaction) : option (list Insight) :=
  let expenses := List.filter isExpense transactions in
  if existsb (fun t => isInherited (tx_categoryId t)) expenses then None
  else
    let expensesByCategory := fold_left addExpense expenses [] in
    let totalExpenses :=
      fold_left (fun sum amount => (sum + amount)%js)
                (objectValues expensesByCategory) (jofZ 0) in
    Some (omap (fun '(categoryId, amount) =>
                  let percentage := (amount / totalExpenses * jofZ 100)%js in
                  if (percentage >? jofZ 30)%js
                  then Some (patternInsight categoryId percentage amount)
                  else None)
               (objectEntries expensesByCategory)).

(** *** Specification side *)

(** The amount read off a transaction, and the test of its category. *)
Definition amountRead {RT : Runtime} (t : Transaction) : jsnum :=
  parseFloat (tx_amount t).

Definition inCategory (categoryId : string) (t : Transaction) : bool :=
  String.eqb (tx_categoryId t) categoryId.

(** The expenses of a category, summed in the order of the
    transactions. *)
Definition categoryTotal {RT : Runtime} (categoryId : string)
    (transactions : list Transaction) : jsnum :=
  jsum (map amountRead
            (List.filter (inCategory categoryId) (List.filter isExpense transactions))).


End SmartInsights.

(** A reference reading of [toFixed]: rounded half up on the magnitude. *)
Definition refPrinter : SmartInsights.Printer :=
  {| SmartInsights.toFixed := fun digits x =>
       match x with
       | Fin q =>
           let n := Z.abs (Qnum q) in
           let d := Zpos (Qden q) in
           let scaled := (2 * n * Ref.pow10 digits + d) / (2 * d) in
           let text :=
             (Ref.showNat (scaled / Ref.pow10 digits)
              ++ (if Nat.eqb digits 0 then EmptyString
                  else "." ++ Ref.padZeros digits
                                (Ref.showNat (scaled mod Ref.pow10 digits))))%string in
           if Qnum q <? 0 then ("-" ++ text)%string else text
       | _ => Ref.ref_numberToString x
       end |}.

(** Expenses of two categories, and of three. *)
Definition categoryTx (categoryId amount : string) : Transaction :=
  {| tx_id := "1"; tx_amount := amount; tx_type := expense;
     tx_categoryId := categoryId; tx_description := EmptyString;
     tx_date := "2025-03-20T10:00:00.000Z" |}.


(** ** The time zone of the runtime

    [Date.prototype.getDate] and [setDate] work on local time: the time
    value shifted by the offset of the zone, which may change with the
    date (daylight saving). *)

Module LocalCalendar.

Class Zone : Type := {
  (** the offset of local time from UTC, in milliseconds, at a time value
      given in UTC ([true]) or in local time ([false]) *)
  localTZA : Z -> bool -> Z
}.

Section Local.
Context {zone : Zone}.

Definition LocalTime (t : Z) : Z := t + localTZA t true.

Definition UTC (t : Z) : Z := t - localTZA t false.

Definition getDate (t : Z) : Z := Calendar.getDate (LocalTime t).

Definition setDate (t date : Z) : Z := UTC (Calendar.setDate (LocalTime t) date).

End Local.

(** A zone that keeps one offset all year. *)
Definition fixedOffset (offset : Z) : Zone := {| localTZA := fun _ _ => offset |}.

End LocalCalendar.

(** ** Smart insights, over doubles (smart insights component)

    The generator once more, with the arithmetic of doubles, the clock
    and the time zone of the runtime, and every category name. *)

Module InsightsGenerator.
Import Binary64 SmartInsights.

(** [l.reduce((sum, x) => sum + x, 0)] *)
Definition fsum (l : list jsnum) : jsnum := fold_left fadd l (jofZ 0).

(** [arr.filter(p)], [p] being told how many elements came before. *)
Fixpoint filter_from {A} (p : A -> nat -> bool) (i : nat) (arr : list A) : list A :=
  match arr with
  | [] => []
  | x :: arr' =>
      if p x i then x :: filter_from p (S i) arr' else filter_from p (S i) arr'
  end.

(** *** Objects used as maps

    What a property of the accumulator holds.  Under a name that
    [Object.prototype] defines the accumulator reads a function (an
    object under [__proto__]); adding a number to it gives a text, the
    source of the function followed by the digits, and so does adding a
    number to that text.  [Other] stands for all of these: they are
    truthy and do not read as a number. *)
Inductive Held : Type :=
| Number (v : jsnum)
| Other.

Definition Accumulator : Type := list (string * Held).

Fixpoint getProp (o : Accumulator) (key : string) : option Held :=
  match o with
  | [] => None
  | (k, v) :: rest => if String.eqb k key then Some v else getProp rest key
  end.

Fixpoint setProp (o : Accumulator) (key : string) (value : Held) : Accumulator :=
  match o with
  | [] => [(key, value)]
  | (k, v) :: rest =>
      if String.eqb k key then (k, value) :: rest
      else (k, v) :: setProp rest key value
  end.

#[local] Instance index_order_dec :
  RelDecision (fun a b : Z * (string * Held) => a.1 <= b.1).
Proof. intros a b. apply Z_le_dec. Defined.

(** [Object.entries(o)]: the array indices in increasing order, then the
    other names in the order of their creation. *)
Definition indexed (o : Accumulator) : list (Z * (string * Held)) :=
  omap (fun e => (fun i => (i, e)) <$> arrayIndex e.1) o.

Definition named (o : Accumulator) : Accumulator :=
  List.filter (fun e => match arrayIndex e.1 with Some _ => false | None => true end) o.

Definition objectEntries (o : Accumulator) : Accumulator :=
  map snd (merge_sort (fun a b => a.1 <= b.1) (indexed o)) ++ named o.

Definition objectValues (o : Accumulator) : list Held := map snd (objectEntries o).

(** [a + b] and the number [a] reads as. *)
Definition plus (a b : Held) : Held :=
  match a, b with
  | Number x, Number y => Number (fadd x y)
  | _, _ => Other
  end.

Definition toNumber (a : Held) : jsnum :=
  match a with
  | Number x => x
  | Other => NaN
  end.

Section Generator.
Context {RT : Runtime} {P : Printer} {zone : LocalCalendar.Zone}.

(** One round of the [reduce] over the expenses:
    [acc[t.categoryId] = (acc[t.categoryId] || 0) + parseFloat(t.amount)].
    The setter of [__proto__] drops a value that is no object. *)
Definition addExpense (acc : Accumulator) (t : Transaction) : Accumulator :=
  let current :=
    match getProp acc (tx_categoryId t) with
    | Some (Number v) => Number (jor_else v (jofZ 0))
    | Some Other => Other
    | None => if isInherited (tx_categoryId t) then Other else Number (jofZ 0)
    end in
  let value := plus current (Number (parseFloat (tx_amount t))) in
  if String.eqb (tx_categoryId t) "__proto__" then acc
  else setProp acc (tx_categoryId t) value.

Definition patternInsight (categoryId : string) (percentage amount : jsnum)
    : Insight :=
  {| insight :=
       {| insight_id := "pattern-" ++ categoryId;
          insight_type := pattern;
          title := "Concentración de Gastos Detectada";
          description :=
            "El " ++ toFixed 1 percentage
            ++ "% de tus gastos se concentra en una sola categoría. Considera diversificar o optimizar esta área.";
          priority := if (percentage >? jofZ 50)%js then prio_high else prio_medium;
          confidence := round64 (Q2Qc (85 # 100));
          impact := negative;
          actionable := true |};
     metadata := Some (CategoryShare categoryId percentage amount) |}.

Definition detectSpendingPatterns (transactions : list Transaction) : list Insight :=
  let expensesByCategory :=
    fold_left addExpense (List.filter isExpense transactions) [] in
  let totalExpenses := fold_left plus (objectValues expensesByCategory) (Number (jofZ 0)) in
  omap (fun '(categoryId, amount) =>
          let percentage :=
            fmul (fdiv (toNumber amount) (toNumber totalExpenses)) (jofZ 100) in
          if (percentage >? jofZ 30)%js
          then Some (patternInsight categoryId percentage (toNumber amount))
          else None)
       (objectEntries expensesByCategory).

(** [formatAmount] of the currency provider, its division rounded. *)
Definition formatAmount (st : CurrencyState)
    (amount : StringOrNumber) (showSymbol : bool) : string :=
  let numericAmount := toNumeric amount in
  if isNaN numericAmount then "0"%string
  else
    let numericAmount :=
      if Currency_eqb (currency st) USD && rateTruthy (exchangeRate st)
      then fdiv numericAmount (rateValue (exchangeRate st))
      else numericAmount in
    let formatted :=
      formatDecimal (if Currency_eqb (currency st) USD then 2%nat else 0%nat)
                    (jabs numericAmount) in
    let symbol := "$"%string in
    let currencyCode :=
      (if Currency_eqb (currency st) USD then " USD" else " ARS")%string in
    if showSymbol then (symbol ++ formatted ++ currencyCode)%string
    else formatted.

Definition expenseReview (st : CurrencyState) (avgDailyExpenses : jsnum) : Insight :=
  {| insight :=
       {| insight_id := "recommendation-expense-review";
          insight_type := recommendation;
          title := "Revisión de Gastos Recomendada";
          description :=
            "Con un promedio de "
            ++ formatAmount st (Str (numberToString avgDailyExpenses)) true
            ++ " en gastos diarios, podrías optimizar revisando gastos no esenciales.";
          priority := prio_medium;
          confidence := round64 (Q2Qc (75 # 100));
          impact := positive;
          actionable := true |};
     metadata := Some (DailyExpenses avgDailyExpenses) |}.

(** [clock k] is the time value of the [new Date()] that the filter
    reads at the transaction of position [k]. *)
Definition generateOptimizationRecommendations (st : CurrencyState)
    (clock : nat -> Z) (transactions : list Transaction) : list Insight :=
  let recentTransactions :=
    filter_from (fun t k =>
                   let transactionDate := parseDate (tx_date t) in
                   let thirtyDaysAgo := clock k in
                   let thirtyDaysAgo :=
                     LocalCalendar.setDate thirtyDaysAgo
                       (LocalCalendar.getDate thirtyDaysAgo - 30) in
                   dateGe transactionDate thirtyDaysAgo)
                0 transactions in
  match recentTransactions with
  | [] => []
  | _ :: _ =>
      let avgDailyExpenses :=
        fdiv (fold_left (fun sum t => fadd sum (parseFloat (tx_amount t)))
                        (List.filter isExpense recentTransactions) (jofZ 0))
             (jofZ 30) in
      if (avgDailyExpenses >? jofZ 5000)%js then [expenseReview st avgDailyExpenses]
      else []
  end.

(** The list [generateInsights] stores and reports. *)
Definition generateInsights (st : CurrencyState) (clock : nat -> Z)
    (transactions : list Transaction) (cashFlowData : list CashFlowProjection)
    : list Insight :=
  detectSpendingPatterns transactions
  ++ map (fun i => {| insight := i; metadata := None |})
         (detectCashFlowTrends cashFlowData)
  ++ generateOptimizationRecommendations st clock transactions.

(** *** Specification side *)

(** The expenses of a category, added up in the order of the
    transactions. *)
Definition categoryTotal (categoryId : string) (transactions : list Transaction)
    : jsnum :=
  fsum (map amountRead
            (List.filter (inCategory categoryId) (List.filter isExpense transactions))).

(** The categories with an expense, in the order in which
    [Object.entries] lists them. *)
Definition categoriesListed (transactions : list Transaction) : list string :=
  (objectEntries (fold_left addExpense (List.filter isExpense transactions) [])).*1.

End Generator.

End InsightsGenerator.

(** The reference runtime reading amounts as doubles. *)
Definition doubleRuntime : Runtime :=
  {| parseFloat := fun s => Binary64.rounded (Ref.ref_parseFloat s);
     numberToString := Ref.ref_numberToString;
     formatDecimal := Ref.ref_formatDecimal;
     parseDate := Ref.ref_parseDate;
     toISOString := Ref.ref_toISOString |}.

(** Buenos Aires: three hours behind UTC all year. *)
Definition buenosAires : LocalCalendar.Zone := LocalCalendar.fixedOffset (-10800000).

(** Expenses that stand out, and a clock that advances while it is read. *)
Definition aprilExpenses : list Transaction :=
  [categoryTx "rent" "600000"; categoryTx "food" "400000"].

Definition tickingClock (k : nat) : Z := exampleNow + Z.of_nat k.

(** ** REST API: the remaining routes (server/routes.ts)

    A handler is run against the answers of the storage layer; what it
    returns is its reply together with the storage calls it made, in
    order. *)

Module Api.
Import Server.

Record User : Type := {
  user_id : string;
  user_username : string;
  user_email : string;
  user_password : string;
  user_companyName : string;
  user_preferredCurrency : option string
}.

Record InsertUser : Type := {
  new_username : string;
  new_email : string;
  new_password : string;
  new_companyName : string;
  new_taxId : option string;
  new_preferredCurrency : option string
}.

(** [{ ...userData, password: hashedPassword }] *)
Definition withPassword (userData : InsertUser) (hashedPassword : string) : InsertUser :=
  {| new_username := new_username userData; new_email := new_email userData;
     new_password := hashedPassword; new_companyName := new_companyName userData;
     new_taxId := new_taxId userData;
     new_preferredCurrency := new_preferredCurrency userData |}.

(** The part of a user a reply shows. *)
Record PublicUser : Type := {
  pu_id : string;
  pu_username : string;
  pu_email : string;
  pu_companyName : string;
  pu_preferredCurrency : option string
}.

Definition publicUser (user : User) : PublicUser :=
  {| pu_id := user_id user; pu_username := user_username user;
     pu_email := user_email user; pu_companyName := user_companyName user;
     pu_preferredCurrency := user_preferredCurrency user |}.

Inductive Schema : Type :=
| TransactionSchema | CategorySchema | AiInsightSchema | ProjectionSchema
| InflationSchema | NotificationSchema.

Section Calls.
Context {Parsed : Type}.

Inductive StorageCall : Type :=
| GetUserByEmail (email : string)
| CreateUser (insertUser : InsertUser)
| GetUser (id : string)
| CreateTransaction (userId : string) (data : Parsed)
| GetTransactionCategories
| CreateTransactionCategory (data : Parsed)
| CreateAiInsight (userId : string) (data : Parsed)
| CreateCashFlowProjection (userId : string) (data : Parsed)
| GetLatestInflationRate
| CreateInflationData (data : Parsed)
| GetUnreadNotificationCount (userId : string)
| CreateNotification (userId : string) (data : Parsed)
| MarkNotificationAsRead (notificationId : string)
| MarkAllNotificationsAsRead (userId : string)
| DeleteNotification (notificationId : string).

End Calls.
Arguments StorageCall Parsed : clear implicits.

(** What the handlers call: the token and password libraries, the
    schema validators ([None] is a [ZodError]) and the storage layer (a
    call that rejects is [None]). *)
Class Env (Raw Parsed Data : Type) : Type := {
  env_backend :: Backend Data;
  generateToken : JWTPayload -> string;
  hashPassword : string -> string;
  comparePassword : string -> string -> bool;
  parseUser : Raw -> option InsertUser;
  parseLogin : Raw -> option (string * string);
  parseBody : Schema -> Raw -> option Parsed;
  getUserByEmail : string -> option (option User);
  createUser : InsertUser -> option User;
  getUser : string -> option (option User);
  run : StorageCall Parsed -> option Data
}.

Inductive ApiBody (Data : Type) : Type :=
| Msg (message : string)
| Invalid (message : string)
| Item (d : Data)
| Count (d : Data)
| Session (token : string) (user : PublicUser)
| Profile (user : PublicUser).
Arguments Msg {Data} message.
Arguments Invalid {Data} message.
Arguments Item {Data} d.
Arguments Count {Data} d.
Arguments Session {Data} token user.
Arguments Profile {Data} user.

Record Reply (Data : Type) : Type := {
  code : nat;
  content : ApiBody Data
}.
Arguments code {Data} _.
Arguments content {Data} _.

Record Handled (Parsed Data : Type) : Type := {
  reply : Reply Data;
  calls : list (StorageCall Parsed)
}.
Arguments reply {Parsed Data} _.
Arguments calls {Parsed Data} _.

Record ApiRequest (Raw : Type) : Type := {
  auth : AuthRequest;
  req_body : Raw;
  param_notificationId : string
}.
Arguments auth {Raw} _.
Arguments req_body {Raw} _.
Arguments param_notificationId {Raw} _.

Inductive Route : Type :=
| Register | Login | Me
| PostTransaction | GetCategories | PostCategory | PostAiInsight | PostProjection
| GetInflation | PostInflation
| NotificationCount | PostNotification | MarkRead | MarkAllRead | RemoveNotification.

Section Handlers.
Context {Raw Parsed Data : Type} {E : Env Raw Parsed Data}.

Definition answer (code : nat) (content : ApiBody Data)
    (calls : list (StorageCall Parsed)) : Handled Parsed Data :=
  {| reply := {| code := code; content := content |}; calls := calls |}.

(** The reply of a middleware that does not pass the request on. *)
Definition refused (r : Response Data) : Handled Parsed Data :=
  answer (status r)
         (match body r with Message m => Msg m | Json d => Item d end) [].

(** A route behind [authenticateToken]. *)
Definition guarded (handler : AuthRequest -> Handled Parsed Data)
    (req : ApiRequest Raw) : Handled Parsed Data :=
  match authenticateToken (auth req) with
  | Respond r => refused r
  | Next req' => handler req'
  end.

(** [if (req.userId !== userId) return res.status(403)...] *)
Definition owned (req : AuthRequest) (handler : Handled Parsed Data)
  : Handled Parsed Data :=
  if negb (bool_decide (req_userId req = Some (param_userId req)))
  then answer 403 (Msg "No autorizado") []
  else handler.

(** One storage call whose value is sent back with [code], or whose
    rejection is caught as 500. *)
Definition perform (call : StorageCall Parsed) (code : nat)
    (content : Data -> ApiBody Data) (error : string) : Handled Parsed Data :=
  match run call with
  | Some d => answer code (content d) [call]
  | None => answer 500 (Msg error) [call]
  end.

(** [schema.parse(req.body)] followed by one storage call. *)
Definition create (schema : Schema) (body : Raw) (call : Parsed -> StorageCall Parsed)
    (invalid error : string) : Handled Parsed Data :=
  match parseBody schema body with
  | None => answer 400 (Invalid invalid) []
  | Some data => perform (call data) 201 Item error
  end.

Definition session (code : nat) (user : User) (calls : list (StorageCall Parsed))
  : Handled Parsed Data :=
  answer code
         (Session (generateToken {| payload_userId := user_id user;
                                    payload_email := user_email user |})
                  (publicUser user))
         calls.

Definition register (req : ApiRequest Raw) : Handled Parsed Data :=
  match parseUser (req_body req) with
  | None => answer 400 (Invalid "Datos inválidos") []
  | Some userData =>
      let lookup := GetUserByEmail (new_email userData) in
      match getUserByEmail (new_email userData) with
      | None => answer 500 (Msg "Error interno del servidor") [lookup]
      | Some (Some existingUser) =>
          answer 400 (Msg "El usuario ya existe con este email") [lookup]
      | Some None =>
          let hashedPassword := hashPassword (new_password userData) in
          let insertUser := withPassword userData hashedPassword in
          match createUser insertUser with
          | None =>
              answer 500 (Msg "Error interno del servidor")
                     [lookup; CreateUser insertUser]
          | Some user => session 201 user [lookup; CreateUser insertUser]
          end
      end
  end.

Definition login (req : ApiRequest Raw) : Handled Parsed Data :=
  match parseLogin (req_body req) with
  | None => answer 400 (Invalid "Datos inválidos") []
  | Some (email, password) =>
      let lookup := GetUserByEmail email in
      match getUserByEmail email with
      | None => answer 500 (Msg "Error interno del servidor") [lookup]
      | Some None => answer 401 (Msg "Credenciales inválidas") [lookup]
      | Some (Some user) =>
          if negb (comparePassword password (user_password user))
          then answer 401 (Msg "Credenciales inválidas") [lookup]
          else session 200 user [lookup]
      end
  end.

(** [req.userId!] *)
Definition userIdOf (req : AuthRequest) : string := default EmptyString (req_userId req).

Definition me : ApiRequest Raw -> Handled Parsed Data :=
  guarded (fun req =>
    let lookup := GetUser (userIdOf req) in
    match getUser (userIdOf req) with
    | None => answer 500 (Msg "Error interno del servidor") [lookup]
    | Some None => answer 404 (Msg "Usuario no encontrado") [lookup]
    | Some (Some user) => answer 200 (Profile (publicUser user)) [lookup]
    end).

Definition handle (route : Route) (req : ApiRequest Raw) : Handled Parsed Data :=
  match route with
  | Register => register req
  | Login => login req
  | Me => me req
  | PostTransaction =>
      guarded (fun r =>
        create TransactionSchema (req_body req) (CreateTransaction (param_userId r))
               "Invalid transaction data" "Error creating transaction") req
  | GetCategories =>
      perform GetTransactionCategories 200 Item "Error fetching categories"
  | PostCategory =>
      create CategorySchema (req_body req) CreateTransactionCategory
             "Invalid category data" "Error creating category"
  | PostAiInsight =>
      guarded (fun r =>
        create AiInsightSchema (req_body req) (CreateAiInsight (param_userId r))
               "Invalid insight data" "Error creating AI insight") req
  | PostProjection =>
      guarded (fun r =>
        create ProjectionSchema (req_body req)
               (CreateCashFlowProjection (param_userId r))
               "Invalid projection data" "Error creating projection") req
  | GetInflation =>
      perform GetLatestInflationRate 200 Item "Error fetching inflation data"
  | PostInflation =>
      create InflationSchema (req_body req) CreateInflationData
             "Invalid inflation data" "Error creating inflation data"
  | NotificationCount =>
      guarded (fun r =>
        owned r (perform (GetUnreadNotificationCount (param_userId r)) 200 Count
                         "Error al contar notificaciones")) req
  | PostNotification =>
      guarded (fun r =>
        owned r (create NotificationSchema (req_body req)
                        (CreateNotification (param_userId r))
                        "Datos de notificación inválidos"
                        "Error al crear notificación")) req
  | MarkRead =>
      guarded (fun r =>
        perform (MarkNotificationAsRead (param_notificationId req)) 200
                (fun _ => Msg "Notificación marcada como leída")
                "Error al marcar notificación") req
  | MarkAllRead =>
      guarded (fun r =>
        owned r (perform (MarkAllNotificationsAsRead (param_userId r)) 200
                         (fun _ => Msg "Todas las notificaciones marcadas como leídas")
                         "Error al marcar todas las notificaciones")) req
  | RemoveNotification =>
      guarded (fun r =>
        perform (DeleteNotification (param_notificationId req)) 200
                (fun _ => Msg "Notificación eliminada")
                "Error al eliminar notificación") req
  end.

(** *** Specification side *)

(** The user a request's token is verified for, if any. *)
Definition verifiedUser (req : ApiRequest Raw) : option string :=
  match bearerToken (authorization (auth req)) with
  | Some token => payload_userId <$> verifyToken token
  | None => None
  end.

(** The routes behind [authenticateToken], and those of them that also
    compare the token's user with the user of the path. *)
Definition tokenRoute (route : Route) : bool :=
  match route with
  | Me | PostTransaction | PostAiInsight | PostProjection
  | NotificationCount | PostNotification | MarkRead | MarkAllRead
  | RemoveNotification => true
  | _ => false
  end.

Definition ownerRoute (route : Route) : bool :=
  match route with
  | NotificationCount | PostNotification | MarkAllRead => true
  | _ => false
  end.

(** The user a storage call is about, when it names one. *)
Definition callUser (call : StorageCall Parsed) : option string :=
  match call with
  | GetUser id => Some id
  | CreateTransaction userId _ | CreateAiInsight userId _
  | CreateCashFlowProjection userId _ | GetUnreadNotificationCount userId
  | CreateNotification userId _ | MarkAllNotificationsAsRead userId => Some userId
  | _ => None
  end.

(** Whether the storage layer rejects a call. *)
Definition rejected (call : StorageCall Parsed) : bool :=
  match call with
  | GetUserByEmail email => bool_decide (getUserByEmail email = None)
  | CreateUser insertUser => bool_decide (createUser insertUser = None)
  | GetUser id => bool_decide (getUser id = None)
  | _ => bool_decide (run call = None)
  end.

End Handlers.

End Api.

Module ApiExamples.
Import Server ServerExamples Api.

Definition ana : User :=
  {| user_id := "u1"; user_username := "ana"; user_email := "ana@example.com";
     user_password := "hash:secret1"; user_companyName := "Ana SRL";
     user_preferredCurrency := Some "ARS"%string |}.

(** An environment over text bodies: the empty body is malformed, tokens
    read as user ids, [ana] is the one user, and the storage layer
    accepts every call. *)
Definition exampleEnv : Env string string string :=
  {| env_backend := trustingBackend;
     generateToken := payload_userId;
     hashPassword := fun password => ("hash:" ++ password)%string;
     comparePassword := fun password hashedPassword =>
       String.eqb ("hash:" ++ password) hashedPassword;
     parseUser := fun raw =>
       match raw with
       | EmptyString => None
       | _ => Some {| new_username := raw; new_email := raw;
                      new_password := "secret1"; new_companyName := "SRL";
                      new_taxId := None; new_preferredCurrency := None |}
       end;
     parseLogin := fun raw =>
       match raw with
       | EmptyString => None
       | _ => Some (raw, "secret2"%string)
       end;
     parseBody := fun _ raw =>
       match raw with
       | EmptyString => None
       | _ => Some raw
       end;
     getUserByEmail := fun email =>
       Some (if String.eqb email "ana@example.com" then Some ana else None);
     createUser := fun insertUser =>
       Some {| user_id := "u2"; user_username := new_username insertUser;
               user_email := new_email insertUser;
               user_password := new_password insertUser;
               user_companyName := new_companyName insertUser;
               user_preferredCurrency := new_preferredCurrency insertUser |};
     getUser := fun id => Some (if String.eqb id "u1" then Some ana else None);
     run := fun _ => Some "ok"%string |}.

(** A request about user [user] with an optional header and a body. *)
Definition apiRequest (user : string) (header : option string) (body : string)
  : ApiRequest string :=
  {| auth := requestFor user header; req_body := body;
     param_notificationId := "n1" |}.

End ApiExamples.

(** ** Report windows (reports/report-card.tsx) *)

Module ReportCard.
Import Calendar.

Inductive DefaultPeriod : Type := monthly | weekly | quarterly | annual.

Record DateRange : Type := {
  range_start : Z;
  range_end : Z
}.

(** [new Date(year, month, date)]; years 0 to 99 mean 1900 to 1999. *)
Definition newDate (year month date : Z) : Z :=
  let year := if (0 <=? year) && (year <=? 99) then 1900 + year else year in
  MakeDate (MakeDay year month date) 0.

(** The day of the week, Sunday being 0. *)
Definition getDay (t : Z) : Z := (Day t + 4) mod 7.

(** [startDate] and [endDate] are the dates picked for a custom period,
    if any. *)
Definition getDateRange (now : Z) (defaultPeriod : DefaultPeriod)
    (selectedPeriod : string) (startDate endDate : option Z) : DateRange :=
  let currentYear := getFullYear now in
  let currentMonth := getMonth now in
  let fallback :=
    {| range_start := newDate currentYear currentMonth 1;
       range_end := newDate currentYear (currentMonth + 1) 0 |} in
  let byPeriod :=
    match defaultPeriod with
    | weekly =>
        if String.eqb selectedPeriod "current" then
          let weekStart := setDate now (getDate now - getDay now) in
          let weekEnd := setDate weekStart (getDate weekStart + 6) in
          {| range_start := weekStart; range_end := weekEnd |}
        else if String.eqb selectedPeriod "previous" then
          let prevWeekStart := setDate now (getDate now - getDay now - 7) in
          let prevWeekEnd := setDate prevWeekStart (getDate prevWeekStart + 6) in
          {| range_start := prevWeekStart; range_end := prevWeekEnd |}
        else fallback
    | monthly =>
        if String.eqb selectedPeriod "current" then
          {| range_start := newDate currentYear currentMonth 1;
             range_end := newDate currentYear (currentMonth + 1) 0 |}
        else if String.eqb selectedPeriod "previous" then
          {| range_start := newDate currentYear (currentMonth - 1) 1;
             range_end := newDate currentYear currentMonth 0 |}
        else fallback
    | quarterly =>
        let currentQuarter := currentMonth / 3 in
        if String.eqb selectedPeriod "current" then
          {| range_start := newDate currentYear (currentQuarter * 3) 1;
             range_end := newDate currentYear ((currentQuarter + 1) * 3) 0 |}
        else if String.eqb selectedPeriod "previous" then
          {| range_start := newDate currentYear ((currentQuarter - 1) * 3) 1;
             range_end := newDate currentYear (currentQuarter * 3) 0 |}
        else fallback
    | annual =>
        if String.eqb selectedPeriod "current" then
          {| range_start := newDate currentYear 0 1;
             range_end := newDate currentYear 11 31 |}
        else if String.eqb selectedPeriod "previous" then
          {| range_start := newDate (currentYear - 1) 0 1;
             range_end := newDate (currentYear - 1) 11 31 |}
        else if String.eqb selectedPeriod "ytd" then
          {| range_start := newDate currentYear 0 1; range_end := now |}
        else fallback
    end in
  if String.eqb selectedPeriod "custom" then
    match startDate, endDate with
    | Some s, Some e => {| range_start := s; range_end := e |}
    | _, _ => byPeriod
    end
  else byPeriod.

Definition getFilteredTransactions {RT : Runtime} (range : DateRange)
    (transactions : list Transaction) : list Transaction :=
  List.filter (fun transaction =>
                 let transactionDate := parseDate (tx_date transaction) in
                 dateGe transactionDate (range_start range)
                 && dateLe transactionDate (range_end range))
              transactions.

Record Metrics : Type := {
  m_income : jsnum;
  m_expenses : jsnum;
  m_netBalance : jsnum;
  m_transactionCount : nat
}.

Definition calculateMetrics {RT : Runtime} (range : DateRange)
    (transactions : list Transaction) : Metrics :=
  let filteredTransactions := getFilteredTransactions range transactions in
  let income :=
    fold_left (fun sum t => (sum + parseFloat (tx_amount t))%js)
              (List.filter (fun t => TransactionType_eqb (tx_type t) income)
                           filteredTransactions) (jofZ 0) in
  let expenses :=
    fold_left (fun sum t => (sum + parseFloat (tx_amount t))%js)
              (List.filter (fun t => TransactionType_eqb (tx_type t) expense)
                           filteredTransactions) (jofZ 0) in
  {| m_income := income; m_expenses := expenses;
     m_netBalance := (income - expenses)%js;
     m_transactionCount := length filteredTransactions |}.

End ReportCard.

(** ** Words of a header, specification side *)

(** Whether a text has no space in it. *)
Definition noSpace (s : string) : bool :=
  forallb (fun c => negb (Ascii.eqb c " ")) (list_ascii_of_string s).

(** ** Forecast of the advanced chart (advanced cash-flow chart)

    The arithmetic of the regression is that of doubles.  Of the points
    the loop pushes only the net flow is followed here, not the label or
    the date. *)

Module Forecast.
Import AdvancedChart Binary64.

(** [arr.reduce((acc, x, i) => f acc x i, init)], from index [i]. *)
Fixpoint reduce_from {A B} (f : B -> A -> nat -> B) (i : nat) (arr : list A)
    (acc : B) : B :=
  match arr with
  | [] => acc
  | x :: arr' => reduce_from f (S i) arr' (f acc x i)
  end.

(** [data.map((_, i) => i)] *)
Definition xValuesOf {A} (data : list A) : list jsnum :=
  mapi_from (fun _ i => jofZ (Z.of_nat i)) 0 data.

Definition yValuesOf (data : list PeriodAggregate) : list jsnum :=
  map a_netFlow data.

(** The least-squares line through the net flows, as [(slope, intercept)]. *)
Definition trendLine (data : list PeriodAggregate) : jsnum * jsnum :=
  let xValues := xValuesOf data in
  let yValues := yValuesOf data in
  let n := jlength data in
  let sumX := reduce_from (fun a b _ => fadd a b) 0 xValues (jofZ 0) in
  let sumY := reduce_from (fun a b _ => fadd a b) 0 yValues (jofZ 0) in
  let sumXY :=
    reduce_from (fun sum x i => fadd sum (fmul x (at_index yValues i)))
                0 xValues (jofZ 0) in
  let sumXX := reduce_from (fun sum x _ => fadd sum (fmul x x)) 0 xValues (jofZ 0) in
  let slope :=
    fdiv (fsub (fmul n sumXY) (fmul sumX sumY))
         (fsub (fmul n sumXX) (fmul sumX sumX)) in
  let intercept := fdiv (fsub sumY (fmul slope sumX)) n in
  (slope, intercept).

Definition forecastPeriods : nat := 6.

(** The net flows of the points the loop pushes after the history;
    [None] is the [TypeError] of reading the date of the last entry of an
    empty history. *)
Definition forecastValues (data : list PeriodAggregate) : option (list jsnum) :=
  let '(slope, intercept) := trendLine data in
  match last data with
  | None => None
  | Some _ =>
      Some (map (fun i =>
                   fadd (fmul slope (fadd (jlength data) (jofZ (Z.of_nat i))))
                        intercept)
                (seq 0 forecastPeriods))
  end.

End Forecast.

(** Four quarters whose net flows rise by 10 from 10. *)
Definition quarterHistory : list AdvancedChart.PeriodAggregate :=
  map (fun i =>
         {| AdvancedChart.a_income := jofZ (10 + 10 * i);
            AdvancedChart.a_expense := jofZ 0;
            AdvancedChart.a_netFlow := jofZ (10 + 10 * i);
            AdvancedChart.a_date := exampleNow + i * 90 * Calendar.msPerDay |})
      [0; 1; 2; 3].

(** ** Cash-flow metrics (CashFlowMetrics)

    The weekly figures of the metrics cards, summed as doubles.  [now] is
    the time value of the clock, read once when the component renders. *)

Module CashFlowMetrics.
Import Binary64.

Record WeekMetrics := {
  w_income : jsnum;
  w_expenses : jsnum;
  w_netFlow : jsnum;
  w_weekStart : Z;
  w_weekEnd : Z
}.

(** [7 * 24 * 60 * 60 * 1000] *)
Definition msPerWeek : Z := 7 * 24 * 60 * 60 * 1000.

Section Figures.
Context {RT : Runtime}.

Definition inWeek (now : Z) (i : nat) (t : Transaction) : bool :=
  let weekStart := now - (Z.of_nat i + 1) * msPerWeek in
  let weekEnd := now - Z.of_nat i * msPerWeek in
  let transactionDate := parseDate (tx_date t) in
  dateGe transactionDate weekStart && dateLt transactionDate weekEnd.

(** [ts.filter(ofType).reduce((sum, t) => sum + parseFloat(t.amount), 0)] *)
Definition sumOfType (ty : TransactionType) (ts : list Transaction) : jsnum :=
  fold_left (fun sum t => fadd sum (parseFloat (tx_amount t)))
            (List.filter (fun t => TransactionType_eqb (tx_type t) ty) ts) (jofZ 0).

(** One turn of the loop of [calculateWeeklyMetrics]. *)
Definition weekMetrics (now : Z) (transactions : list Transaction) (i : nat)
    : WeekMetrics :=
  let weekTransactions := List.filter (inWeek now i) transactions in
  let income_ := sumOfType income weekTransactions in
  let expenses_ := sumOfType expense weekTransactions in
  {| w_income := income_; w_expenses := expenses_;
     w_netFlow := fsub income_ expenses_;
     w_weekStart := now - (Z.of_nat i + 1) * msPerWeek;
     w_weekEnd := now - Z.of_nat i * msPerWeek |}.

Definition calculateWeeklyMetrics (now : Z) (transactions : list Transaction)
    : list WeekMetrics :=
  map (weekMetrics now transactions) (seq 0 8).

Definition weeklyAverageFlow (now : Z) (transactions : list Transaction) : jsnum :=
  let weeklyData := calculateWeeklyMetrics now transactions in
  fdiv (fold_left (fun sum week => fadd sum (w_netFlow week)) weeklyData (jofZ 0))
       (jlength weeklyData).

Definition positiveWeeks (now : Z) (transactions : list Transaction) : nat :=
  length (List.filter (fun week => jgt (w_netFlow week) (jofZ 0))
                      (calculateWeeklyMetrics now transactions)).

Definition totalWeeks (now : Z) (transactions : list Transaction) : nat :=
  length (calculateWeeklyMetrics now transactions).

(** Whether a transaction is dated in the eight weeks that end at [now],
    [now] itself left out. *)
Definition inLastEightWeeks (now : Z) (t : Transaction) : bool :=
  let transactionDate := parseDate (tx_date t) in
  dateGe transactionDate (now - 8 * msPerWeek) && dateLt transactionDate now.

End Figures.

End CashFlowMetrics.

(** An income of the sixth week back and an expense of the second. *)
Definition flowTransactions : list Transaction :=
  [exampleTx "2025-02-20T10:00:00.000Z" "400" income;
   exampleTx "2025-03-20T10:00:00.000Z" "1200" expense].

(** * Properties *)

(** ** Facts about numbers *)

Lemma Qc_compare_refl (x : Qc) : (x ?= x)%Qc = Eq.
Proof. by apply Qceq_alt. Qed.

Lemma Qc_compare_antisym (x y : Qc) : (y ?= x)%Qc = CompOpp (x ?= y)%Qc.
Proof. unfold Qccompare. symmetry. apply Qcompare_antisym. Qed.

Lemma jcmp_antisym a b : jcmp b a = option_map CompOpp (jcmp a b).
Proof.
  destruct a, b; simpl; try reflexivity.
  f_equal. apply Qc_compare_antisym.
Qed.

Lemma jcmp_Eq a b : jcmp a b = Some Eq -> a = b.
Proof.
  destruct a, b; simpl; intros E; try discriminate; try reflexivity.
  injection E as E. apply Qceq_alt in E. by subst.
Qed.

Lemma jcmp_refl a : a <> NaN -> jcmp a a = Some Eq.
Proof. destruct a; simpl; try congruence. intros _. by rewrite Qc_compare_refl. Qed.

Lemma jlt_irrefl a : jlt a a = false.
Proof.
  unfold jlt. destruct a; simpl; try reflexivity. by rewrite Qc_compare_refl.
Qed.

Lemma jlt_asym a b : jlt a b = true -> jlt b a = false.
Proof.
  unfold jlt. rewrite (jcmp_antisym a b).
  destruct (jcmp a b) as [[]|]; simpl; congruence.
Qed.

Lemma jle_not_NaN a b : jle a b = true -> a <> NaN /\ b <> NaN.
Proof. destruct a, b; simpl; try discriminate; split; congruence. Qed.

Lemma jle_antisym a b : jle a b = true -> jle b a = true -> a = b.
Proof.
  unfold jle. rewrite (jcmp_antisym a b).
  destruct (jcmp a b) as [[]|] eqn:E; simpl; try discriminate.
  intros _ _. by apply jcmp_Eq.
Qed.

Lemma jlt_jle a b : jlt a b = true -> jle a b = true.
Proof. unfold jlt, jle. by destruct (jcmp a b) as [[]|]. Qed.

Lemma jge_false_jlt a b : a <> NaN -> b <> NaN -> jge a b = false <-> jlt a b = true.
Proof.
  unfold jge, jle, jlt. rewrite (jcmp_antisym a b).
  destruct a, b; simpl; try congruence; try (intros; split; congruence).
  intros _ _. destruct (q ?= q0)%Qc; simpl; split; congruence.
Qed.

Lemma jcmp_trans a b c o :
  jcmp a b = Some o -> jcmp b c = Some o -> jcmp a c = Some o.
Proof.
  destruct a, b, c; simpl; try congruence.
  intros [= E1] [= E2]. f_equal. destruct o.
  - apply Qceq_alt in E1, E2. apply Qceq_alt. congruence.
  - apply Qclt_alt in E1, E2. apply Qclt_alt. by eapply Qclt_trans.
  - apply Qcgt_alt in E1, E2. apply Qcgt_alt. by eapply Qclt_trans.
Qed.

Lemma jle_trans a b c : jle a b = true -> jle b c = true -> jle a c = true.
Proof.
  unfold jle.
  destruct (jcmp a b) as [[]|] eqn:E1; try discriminate;
  destruct (jcmp b c) as [[]|] eqn:E2; try discriminate; intros _ _.
  - by rewrite (jcmp_trans _ _ _ _ E1 E2).
  - apply jcmp_Eq in E1. subst. by rewrite E2.
  - apply jcmp_Eq in E2. subst. by rewrite E1.
  - by rewrite (jcmp_trans _ _ _ _ E1 E2).
Qed.

Lemma jeqb_eq (a b : jsnum) : jeqb a b = true -> a = b.
Proof.
  destruct a, b; simpl; try done.
  intros E%Qeq_bool_eq. f_equal. by apply Qc_is_canon.
Qed.

Lemma jeqb_neq (a b : jsnum) : jeqb a b = false -> a <> b.
Proof.
  intros E ->. destruct b; simpl in E; try done.
  by rewrite Qeq_bool_refl in E.
Qed.

(** ** The chart value scaler *)

Lemma jmax2_le_l a m : jle a m = true -> jmax2 m a = m.
Proof.
  unfold jmax2, jle. rewrite (jcmp_antisym a m).
  by destruct (jcmp a m) as [[]|].
Qed.

Lemma jmax2_le_r a m : jle a m = true -> jmax2 a m = m.
Proof.
  unfold jmax2, jle. destruct (jcmp a m) as [[]|] eqn:E; try done.
  intros _. by apply jcmp_Eq.
Qed.

Lemma jmax2_bound a b m :
  jle a m = true -> jle b m = true -> jle (jmax2 a b) m = true.
Proof. unfold jmax2. intros Ha Hb. by destruct (jcmp a b) as [[]|] eqn:E;
  [ | | | destruct a, b; simpl in *; congruence ]. Qed.

Lemma fold_max_reaches (l : list jsnum) (acc m : jsnum) :
  jle acc m = true ->
  (forall x, In x l -> jle x m = true) ->
  acc = m \/ In m l ->
  fold_left jmax2 l acc = m.
Proof.
  revert acc. induction l as [|x l IH]; intros acc Hacc Hall Hin; simpl.
  - destruct Hin as [->|[]]. reflexivity.
  - assert (Hx : jle x m = true) by (apply Hall; by left).
    apply IH.
    + by apply jmax2_bound.
    + intros y Hy. apply Hall. by right.
    + destruct Hin as [->|[->|Hin]].
      * left. by apply jmax2_le_l.
      * left. by apply jmax2_le_r.
      * by right.
Qed.

Lemma Math_max_IsMaxAbs values m :
  IsMaxAbs values m -> Math_max (map jabs values) = m.
Proof.
  intros [(v & Hv & ->) Hall]. unfold Math_max.
  apply fold_max_reaches.
  - specialize (Hall v Hv). destruct (jabs v); try reflexivity; discriminate.
  - intros x (y & <- & Hy)%in_map_iff. by apply Hall.
  - right. by apply in_map.
Qed.

Lemma IsMaxAbs_not_NaN values m : IsMaxAbs values m -> m <> NaN.
Proof.
  intros [(v & Hv & ->) Hall]. specialize (Hall v Hv).
  by apply jle_not_NaN in Hall as [? _].
Qed.

Lemma jle_refl a : a <> NaN -> jle a a = true.
Proof. intros Ha. unfold jle. by rewrite (jcmp_refl a Ha). Qed.

Lemma jle_total a b : a <> NaN -> b <> NaN -> jle a b = true \/ jle b a = true.
Proof.
  intros Ha Hb. unfold jle. rewrite (jcmp_antisym a b).
  destruct a, b; simpl; try congruence; auto.
  destruct (q ?= q0)%Qc; simpl; auto.
Qed.

Lemma jabs_not_NaN a : a <> NaN -> jabs a <> NaN.
Proof. by destruct a. Qed.

(** A non-empty series without [NaN] has a largest magnitude. *)
Lemma IsMaxAbs_exists (values : list jsnum) :
  values <> [] -> (forall v, In v values -> v <> NaN) ->
  exists m, IsMaxAbs values m.
Proof.
  induction values as [|x l IH]; [done|]. intros _ Hnan.
  assert (Hx : jabs x <> NaN) by (apply jabs_not_NaN, Hnan; by left).
  destruct l as [|y l].
  - exists (jabs x). split.
    + exists x. split; [by left|done].
    + intros v [<-|[]]. by apply jle_refl.
  - destruct IH as (m & (v & Hv & ->) & Hall); [done|intros; apply Hnan; by right|].
    assert (Hm : jabs v <> NaN) by (apply jabs_not_NaN, Hnan; by right).
    destruct (jle_total (jabs x) (jabs v) Hx Hm) as [Hle|Hle].
    + exists (jabs v). split.
      * exists v. split; [by right|done].
      * intros w [<-|Hw]; [done|by apply Hall].
    + exists (jabs x). split.
      * exists x. split; [by left|done].
      * intros w [<-|Hw]; [by apply jle_refl|].
        eapply jle_trans; [by apply Hall|done].
Qed.

Lemma jmax2_NaN_l a : jmax2 NaN a = NaN.
Proof. reflexivity. Qed.

Lemma jmax2_NaN_r a : jmax2 a NaN = NaN.
Proof. by destruct a. Qed.

Lemma fold_max_NaN (l : list jsnum) (acc : jsnum) :
  acc = NaN \/ In NaN l -> fold_left jmax2 l acc = NaN.
Proof.
  revert acc. induction l as [|x l IH]; intros acc H.
  - by destruct H as [->|[]].
  - cbn [fold_left]. apply IH. destruct H as [->|[->|H]].
    + by left.
    + left. apply jmax2_NaN_r.
    + by right.
Qed.

(** A series with a [NaN] in it gets units: its maximum is [NaN]. *)
Lemma determineScale_NaN (values : list jsnum) :
  In NaN values -> determineScale values = Units.
Proof.
  intros Hin. unfold determineScale, Math_max.
  rewrite fold_max_NaN; [done|]. right.
  change NaN with (jabs NaN). by apply in_map.
Qed.

(** C8. [determineScale] answers millions exactly when the largest
    magnitude of the series is at least 1,000,000, thousands exactly when
    it is at least 1,000 and below 1,000,000, and units otherwise; the
    empty series gets units.  Every other series of numbers has such a
    largest magnitude. *)
Theorem determineScale_by_maximum :
  determineScale [] = Units /\
  (forall values, values <> [] -> (forall v, In v values -> v <> NaN) ->
                  exists m, IsMaxAbs values m) /\
  forall values m, IsMaxAbs values m ->
    (determineScale values = Millions <-> jge m (jofZ 1000000) = true) /\
    (determineScale values = Thousands <->
       jge m (jofZ 1000) = true /\ jlt m (jofZ 1000000) = true) /\
    (determineScale values = Units <-> jlt m (jofZ 1000) = true).
Proof.
  split; [reflexivity|]. split; [apply IsMaxAbs_exists|].
  intros values m Hm. unfold determineScale.
  rewrite (Math_max_IsMaxAbs _ _ Hm).
  pose proof (IsMaxAbs_not_NaN _ _ Hm) as Hnan.
  assert (Hk : jle (jofZ 1000) (jofZ 1000000) = true) by reflexivity.
  pose proof (jge_false_jlt m (jofZ 1000000) Hnan ltac:(discriminate)) as H6.
  pose proof (jge_false_jlt m (jofZ 1000) Hnan ltac:(discriminate)) as H3.
  destruct (jge m (jofZ 1000000)) eqn:E6.
  - assert (E3 : jge m (jofZ 1000) = true) by (unfold jge in *; by eapply jle_trans).
    rewrite E3. split; [done|]. split.
    + split; [done|]. intros [_ Hlt]. apply (proj2 H6) in Hlt. congruence.
    + split; [done|]. intros Hlt. apply (proj2 H3) in Hlt. congruence.
  - destruct (jge m (jofZ 1000)) eqn:E3.
    + split; [done|]. split.
      * split; [|done]. intros _. split; [done|]. by apply H6.
      * split; [done|]. intros Hlt. apply (proj2 H3) in Hlt. congruence.
    + split; [done|]. split.
      * split; [done|]. by intros [? _].
      * split; [|done]. intros _. by apply H3.
Qed.

Lemma determineScale_by_maximum_witness :
  determineScale [jofZ 5; jofZ (-2000000)] = Millions.
Proof.
  apply (proj2 (proj2 determineScale_by_maximum)
           [jofZ 5; jofZ (-2000000)] (jofZ 2000000)).
  - split.
    + exists (jofZ (-2000000)). split; [right; left; reflexivity|].
      unfold jofZ, jabs. f_equal. apply Qc_is_canon. reflexivity.
    + intros v [<-|[<-|[]]]; reflexivity.
  - reflexivity.
Defined.

(** ** The insight generator *)

Section Insights.
Context {RT : Runtime}.

Lemma detectCashFlowTrends_last3 (pre : list CashFlowProjection) (x y z : CashFlowProjection) :
  let a := parseFloatU (netFlow x) in
  let b := parseFloatU (netFlow y) in
  let c := parseFloatU (netFlow z) in
  detectCashFlowTrends (pre ++ [x; y; z]) =
    if jlt b a && jlt c b then [trendDecreasing]
    else if jgt b a && jgt c b then [trendIncreasing]
    else [].
Proof.
  intros a b c. unfold detectCashFlowTrends.
  assert (Hlen : (length (pre ++ [x; y; z]) <? 3)%nat = false).
  { apply Nat.ltb_ge. rewrite length_app. simpl. lia. }
  rewrite Hlen. unfold slice_last.
  rewrite map_app.
  replace (length (map (fun d => parseFloatU (netFlow d)) pre
                   ++ map (fun d => parseFloatU (netFlow d)) [x; y; z]) - 3)%nat
    with (length (map (fun d => parseFloatU (netFlow d)) pre))
    by (rewrite length_app; simpl; lia).
  rewrite drop_app_length. simpl.
  fold a b c. unfold every. simpl. unfold at_index. simpl.
  rewrite !andb_true_r. reflexivity.
Qed.

(** C9. On a series of at least three entries the trend rule emits the
    high-priority alert exactly when the net flows of the last three
    buckets are strictly decreasing, and the medium-priority opportunity
    exactly when they are strictly increasing; a shorter series gets no
    insight. *)
Theorem detectCashFlowTrends_rule :
  (forall data : list CashFlowProjection,
      (length data < 3)%nat -> detectCashFlowTrends data = []) /\
  (forall (pre : list CashFlowProjection) (x y z : CashFlowProjection),
      let a := parseFloatU (netFlow x) in
      let b := parseFloatU (netFlow y) in
      let c := parseFloatU (netFlow z) in
      let out := detectCashFlowTrends (pre ++ [x; y; z]) in
      ((exists i, In i out /\ insight_type i = alert /\ priority i = prio_high)
         <-> jlt b a = true /\ jlt c b = true) /\
      ((exists i, In i out /\ insight_type i = opportunity /\ priority i = prio_medium)
         <-> jgt b a = true /\ jgt c b = true) /\
      (forall i, In i out -> i = trendDecreasing \/ i = trendIncreasing)).
Proof.
  split.
  - intros data Hlen. unfold detectCashFlowTrends.
    apply Nat.ltb_lt in Hlen. by rewrite Hlen.
  - intros pre x y z a b c out. subst out.
    rewrite detectCashFlowTrends_last3. fold a b c.
    destruct (jlt b a) eqn:Eba; simpl.
    + destruct (jlt c b) eqn:Ecb; simpl.
      * split; [|split].
        -- split; [done|]. intros _. exists trendDecreasing. by repeat split; [left|..].
        -- split; [|intros [Hgt _]; unfold jgt in Hgt; apply jlt_asym in Hgt; congruence].
           by intros (i & [<-|[]] & Hty & _).
        -- intros i [<-|[]]. by left.
      * unfold jgt. rewrite (jlt_asym _ _ Eba). simpl. split; [|split].
        -- split; [by intros (i & [] & _)|by intros [_ ?]].
        -- split; [by intros (i & [] & _)|by intros [? _]].
        -- by intros i [].
    + destruct (jgt b a && jgt c b) eqn:Einc.
      * apply andb_true_iff in Einc as [E1 E2]. split; [|split].
        -- split; [|by intros [? _]]. by intros (i & [<-|[]] & Hty & _).
        -- split; [done|]. intros _. exists trendIncreasing. by repeat split; [left|..].
        -- intros i [<-|[]]. by right.
      * split; [|split].
        -- split; [by intros (i & [] & _)|by intros [? _]].
        -- split; [by intros (i & [] & _)|].
           intros [E1 E2]. rewrite E1, E2 in Einc. discriminate.
        -- by intros i [].
Qed.

End Insights.

Lemma detectCashFlowTrends_rule_witness :
  detectCashFlowTrends (RT := Ref.refRuntime) [] = [].
Proof.
  apply (proj1 (detectCashFlowTrends_rule (RT := Ref.refRuntime))). simpl. lia.
Defined.

(** ** The currency conversion service *)

Lemma jsgn_nonzero (r : Qc) : r <> 0%Qc -> jsgn r <> Eq.
Proof. unfold jsgn. intros Hr E. apply Qceq_alt in E. contradiction. Qed.

Lemma jtruthy_Fin (r : Qc) : r <> 0%Qc -> jtruthy (Fin r) = true.
Proof. intros Hr%jsgn_nonzero. simpl. by destruct (jsgn r). Qed.

Lemma jdiv_Fin (a r : Qc) : r <> 0%Qc -> jdiv (Fin a) (Fin r) = Fin (a / r)%Qc.
Proof. intros Hr%jsgn_nonzero. simpl. by destruct (jsgn r). Qed.

Lemma Qcabs_idemp (a : Qc) : Qcabs (Qcabs a) = Qcabs a.
Proof. apply Qcabs_pos, Qcabs_nonneg. Qed.

Lemma Qcabs_div_abs (a r : Qc) : Qcabs (Qcabs a / r) = Qcabs (a / r).
Proof. unfold Qcdiv. by rewrite !Qcabs_Qcmult, Qcabs_idemp. Qed.

Lemma jabs_div_abs (a : Qc) (r : jsnum) :
  jabs (jdiv (Fin (Qcabs a)) r) = jabs (jdiv (Fin a) r).
Proof.
  destruct r as [| | |r]; simpl; try reflexivity.
  destruct (jsgn r) eqn:Er.
  - unfold jsgn. destruct (Qcabs a ?= 0)%Qc eqn:E1, (a ?= 0)%Qc eqn:E2;
      try reflexivity; exfalso.
    + apply Qceq_alt, Qcabs_null in E1. apply Qclt_alt in E2. subst a.
      by apply (Qcle_not_lt 0 0).
    + apply Qceq_alt, Qcabs_null in E1. apply Qcgt_alt in E2. subst a.
      by apply (Qcle_not_lt 0 0).
    + apply Qclt_alt in E1. by apply (Qcle_not_lt _ _ (Qcabs_nonneg a)).
    + apply Qceq_alt in E2. apply Qcgt_alt in E1. subst a.
      rewrite Qcabs_pos in E1 by done. by apply (Qcle_not_lt 0 0).
  - simpl. f_equal. apply Qcabs_div_abs.
  - simpl. f_equal. apply Qcabs_div_abs.
Qed.

Section Currency.
Context {RT : Runtime}.

(** Over exact rationals, converting a finite amount from ARS to USD and
    back, at a fixed finite non-zero rate, gives the amount back. *)
Theorem convertAmount_round_trip (st : CurrencyState) (a r : Qc) :
  exchangeRate st = Some (Fin r) -> r <> 0%Qc ->
  convertAmount st (Num (convertAmount st (Num (Fin a)) ARS USD)) USD ARS = Fin a.
Proof.
  intros Hrate Hr. unfold convertAmount. rewrite Hrate.
  change (rateTruthy (Some (Fin r))) with (jtruthy (Fin r)).
  change (rateValue (Some (Fin r))) with (Fin r).
  rewrite (jtruthy_Fin r Hr). cbn [toNumeric isNaN Currency_eqb negb orb andb].
  rewrite (jdiv_Fin a r Hr). cbn [isNaN jmul]. f_equal. by field.
Qed.

(** C7. Input that does not read as a number never raises (both
    functions are total): [convertAmount] gives the number 0 and
    [formatAmount] the string "0". *)
Theorem malformed_amount_degrades (st : CurrencyState) (amount : StringOrNumber) :
  isNaN (toNumeric amount) = true ->
  (forall fromCurrency toCurrency,
      convertAmount st amount fromCurrency toCurrency = jofZ 0) /\
  (forall showSymbol, formatAmount st amount showSymbol = "0"%string).
Proof.
  intros Hnan. split.
  - intros f t. unfold convertAmount. by rewrite Hnan.
  - intros s. unfold formatAmount. by rewrite Hnan.
Qed.

(** C10. A finite amount is formatted like its absolute value: the sign
    of a negative amount does not reach the output. *)
Theorem formatAmount_drops_sign (st : CurrencyState) (a : Qc) (showSymbol : bool) :
  (a < 0)%Qc ->
  formatAmount st (Num (Fin a)) showSymbol
  = formatAmount st (Num (Fin (Qcabs a))) showSymbol.
Proof.
  intros _. unfold formatAmount. simpl toNumeric. simpl isNaN. cbv iota.
  destruct (Currency_eqb (currency st) USD && rateTruthy (exchangeRate st)).
  - by rewrite jabs_div_abs.
  - simpl. by rewrite Qcabs_idemp.
Qed.

End Currency.


Lemma convertAmount_round_trip_witness :
  convertAmount (RT := Ref.refRuntime) initialCurrencyState
    (Num (convertAmount (RT := Ref.refRuntime) initialCurrencyState
            (Num (Fin (Qc_of_Z 2540))) ARS USD)) USD ARS
  = Fin (Qc_of_Z 2540).
Proof.
  apply (convertAmount_round_trip (RT := Ref.refRuntime) initialCurrencyState
           (Qc_of_Z 2540) (Qc_of_Z 1270)).
  - reflexivity.
  - discriminate.
Defined.

Lemma malformed_amount_degrades_witness :
  convertAmount (RT := Ref.refRuntime) initialCurrencyState (Str "abc") ARS USD = jofZ 0
  /\ formatAmount (RT := Ref.refRuntime) initialCurrencyState (Str "abc") true = "0"%string.
Proof.
  destruct (malformed_amount_degrades (RT := Ref.refRuntime)
              initialCurrencyState (Str "abc")) as [Hc Hf].
  - reflexivity.
  - split; [apply Hc | apply Hf].
Defined.

Lemma formatAmount_negative_example :
  formatAmount (RT := Ref.refRuntime) initialCurrencyState (Str "-1500.4") true
  = "$1.500 ARS"%string.
Proof. by vm_compute. Qed.

Lemma formatAmount_drops_sign_witness :
  formatAmount (RT := Ref.refRuntime) usdState (Num (Fin (Qc_of_Z (-1500)))) true
  = formatAmount (RT := Ref.refRuntime) usdState
      (Num (Fin (Qcabs (Qc_of_Z (-1500))))) true.
Proof.
  apply (formatAmount_drops_sign (RT := Ref.refRuntime)). reflexivity.
Defined.

(** ** The projection metrics *)

Lemma jadd_0_r (x : jsnum) : jadd x (jofZ 0) = x.
Proof.
  destruct x; simpl; try reflexivity. f_equal.
  rewrite Z2Qc_inj_0. ring.
Qed.

Lemma jadd_0_l (x : jsnum) : jadd (jofZ 0) x = x.
Proof.
  destruct x; simpl; try reflexivity. f_equal.
  rewrite Z2Qc_inj_0. ring.
Qed.

Lemma jmul_1_r (x : jsnum) : jmul x (jofZ 1) = x.
Proof.
  destruct x; simpl; try reflexivity. f_equal.
  rewrite Z2Qc_inj_1. ring.
Qed.

Lemma jofZ_1_plus_0 : jadd (jofZ 1) (jdiv (jofZ 0) (jofZ 100)) = jofZ 1.
Proof. unfold jofZ. simpl. f_equal. apply Qc_is_canon. reflexivity. Qed.

Lemma jofZ_1_minus_0 : jsub (jofZ 1) (jdiv (jofZ 0) (jofZ 100)) = jofZ 1.
Proof. unfold jofZ. simpl. f_equal. apply Qc_is_canon. reflexivity. Qed.

Lemma jofZ_1_plus_0_12 :
  jadd (jofZ 1) (jdiv (jdiv (jofZ 0) (jofZ 100)) (jofZ 12)) = jofZ 1.
Proof. unfold jofZ. simpl. f_equal. apply Qc_is_canon. reflexivity. Qed.

Lemma jor_else_0 : jor_else (jofZ 0) (jofZ 0) = jofZ 0.
Proof. reflexivity. Qed.

Lemma mapi_from_lookup {A B} (f : A -> nat -> B) (k : nat) (l : list A) (i : nat) :
  mapi_from f k l !! i = (fun x => f x (k + i)%nat) <$> (l !! i).
Proof.
  revert k i. induction l as [|x l IH]; intros k i; [done|].
  destruct i as [|i]; simpl.
  - by rewrite Nat.add_0_r.
  - rewrite IH. by replace (S k + i)%nat with (k + S i)%nat by lia.
Qed.

Lemma jlt_trans a b c : jlt a b = true -> jlt b c = true -> jlt a c = true.
Proof.
  unfold jlt.
  destruct (jcmp a b) as [[]|] eqn:E1; try discriminate;
  destruct (jcmp b c) as [[]|] eqn:E2; try discriminate; intros _ _.
  by rewrite (jcmp_trans _ _ _ _ E1 E2).
Qed.

Lemma six_not_below_two (avg net : jsnum) :
  jle (jofZ 0) avg = true ->
  jlt net (avg * jofZ 2)%js = true ->
  jgt net (avg * jofZ 6)%js = true -> False.
Proof.
  intros H0 H2 H6. unfold jgt in H6.
  pose proof (jlt_trans _ _ _ H6 H2) as H.
  destruct avg as [| | |q]; try discriminate.
  unfold jlt, jle in *. simpl in H, H0.
  destruct (Qc_of_Z 0 ?= q)%Qc eqn:E0; try discriminate;
  destruct (q * Qc_of_Z 6 ?= q * Qc_of_Z 2)%Qc eqn:E; try discriminate.
  all: apply Qclt_alt in E.
  all: assert (Hq : (0 <= q)%Qc)
    by (rewrite <- Z2Qc_inj_0; apply Qcle_alt; rewrite E0; discriminate).
  all: apply (Qcle_not_lt (q * Qc_of_Z 2) (q * Qc_of_Z 6)); [|done].
  all: rewrite !(Qcmult_comm q); apply Qcmult_le_compat_r; [|done].
  all: by apply Z2Qc_inj_le.
Qed.

Lemma risk_cases (worst net avgI : jsnum) :
  let r := if jlt worst (jofZ 0) && jlt net (avgI * jofZ 2)%js then high
           else if jgt net (avgI * jofZ 6)%js then low else medium in
  let worstNegative := jlt worst (jofZ 0) = true in
  let belowTwice := jlt net (avgI * jofZ 2)%js = true in
  let aboveSixTimes := jgt net (avgI * jofZ 6)%js = true in
  (r = high <-> worstNegative /\ belowTwice) /\
  (r = low <-> ~ (worstNegative /\ belowTwice) /\ aboveSixTimes) /\
  (r = medium <-> ~ (worstNegative /\ belowTwice) /\ ~ aboveSixTimes) /\
  (jle (jofZ 0) avgI = true -> (r = low <-> aboveSixTimes)) /\
  (worst = jofZ 0 -> jge net (avgI * jofZ 2)%js = true -> r <> high).
Proof.
  cbn zeta.
  pose proof (six_not_below_two avgI net) as Hex.
  assert (Hw0 : worst = jofZ 0 -> jlt worst (jofZ 0) = false)
    by (intros ->; reflexivity).
  destruct (jlt worst (jofZ 0)) eqn:Ew,
           (jlt net (avgI * jofZ 2)%js) eqn:E2,
           (jgt net (avgI * jofZ 6)%js) eqn:E6; cbn [andb];
    intuition (try congruence).
Qed.

Section Metrics.
Context {RT : Runtime}.

Lemma fold_left_sum_map {A} (f : A -> jsnum) (l : list A) (acc : jsnum) :
  fold_left (fun sum item => jadd sum (f item)) l acc
  = fold_left jadd (map f l) acc.
Proof. revert acc. induction l as [|x l IH]; intros acc; simpl; [done|apply IH]. Qed.

Lemma sumField_jsum (field : CashFlowProjection -> option string)
    (data : list CashFlowProjection) :
  sumField field data = jsum (map (readingOr0 field) data).
Proof. unfold sumField, jsum. apply (fold_left_sum_map (readingOr0 field)). Qed.

Lemma historicalAverages_typed (first : CashFlowProjection)
    (rest : list CashFlowProjection) :
  projectedIncome first <> None ->
  historicalAverages (first :: rest)
  = (averageOf projectedIncome (first :: rest),
     averageOf projectedExpenses (first :: rest)).
Proof.
  intros Hdef. unfold historicalAverages, averageOf.
  destruct (projectedIncome first); [|done].
  by rewrite !sumField_jsum.
Qed.

(** C1. The risk level is high exactly when the worst case is negative
    and the net projected flow is below twice the average income; failing
    that, low exactly when the net flow exceeds six times the average
    income; medium otherwise.  With a non-negative average income the two
    tests exclude one another, so that low is then exactly the second
    test.  A worst case of exactly 0 is never high. *)
Theorem riskLevel_rule (data : list CashFlowProjection) (scenario : Scenario)
    (months : jsnum) :
  data <> [] ->
  let m := calculateProjectionMetrics data scenario months in
  let avgIncome := (historicalAverages data).1 in
  let worstNegative := jlt (worstCaseScenario m) (jofZ 0) = true in
  let belowTwice := jlt (netProjectedFlow m) (avgIncome * jofZ 2)%js = true in
  let aboveSixTimes := jgt (netProjectedFlow m) (avgIncome * jofZ 6)%js = true in
  (riskLevel m = high <-> worstNegative /\ belowTwice) /\
  (riskLevel m = low <-> ~ (worstNegative /\ belowTwice) /\ aboveSixTimes) /\
  (riskLevel m = medium <-> ~ (worstNegative /\ belowTwice) /\ ~ aboveSixTimes) /\
  (jle (jofZ 0) avgIncome = true -> (riskLevel m = low <-> aboveSixTimes)) /\
  (worstCaseScenario m = jofZ 0 ->
   jge (netProjectedFlow m) (avgIncome * jofZ 2)%js = true ->
   riskLevel m <> high).
Proof.
  intros Hne. destruct data as [|first rest]; [done|]. clear Hne.
  unfold calculateProjectionMetrics.
  destruct (historicalAverages (first :: rest)) as [avgI avgE]. cbn zeta.
  cbn [riskLevel worstCaseScenario netProjectedFlow fst].
  apply risk_cases.
Qed.

(** C4. With income and expense fields present, the projected monthly
    income is the historical average income times (1 + incomeGrowth/100)
    times (1 + marketGrowth/100), and the projected monthly expenses the
    historical average expenses times (1 - expenseReduction/100) times
    (1 + inflationRate/100/12); the totals add the one-time amounts once,
    and the per-bucket modification adds them to the first bucket only.
    The scenario that changes nothing gives back the historical
    averages. *)
Theorem scenario_application (data : list CashFlowProjection)
    (first : CashFlowProjection) (rest : list CashFlowProjection)
    (scenario : Scenario) (months : jsnum) :
  data = first :: rest ->
  projectedIncome first <> None ->
  let m := calculateProjectionMetrics data scenario months in
  let avgIncome := averageOf projectedIncome data in
  let avgExpenses := averageOf projectedExpenses data in
  let monthlyIncome :=
    (avgIncome * (jofZ 1 + incomeGrowth scenario / jofZ 100)
               * (jofZ 1 + numOr0 (marketGrowth scenario) / jofZ 100))%js in
  let monthlyExpenses :=
    (avgExpenses * (jofZ 1 - expenseReduction scenario / jofZ 100)
       * (jofZ 1 + numOr0 (inflationRate scenario) / jofZ 100 / jofZ 12))%js in
  (averageMonthlyFlow m = (monthlyIncome - monthlyExpenses)%js /\
   totalProjectedIncome m
     = (monthlyIncome * months + jor_else (oneTimeIncome scenario) (jofZ 0))%js /\
   totalProjectedExpenses m
     = (monthlyExpenses * months + jor_else (oneTimeExpense scenario) (jofZ 0))%js) /\
  (forall (i : nat) (item : CashFlowProjection),
      data !! i = Some item ->
      exists out,
        calculateModifiedData data scenario !! i = Some out /\
        projectedIncome out = Some (numberToString
          (let modified := (parseFloatU (projectedIncome item)
                            * (jofZ 1 + incomeGrowth scenario / jofZ 100))%js in
           if decide (i = 0%nat) then (modified + oneTimeIncome scenario)%js
           else modified)) /\
        projectedExpenses out = Some (numberToString
          (let modified := (parseFloatU (projectedExpenses item)
                            * (jofZ 1 - expenseReduction scenario / jofZ 100))%js in
           if decide (i = 0%nat) then (modified + oneTimeExpense scenario)%js
           else modified))) /\
  (IdentityScenario scenario ->
   averageMonthlyFlow m = (avgIncome - avgExpenses)%js /\
   totalProjectedIncome m = (avgIncome * months)%js /\
   totalProjectedExpenses m = (avgExpenses * months)%js /\
   forall (i : nat) (item : CashFlowProjection),
     data !! i = Some item ->
     exists out,
       calculateModifiedData data scenario !! i = Some out /\
       projectedIncome out
         = Some (numberToString (parseFloatU (projectedIncome item))) /\
       projectedExpenses out
         = Some (numberToString (parseFloatU (projectedExpenses item)))).
Proof.
  intros -> Hdef m avgIncome avgExpenses monthlyIncome monthlyExpenses.
  assert (Hm : (averageMonthlyFlow m = (monthlyIncome - monthlyExpenses)%js /\
   totalProjectedIncome m
     = (monthlyIncome * months + jor_else (oneTimeIncome scenario) (jofZ 0))%js /\
   totalProjectedExpenses m
     = (monthlyExpenses * months + jor_else (oneTimeExpense scenario) (jofZ 0))%js)).
  { subst m. unfold calculateProjectionMetrics.
    rewrite (historicalAverages_typed first rest Hdef). done. }
  assert (Hbucket : forall (i : nat) (item : CashFlowProjection),
      (first :: rest) !! i = Some item ->
      calculateModifiedData (first :: rest) scenario !! i
      = Some (modifyItem scenario item i)).
  { intros i item Hi. unfold calculateModifiedData.
    by rewrite mapi_from_lookup, Hi. }
  split; [exact Hm|]. split.
  - intros i item Hi. eexists. split; [by apply Hbucket|].
    unfold modifyItem. cbn [projectedIncome projectedExpenses].
    destruct i as [|i]; by rewrite ?decide_True, ?decide_False by done.
  - intros (Hg & Hr & Hmk & Hinf & Hoi & Hoe).
    destruct Hm as (Hflow & Hti & Hte).
    assert (HI : monthlyIncome = avgIncome).
    { subst monthlyIncome. rewrite Hg, Hmk, jofZ_1_plus_0. by rewrite !jmul_1_r. }
    assert (HE : monthlyExpenses = avgExpenses).
    { subst monthlyExpenses.
      rewrite Hr, Hinf, jofZ_1_minus_0, jofZ_1_plus_0_12. by rewrite !jmul_1_r. }
    rewrite Hflow, Hti, Hte, HI, HE, Hoi, Hoe, jor_else_0, !jadd_0_r.
    repeat split.
    intros i item Hi. eexists. split; [by apply Hbucket|].
    unfold modifyItem. cbn [projectedIncome projectedExpenses].
    rewrite Hg, Hr, Hoi, Hoe, jofZ_1_plus_0, jofZ_1_minus_0, !jmul_1_r.
    destruct (i =? 0)%nat; by rewrite ?jadd_0_r.
Qed.

End Metrics.


Lemma riskLevel_rule_witness :
  riskLevel (calculateProjectionMetrics (RT := Ref.refRuntime)
               [bucket "1000" "400" "600"] baseScenario (jofZ 6)) = medium.
Proof.
  apply (riskLevel_rule (RT := Ref.refRuntime)
           [bucket "1000" "400" "600"] baseScenario (jofZ 6)).
  - discriminate.
  - split.
    + intros [_ Hb]. vm_compute in Hb. discriminate.
    + intros Hs. vm_compute in Hs. discriminate.
Defined.

Lemma scenario_application_witness :
  averageMonthlyFlow (calculateProjectionMetrics (RT := Ref.refRuntime)
                        [bucket "1000" "400" "600"] baseScenario (jofZ 6))
  = (averageOf (RT := Ref.refRuntime) projectedIncome [bucket "1000" "400" "600"]
     - averageOf (RT := Ref.refRuntime) projectedExpenses [bucket "1000" "400" "600"])%js.
Proof.
  apply (scenario_application (RT := Ref.refRuntime)
           [bucket "1000" "400" "600"] (bucket "1000" "400" "600") []
           baseScenario (jofZ 6)).
  - reflexivity.
  - discriminate.
  - unfold IdentityScenario. repeat split; reflexivity.
Defined.

(** One bucket with income 1000 and expenses 400, under the scenario that
    changes nothing: a monthly net flow of 600. *)
Lemma identity_scenario_example :
  averageMonthlyFlow (calculateProjectionMetrics (RT := Ref.refRuntime)
                        [bucket "1000" "400" "600"] baseScenario (jofZ 1))
  = jofZ 600.
Proof. apply jeqb_eq. by vm_compute. Qed.


(** ** Sums of numbers *)

Lemma jadd_comm (a b : jsnum) : jadd a b = jadd b a.
Proof. destruct a, b; simpl; try reflexivity. f_equal. ring. Qed.

Lemma jadd_assoc (a b c : jsnum) : jadd a (jadd b c) = jadd (jadd a b) c.
Proof. destruct a, b, c; simpl; try reflexivity. f_equal. ring. Qed.

Lemma fold_jadd_acc (l : list jsnum) (acc : jsnum) :
  fold_left jadd l acc = jadd acc (jsum l).
Proof.
  unfold jsum. revert acc. induction l as [|x l IH]; intros acc; cbn [fold_left].
  - by rewrite jadd_0_r.
  - rewrite (IH (jadd acc x)), (IH (jadd (jofZ 0) x)), jadd_0_l.
    symmetry. apply jadd_assoc.
Qed.

Lemma jsum_nil : jsum [] = jofZ 0.
Proof. reflexivity. Qed.

Lemma jsum_cons (x : jsnum) (l : list jsnum) : jsum (x :: l) = jadd x (jsum l).
Proof. unfold jsum at 1. cbn [fold_left]. by rewrite fold_jadd_acc, jadd_0_l. Qed.


Lemma jsum_Permutation (l1 l2 : list jsnum) : l1 ≡ₚ l2 -> jsum l1 = jsum l2.
Proof.
  induction 1 as [|x l1 l2 _ IH|x y l|l1 l2 l3 _ IH1 _ IH2].
  - done.
  - by rewrite !jsum_cons, IH.
  - rewrite !jsum_cons, !jadd_assoc. by rewrite (jadd_comm y x).
  - by rewrite IH1.
Qed.

Lemma jsum_insert (l : list jsnum) (i : nat) (x a : jsnum) :
  l !! i = Some x -> jsum (<[i := jadd x a]> l) = jadd (jsum l) a.
Proof.
  revert i. induction l as [|y l IH]; intros i Hi; [done|].
  destruct i as [|i].
  - injection Hi as ->.
    change (<[0%nat := jadd x a]> (x :: l)) with (jadd x a :: l).
    rewrite !jsum_cons. by rewrite <- !jadd_assoc, (jadd_comm a).
  - change (<[S i := jadd x a]> (y :: l)) with (y :: <[i := jadd x a]> l).
    by rewrite !jsum_cons, (IH i Hi), jadd_assoc.
Qed.

Lemma jsum_pointwise {A} (f g : A -> jsnum) (l : list A) :
  jsum (map (fun i => jadd (f i) (g i)) l)
  = jadd (jsum (map f l)) (jsum (map g l)).
Proof.
  induction l as [|x l IH]; cbn [map].
  - by rewrite jsum_nil, jadd_0_l.
  - rewrite !jsum_cons, IH. rewrite <- !jadd_assoc. f_equal.
    rewrite !jadd_assoc. by rewrite (jadd_comm (g x)).
Qed.

Lemma jsum_zeros {A} (l : list A) : jsum (map (fun _ => jofZ 0) l) = jofZ 0.
Proof.
  induction l as [|x l IH]; [done|]. cbn [map]. by rewrite jsum_cons, IH, jadd_0_l.
Qed.

(** A sum in which only the entry of [i0] is not zero. *)
Lemma jsum_single {A} (c : A -> bool) (a : jsnum) (l : list A) (i0 : A) :
  NoDup l -> i0 ∈ l -> (forall i, i ∈ l -> c i = true <-> i = i0) ->
  jsum (map (fun i => if c i then a else jofZ 0) l) = a.
Proof.
  induction l as [|x l IH]; intros Hnd Hin Hc.
  - by apply elem_of_nil in Hin.
  - apply NoDup_cons in Hnd as [Hx Hnd]. cbn [map]. rewrite jsum_cons.
    apply elem_of_cons in Hin as [->|Hin].
    + rewrite (proj2 (Hc x ltac:(left))) by done.
      rewrite (map_ext_in _ (fun _ => jofZ 0)), jsum_zeros, jadd_0_r; [done|].
      intros i Hi%list_elem_of_In. destruct (c i) eqn:E; [|done].
      apply Hc in E; [|by right]. by subst.
    + destruct (c x) eqn:E.
      { apply Hc in E; [|by left]. by subst. }
      rewrite jadd_0_l. apply IH; [done..|].
      intros i Hi. apply Hc. by right.
Qed.

Lemma jsum_none {A} (c : A -> bool) (a : jsnum) (l : list A) :
  (forall i, i ∈ l -> c i = false) ->
  jsum (map (fun i => if c i then a else jofZ 0) l) = jofZ 0.
Proof.
  intros Hc. rewrite (map_ext_in _ (fun _ => jofZ 0)); [apply jsum_zeros|].
  intros i Hi%list_elem_of_In. by rewrite (Hc i Hi).
Qed.

(** ** Access to the per-user resources *)

Module ServerFacts.
Import Server ServerExamples.


Section Access.
Context {Data : Type} {B : Backend Data}.

(** C5, as the code has it for the notifications: no token is answered
    401, a token that does not verify 403, a verified token of another
    user 403, and a 200 answer carries the notifications of the user the
    verified token belongs to. *)
Theorem notifications_access (req : AuthRequest) :
  let resp := handleGet Notifications req in
  (bearerToken (authorization req) = None -> status resp = 401%nat) /\
  (forall token, bearerToken (authorization req) = Some token ->
                 verifyToken token = None -> status resp = 403%nat) /\
  (forall token payload,
      bearerToken (authorization req) = Some token ->
      verifyToken token = Some payload ->
      payload_userId payload <> param_userId req -> status resp = 403%nat) /\
  (status resp = 200%nat ->
   exists token payload d,
     bearerToken (authorization req) = Some token /\
     verifyToken token = Some payload /\
     payload_userId payload = param_userId req /\
     body resp = Json d /\
     getUserNotifications (param_userId req)
       (jor_else (parseInt (query_limit req)) (jofZ 20)) = Some d).
Proof.
  cbn zeta. unfold handleGet, via, authenticateToken.
  destruct (bearerToken (authorization req)) as [token|] eqn:Etok.
  - destruct (verifyToken token) as [payload|] eqn:Ever.
    + cbn [req_userId set_userId param_userId query_limit].
      destruct (decide (payload_userId payload = param_userId req)) as [Heq|Hne].
      * rewrite bool_decide_eq_true_2 by congruence. cbn [negb].
        repeat split; try done.
        -- intros t [= <-]. congruence.
        -- intros t p [= <-] Hp. congruence.
        -- intros Hok. exists token, payload.
           destruct (getUserNotifications _ _) as [d|] eqn:Eg; [|discriminate].
           exists d. done.
      * rewrite bool_decide_eq_false_2 by congruence. cbn [negb status].
        repeat split; try done.
    + repeat split; try done.
  - repeat split; try done.
Qed.

End Access.

(** C5 fails as stated: a token that does not verify is answered 403 on
    the notifications, not 401. *)
Lemma invalid_token_is_403 :
  bearerToken (Some "Bearer forged"%string) = Some "forged"%string /\
  @verifyToken _ rejectingBackend "forged" = None /\
  status (handleGet (B := rejectingBackend) Notifications
            (requestFor "u1" (Some "Bearer forged"%string))) <> 401%nat.
Proof. repeat split. vm_compute. discriminate. Qed.

Lemma notifications_access_witness :
  status (handleGet (B := rejectingBackend) Notifications (requestFor "u1" None))
  = 401%nat.
Proof.
  apply (notifications_access (B := rejectingBackend) (requestFor "u1" None)).
  reflexivity.
Defined.

(** The other per-user reads go through [optionalAuth], which lets every
    request pass: without a token they answer 200 with the user's data. *)
Lemma optionalAuth_reads_are_open :
  forall r, r <> Notifications ->
    status (handleGet (B := rejectingBackend) r (requestFor "u1" None)) = 200%nat /\
    body (handleGet (B := rejectingBackend) r (requestFor "u1" None)) = Json "u1"%string.
Proof. intros []; try done; intros _; split; reflexivity. Qed.

(** A verified token of another user is refused; the owner is served. *)
Lemma other_user_is_403 :
  status (handleGet (B := trustingBackend) Notifications
            (requestFor "u1" (Some "Bearer u2"%string))) = 403%nat.
Proof. reflexivity. Qed.

Lemma owner_gets_200 :
  handleGet (B := trustingBackend) Notifications
    (requestFor "u1" (Some "Bearer u1"%string))
  = {| status := 200; body := Json "u1"%string |}.
Proof. reflexivity. Qed.

End ServerFacts.

(** ** The calendar *)

Module CalendarFacts.
Import Calendar.

Ltac zdiv := Z.div_mod_to_equations; lia.


Lemma isLeap_spec y :
  isLeap y = true <-> y mod 4 = 0 /\ (y mod 100 <> 0 \/ y mod 400 = 0).
Proof.
  unfold isLeap.
  rewrite andb_true_iff, orb_true_iff, negb_true_iff, !Z.eqb_eq, Z.eqb_neq.
  tauto.
Qed.

Lemma DayFromYear_succ y : DayFromYear (y + 1) = DayFromYear y + DaysInYear y.
Proof.
  unfold DayFromYear, DaysInYear. destruct (isLeap y) eqn:E.
  - apply isLeap_spec in E. zdiv.
  - assert (~ (y mod 4 = 0 /\ (y mod 100 <> 0 \/ y mod 400 = 0)))
      by (rewrite <- isLeap_spec; congruence).
    zdiv.
Qed.

Lemma DaysInYear_range y : 365 <= DaysInYear y <= 366.
Proof. unfold DaysInYear. destruct (isLeap y); lia. Qed.

Lemma DayFromYear_mono y1 y2 : y1 <= y2 -> DayFromYear y1 <= DayFromYear y2.
Proof. unfold DayFromYear. zdiv. Qed.

Lemma DayFromYear_lt y1 y2 : y1 < y2 -> DayFromYear y1 < DayFromYear y2.
Proof.
  intros Hlt. pose proof (DayFromYear_mono (y1 + 1) y2 ltac:(lia)).
  pose proof (DayFromYear_succ y1). pose proof (DaysInYear_range y1). lia.
Qed.

Lemma YearFromDay_spec d :
  DayFromYear (YearFromDay d) <= d < DayFromYear (YearFromDay d + 1).
Proof.
  unfold YearFromDay. set (y0 := 1970 + d * 400 / 146097).
  assert (DayFromYear (y0 - 1) <= d < DayFromYear (y0 + 2))
    by (unfold DayFromYear, y0; zdiv).
  destruct (Z.ltb_spec d (DayFromYear y0)).
  - replace (y0 - 1 + 1) with y0 by lia. lia.
  - destruct (Z.ltb_spec d (DayFromYear (y0 + 1))); [lia|].
    replace (y0 + 1 + 1) with (y0 + 2) by lia. lia.
Qed.

Lemma YearFromDay_unique d y :
  DayFromYear y <= d < DayFromYear (y + 1) -> YearFromDay d = y.
Proof.
  intros Hy. pose proof (YearFromDay_spec d) as Hs.
  destruct (Z.lt_trichotomy (YearFromDay d) y) as [Hlt|[Heq|Hgt]]; [|done|].
  - pose proof (DayFromYear_mono (YearFromDay d + 1) y ltac:(lia)). lia.
  - pose proof (DayFromYear_mono (y + 1) (YearFromDay d) ltac:(lia)). lia.
Qed.

Lemma YearFromDay_mono d1 d2 : d1 <= d2 -> YearFromDay d1 <= YearFromDay d2.
Proof.
  intros Hle. pose proof (YearFromDay_spec d1). pose proof (YearFromDay_spec d2).
  destruct (Z.le_gt_cases (YearFromDay d1) (YearFromDay d2)) as [|Hgt]; [done|].
  pose proof (DayFromYear_mono (YearFromDay d2 + 1) (YearFromDay d1) ltac:(lia)).
  lia.
Qed.

Lemma msPerDay_pos : 0 < msPerDay.
Proof. reflexivity. Qed.

Lemma Day_mono t1 t2 : t1 <= t2 -> Day t1 <= Day t2.
Proof. intros. unfold Day. apply Z.div_le_mono; [apply msPerDay_pos|done]. Qed.

Lemma time_split t : t = Day t * msPerDay + TimeWithinDay t.
Proof. unfold Day, TimeWithinDay, msPerDay. zdiv. Qed.

Lemma TimeWithinDay_range t : 0 <= TimeWithinDay t < msPerDay.
Proof. unfold TimeWithinDay. apply Z.mod_pos_bound, msPerDay_pos. Qed.

Lemma Day_MakeDate d tm : 0 <= tm < msPerDay -> Day (MakeDate d tm) = d.
Proof. unfold Day, MakeDate, msPerDay. intros. zdiv. Qed.

Lemma TimeWithinDay_MakeDate d tm :
  0 <= tm < msPerDay -> TimeWithinDay (MakeDate d tm) = tm.
Proof. unfold TimeWithinDay, MakeDate, msPerDay. intros. zdiv. Qed.

Lemma DayWithinYear_range t :
  0 <= DayWithinYear t < DaysInYear (getFullYear t).
Proof.
  unfold DayWithinYear, getFullYear.
  pose proof (YearFromDay_spec (Day t)).
  pose proof (DayFromYear_succ (YearFromDay (Day t))). lia.
Qed.


Lemma MakeDay_monthStart y m d : MakeDay y m d = monthStart (12 * y + m) + d - 1.
Proof.
  unfold monthStart, MakeDay.
  replace (0 + (12 * y + m) / 12) with (y + m / 12) by zdiv.
  replace ((12 * y + m) mod 12) with (m mod 12) by zdiv.
  lia.
Qed.

Lemma monthStart_year_month y m :
  0 <= m < 12 ->
  monthStart (12 * y + m) = DayFromYear y + daysBeforeMonth (isLeap y) m.
Proof.
  intros Hm. unfold monthStart, MakeDay.
  replace (0 + (12 * y + m) / 12) with y by zdiv.
  replace ((12 * y + m) mod 12) with m by zdiv.
  lia.
Qed.

Lemma monthStart_step k : 28 <= monthStart (k + 1) - monthStart k <= 31.
Proof.
  pose proof (Z.div_mod k 12 ltac:(lia)) as Hk.
  pose proof (Z.mod_pos_bound k 12 ltac:(lia)) as Hm.
  set (y := k / 12) in *. set (m := k mod 12) in *.
  replace k with (12 * y + m) by lia. clearbody y m. clear Hk.
  rewrite (monthStart_year_month y m) by lia.
  destruct (Z.eq_dec m 11) as [->|Hne].
  - replace (12 * y + 11 + 1) with (12 * (y + 1) + 0) by lia.
    rewrite (monthStart_year_month (y + 1) 0) by lia.
    rewrite DayFromYear_succ. unfold DaysInYear, daysBeforeMonth, leapDay.
    simpl. destruct (isLeap y), (isLeap (y + 1)); lia.
  - replace (12 * y + m + 1) with (12 * y + (m + 1)) by lia.
    rewrite (monthStart_year_month y (m + 1)) by lia.
    unfold daysBeforeMonth, leapDay.
    assert (m = 0 \/ m = 1 \/ m = 2 \/ m = 3 \/ m = 4 \/ m = 5 \/ m = 6 \/
            m = 7 \/ m = 8 \/ m = 9 \/ m = 10) as Hcases by lia.
    destruct (isLeap y);
      repeat (destruct Hcases as [->|Hcases]; [simpl; lia|]); subst m; simpl; lia.
Qed.

Lemma monthStart_mono k1 k2 : k1 <= k2 -> monthStart k1 <= monthStart k2.
Proof.
  intros Hle. replace k2 with (k1 + Z.of_nat (Z.to_nat (k2 - k1))) by lia.
  induction (Z.to_nat (k2 - k1)) as [|n IH].
  - replace (k1 + Z.of_nat 0) with k1 by lia. lia.
  - pose proof (monthStart_step (k1 + Z.of_nat n)).
    replace (k1 + Z.of_nat (S n)) with (k1 + Z.of_nat n + 1) by lia. lia.
Qed.

Lemma monthStart_lt k1 k2 : k1 < k2 -> monthStart k1 + 28 <= monthStart k2.
Proof.
  intros Hlt. pose proof (monthStart_mono (k1 + 1) k2 ltac:(lia)).
  pose proof (monthStart_step k1). lia.
Qed.

Lemma getMonth_range t : 0 <= getMonth t <= 11.
Proof.
  unfold getMonth, MonthFromDayInYear.
  repeat match goal with |- context [if ?c then _ else _] => destruct c end; lia.
Qed.

Lemma getMonth_bounds t :
  let leap := isLeap (getFullYear t) in
  daysBeforeMonth leap (getMonth t) <= DayWithinYear t /\
  (getMonth t < 11 -> DayWithinYear t < daysBeforeMonth leap (getMonth t + 1)).
Proof.
  pose proof (DayWithinYear_range t) as Hr.
  unfold getMonth, MonthFromDayInYear, daysBeforeMonth, leapDay in *. cbn zeta.
  destruct (isLeap (getFullYear t));
  repeat match goal with
         | |- context [if ?x <? ?y then _ else _] => destruct (Z.ltb_spec x y)
         end; simpl; lia.
Qed.

Lemma monthIndex_spec t :
  monthStart (monthIndex t) <= Day t < monthStart (monthIndex t + 1).
Proof.
  pose proof (getMonth_range t) as Hm. pose proof (getMonth_bounds t) as [Hlo Hhi].
  pose proof (DayWithinYear_range t) as Hr.
  unfold monthIndex. rewrite monthStart_year_month by lia.
  unfold DayWithinYear in *.
  destruct (Z.eq_dec (getMonth t) 11) as [E|E].
  - rewrite E in *. replace (12 * getFullYear t + 11 + 1)
      with (12 * (getFullYear t + 1) + 0) by lia.
    rewrite monthStart_year_month by lia. rewrite DayFromYear_succ.
    change (daysBeforeMonth (isLeap (getFullYear t + 1)) 0) with 0.
    cbn zeta in Hlo. lia.
  - replace (12 * getFullYear t + getMonth t + 1)
      with (12 * getFullYear t + (getMonth t + 1)) by lia.
    rewrite monthStart_year_month by lia. lia.
Qed.

Lemma monthIndex_unique t k :
  monthStart k <= Day t < monthStart (k + 1) -> monthIndex t = k.
Proof.
  intros Hk. pose proof (monthIndex_spec t) as Hs.
  destruct (Z.lt_trichotomy (monthIndex t) k) as [Hlt|[Heq|Hgt]]; [|done|].
  - pose proof (monthStart_mono (monthIndex t + 1) k ltac:(lia)). lia.
  - pose proof (monthStart_mono (k + 1) (monthIndex t) ltac:(lia)). lia.
Qed.

Lemma monthIndex_mono t1 t2 : t1 <= t2 -> monthIndex t1 <= monthIndex t2.
Proof.
  intros Hle%Day_mono.
  pose proof (monthIndex_spec t1). pose proof (monthIndex_spec t2).
  destruct (Z.le_gt_cases (monthIndex t1) (monthIndex t2)) as [|Hgt]; [done|].
  pose proof (monthStart_mono (monthIndex t2 + 1) (monthIndex t1) ltac:(lia)).
  lia.
Qed.

Lemma getFullYear_mono t1 t2 : t1 <= t2 -> getFullYear t1 <= getFullYear t2.
Proof. intros Hle%Day_mono. by apply YearFromDay_mono. Qed.

Lemma getDate_alt t : getDate t = Day t - monthStart (monthIndex t) + 1.
Proof.
  pose proof (getMonth_range t).
  unfold getDate, monthIndex. rewrite monthStart_year_month by lia.
  unfold DayWithinYear. lia.
Qed.

Lemma getDate_range t : 1 <= getDate t <= 31.
Proof.
  rewrite getDate_alt. pose proof (monthIndex_spec t).
  pose proof (monthStart_step (monthIndex t)). lia.
Qed.

(** Setting the day of the month moves the date by whole days. *)
Lemma setDate_shift t n : setDate t (getDate t + n) = t + n * msPerDay.
Proof.
  unfold setDate, MakeDate. rewrite MakeDay_monthStart.
  fold (monthIndex t). rewrite getDate_alt.
  rewrite (time_split t) at 5. lia.
Qed.

Lemma Day_setMonth t m : Day (setMonth t m)
  = monthStart (12 * getFullYear t + m) + getDate t - 1.
Proof.
  unfold setMonth. rewrite Day_MakeDate by apply TimeWithinDay_range.
  apply MakeDay_monthStart.
Qed.

Lemma setMonth_value t m :
  setMonth t m
  = (monthStart (12 * getFullYear t + m) + getDate t - 1) * msPerDay + TimeWithinDay t.
Proof. unfold setMonth, MakeDate. by rewrite MakeDay_monthStart. Qed.

Lemma Day_setDate_1 t : Day (setDate t 1) = monthStart (monthIndex t).
Proof.
  unfold setDate. rewrite Day_MakeDate by apply TimeWithinDay_range.
  rewrite MakeDay_monthStart. fold (monthIndex t). lia.
Qed.

Lemma monthIndex_setDate_1 t : monthIndex (setDate t 1) = monthIndex t.
Proof.
  apply monthIndex_unique. rewrite Day_setDate_1.
  pose proof (monthStart_step (monthIndex t)). lia.
Qed.

Lemma setDate_1_le t : setDate t 1 <= t.
Proof.
  replace 1 with (getDate t + (1 - getDate t)) at 1 by lia.
  rewrite setDate_shift. pose proof (getDate_range t). unfold msPerDay. lia.
Qed.

(** Moving to month [m] of the same year lands in that month or, when the
    day of the month does not exist there, in the next one. *)
Lemma monthIndex_setMonth t m :
  let k := 12 * getFullYear t + m in
  monthIndex (setMonth t m) = k \/ monthIndex (setMonth t m) = k + 1.
Proof.
  cbn zeta. set (k := 12 * getFullYear t + m).
  pose proof (Day_setMonth t m) as Hd. fold k in Hd.
  pose proof (getDate_range t) as Hr.
  pose proof (monthStart_step k) as H1. pose proof (monthStart_step (k + 1)) as H2.
  destruct (Z.lt_ge_cases (Day (setMonth t m)) (monthStart (k + 1))).
  - left. apply monthIndex_unique. lia.
  - right. apply monthIndex_unique. replace (k + 1 + 1) with (k + 2) in * by lia. lia.
Qed.

End CalendarFacts.

(** ** Amounts of transactions *)

Lemma list_insert_same {A} (l : list A) (i : nat) (x : A) :
  l !! i = Some x -> <[i := x]> l = l.
Proof. apply list_insert_id. Qed.

Lemma filter_all_false {A} (f : A -> bool) (l : list A) :
  (forall x, In x l -> f x = false) -> List.filter f l = [].
Proof.
  induction l as [|x l IH]; intros Hf; [done|]. cbn [List.filter].
  rewrite (Hf x) by (by left). apply IH. intros y Hy. apply Hf. by right.
Qed.

Lemma amountsOf_cons {RT : Runtime} ty tx txs :
  amountsOf ty (tx :: txs)
  = if TransactionType_eqb (tx_type tx) ty
    then parseFloat (tx_amount tx) :: amountsOf ty txs
    else amountsOf ty txs.
Proof. unfold amountsOf. cbn [List.filter]. by destruct (TransactionType_eqb _ _). Qed.

(** ** Bucketing of the real-data chart *)

Module RealDataChartFacts.
Import Calendar CalendarFacts RealDataChart.

Lemma year_of_MakeDay y m d :
  0 <= m <= 11 -> 1 <= d <= 31 -> YearFromDay (MakeDay y m d) = y.
Proof.
  intros Hm Hd. apply YearFromDay_unique.
  rewrite MakeDay_monthStart, monthStart_year_month by lia.
  rewrite DayFromYear_succ. unfold DaysInYear, daysBeforeMonth, leapDay.
  assert (m = 0 \/ m = 1 \/ m = 2 \/ m = 3 \/ m = 4 \/ m = 5 \/ m = 6 \/
          m = 7 \/ m = 8 \/ m = 9 \/ m = 10 \/ m = 11) as Hcases by lia.
  destruct (isLeap y);
    repeat (destruct Hcases as [->|Hcases]; [simpl; lia|]); subst m; simpl; lia.
Qed.

Lemma getFullYear_setFullYear t y : getFullYear (setFullYear t y) = y.
Proof.
  unfold getFullYear, setFullYear.
  rewrite Day_MakeDate by apply TimeWithinDay_range.
  apply year_of_MakeDay; [apply getMonth_range|apply getDate_range].
Qed.

Lemma getFullYear_setMonth_0 t : getFullYear (setMonth t 0) = getFullYear t.
Proof.
  unfold getFullYear at 1, setMonth.
  rewrite Day_MakeDate by apply TimeWithinDay_range.
  apply year_of_MakeDay; [lia|apply getDate_range].
Qed.

Lemma getFullYear_setDate_1 t : getFullYear (setDate t 1) = getFullYear t.
Proof.
  unfold getFullYear at 1, setDate.
  rewrite Day_MakeDate by apply TimeWithinDay_range.
  apply year_of_MakeDay; [apply getMonth_range|lia].
Qed.

Lemma startDate_daily now : startDate now daily = now - 30 * msPerDay.
Proof.
  unfold startDate. replace (getDate now - 30) with (getDate now + -30) by lia.
  rewrite setDate_shift. lia.
Qed.

Lemma startDate_weekly now : startDate now weekly = now - 56 * msPerDay.
Proof.
  unfold startDate. replace (getDate now - 8 * 7) with (getDate now + -56) by lia.
  rewrite setDate_shift. lia.
Qed.

Lemma startDate_monthly_index now :
  monthIndex now - 11 <= monthIndex (startDate now monthly).
Proof.
  unfold startDate. rewrite monthIndex_setDate_1.
  pose proof (monthIndex_setMonth now (getMonth now - 11)) as Hs.
  cbn zeta in Hs. unfold monthIndex at 1. lia.
Qed.

Lemma startDate_yearly_year now :
  getFullYear (startDate now yearly) = getFullYear now - 4.
Proof.
  unfold startDate.
  by rewrite getFullYear_setDate_1, getFullYear_setMonth_0, getFullYear_setFullYear.
Qed.

Lemma periodIndex_month start t :
  periodIndex month start t = monthIndex t - monthIndex start.
Proof. unfold periodIndex, monthIndex. lia. Qed.

Section Bucketing.
Context {RT : Runtime}.

(** A transaction gets a bucket exactly when the buckets cover its date. *)
Lemma bucketOf_covered now timeRange tx :
  is_Some (bucketOf now timeRange tx) <-> covered now timeRange tx = true.
Proof.
  unfold bucketOf, covered, inWindow, dateGe, dateLe, dateLt.
  destruct (parseDate (tx_date tx)) as [t|]; [|split; [by intros [? ?]|done]].
  cbn zeta.
  set (start := startDate now timeRange).
  set (index := periodIndex (periodType timeRange) start t).
  assert (Hkey : start <= t <= now ->
            (0 <= index < Z.of_nat (periods timeRange)
             <-> match timeRange with
                 | daily | weekly => t < now
                 | monthly | yearly => True
                 end)).
  { intros Hw. subst index start. destruct timeRange; cbn [periodType periods].
    - rewrite startDate_daily in *. unfold periodIndex, getTime, msPerDay in *.
      split; intros; zdiv.
    - rewrite startDate_weekly in *. unfold periodIndex, getTime, msPerDay in *.
      split; intros; zdiv.
    - rewrite periodIndex_month.
      pose proof (startDate_monthly_index now).
      pose proof (monthIndex_mono _ _ (proj1 Hw)).
      pose proof (monthIndex_mono _ _ (proj2 Hw)). split; [done|lia].
    - unfold periodIndex. rewrite startDate_yearly_year.
      pose proof (getFullYear_mono _ _ (proj1 Hw)) as H1.
      rewrite startDate_yearly_year in H1.
      pose proof (getFullYear_mono _ _ (proj2 Hw)). split; [done|lia]. }
  destruct (Z.leb_spec start t) as [H1|H1]; cbn [andb];
    [|split; [by intros [? ?]|done]].
  destruct (Z.leb_spec t now) as [H2|H2]; cbn [andb];
    [|split; [by intros [? ?]|done]].
  specialize (Hkey (conj H1 H2)).
  destruct (Z.leb_spec 0 index) as [H3|H3]; cbn [andb].
  - destruct (Z.ltb_spec index (Z.of_nat (periods timeRange))) as [H4|H4].
    + split; [intros _|by eexists].
      destruct timeRange; try done; apply Z.ltb_lt; apply Hkey; lia.
    + split; [by intros [? ?]|]. intros Hc. exfalso.
      destruct timeRange; try (apply Z.ltb_lt in Hc); lia.
  - split; [by intros [? ?]|]. intros Hc. exfalso.
    destruct timeRange; try (apply Z.ltb_lt in Hc); lia.
Qed.

Lemma bucketOf_bound now timeRange tx i :
  bucketOf now timeRange tx = Some i -> (i < periods timeRange)%nat.
Proof.
  unfold bucketOf. destruct (parseDate (tx_date tx)) as [t|]; [|done].
  cbn zeta. destruct (_ && _) eqn:E; [|done]. intros [= <-].
  repeat (apply andb_true_iff in E as [E ?]). lia.
Qed.

Lemma processTransaction_bucketOf now timeRange pd tx :
  processTransaction now (startDate now timeRange) (periodType timeRange)
                     (periods timeRange) pd tx
  = match bucketOf now timeRange tx with
    | Some i =>
        match pd !! i with
        | Some p =>
            <[i := addAmount (tx_type tx) (parseFloat (tx_amount tx)) p]> pd
        | None => pd
        end
    | None => pd
    end.
Proof.
  unfold processTransaction, bucketOf, dateGe, dateLe.
  destruct (parseDate (tx_date tx)) as [t|]; [|done]. cbn zeta.
  destruct (startDate now timeRange <=? t), (t <=? now); cbn [andb]; try done.
  by destruct (_ && _).
Qed.

Lemma fold_step_length now timeRange txs pd :
  length (processTransactions now timeRange txs pd) = length pd.
Proof.
  unfold processTransactions. revert pd. induction txs as [|tx txs IH]; intros pd; [done|].
  cbn [fold_left]. rewrite IH, processTransaction_bucketOf.
  destruct (bucketOf now timeRange tx) as [i|]; [|done].
  destruct (pd !! i); [|done]. by rewrite length_insert.
Qed.


(** What one bucket holds after the loop: what it held, plus the amounts
    of the transactions of its index, in their order. *)
Lemma fold_step_lookup now timeRange txs pd i p0 :
  pd !! i = Some p0 ->
  exists p,
    processTransactions now timeRange txs pd !! i = Some p /\
    p_income p
      = fold_left jadd (amountsOf income (List.filter (inBucket now timeRange i) txs))
                  (p_income p0) /\
    p_expense p
      = fold_left jadd (amountsOf expense (List.filter (inBucket now timeRange i) txs))
                  (p_expense p0) /\
    p_date p = p_date p0.
Proof.
  unfold processTransactions. revert pd p0. induction txs as [|tx txs IH]; intros pd p0 Hp0.
  - by exists p0.
  - cbn [fold_left List.filter]. rewrite processTransaction_bucketOf.
    destruct (inBucket now timeRange i tx) eqn:Eb; unfold inBucket in Eb.
    + apply bool_decide_eq_true in Eb. rewrite Eb, Hp0.
      destruct (IH (<[i := addAmount (tx_type tx) (parseFloat (tx_amount tx)) p0]> pd)
                   (addAmount (tx_type tx) (parseFloat (tx_amount tx)) p0))
        as (p & Hp & Hi & He & Hd).
      { apply list_lookup_insert_eq. by eapply lookup_lt_Some. }
      exists p. split; [done|]. rewrite !amountsOf_cons, Hi, He, Hd.
      by destruct (tx_type tx).
    + apply bool_decide_eq_false in Eb.
      destruct (bucketOf now timeRange tx) as [j|]; [|by apply IH].
      destruct (pd !! j) as [pj|]; [|by apply IH].
      apply IH. rewrite list_lookup_insert_ne; [done|congruence].
Qed.


(** The sum over the buckets after the loop: the sum before, plus the
    amounts of the transactions that got a bucket. *)
Lemma fold_step_sum now timeRange txs pd :
  length pd = periods timeRange ->
  jsum (map p_income (processTransactions now timeRange txs pd))
    = jadd (jsum (map p_income pd))
           (totalOf income (List.filter (hasBucket now timeRange) txs)) /\
  jsum (map p_expense (processTransactions now timeRange txs pd))
    = jadd (jsum (map p_expense pd))
           (totalOf expense (List.filter (hasBucket now timeRange) txs)).
Proof.
  unfold processTransactions. revert pd. induction txs as [|tx txs IH]; intros pd Hlen.
  - unfold totalOf. cbn. by rewrite !jadd_0_r.
  - cbn [fold_left List.filter]. rewrite processTransaction_bucketOf.
    destruct (hasBucket now timeRange tx) eqn:Eb; unfold hasBucket in Eb.
    + apply bool_decide_eq_true in Eb as [j Ej]. rewrite Ej.
      pose proof (bucketOf_bound _ _ _ _ Ej) as Hj.
      destruct (lookup_lt_is_Some_2 pd j ltac:(lia)) as [p Hp]. rewrite Hp.
      destruct (IH (<[j := addAmount (tx_type tx) (parseFloat (tx_amount tx)) p]> pd))
        as [Hi He]; [by rewrite length_insert|].
      rewrite Hi, He. unfold totalOf. rewrite !amountsOf_cons.
      rewrite !list_fmap_insert.
      assert (Hpi : (p_income <$> pd) !! j = Some (p_income p))
        by (by rewrite list_lookup_fmap, Hp).
      assert (Hpe : (p_expense <$> pd) !! j = Some (p_expense p))
        by (by rewrite list_lookup_fmap, Hp).
      destruct (tx_type tx); cbn [TransactionType_eqb addAmount p_income p_expense].
      * rewrite (jsum_insert _ _ _ _ Hpi), (list_insert_same _ _ _ Hpe).
        by rewrite jsum_cons, !jadd_assoc.
      * rewrite (jsum_insert _ _ _ _ Hpe), (list_insert_same _ _ _ Hpi).
        by rewrite jsum_cons, !jadd_assoc.
    + apply bool_decide_eq_false in Eb.
      destruct (bucketOf now timeRange tx) as [j|]; [|by apply IH].
      exfalso. apply Eb. by eexists.
Qed.

Lemma initPeriods_length pt start n : length (initPeriods pt start n) = n.
Proof. unfold initPeriods. by rewrite length_map, length_seq. Qed.

Lemma initPeriods_lookup pt start n i :
  (i < n)%nat ->
  initPeriods pt start n !! i
  = Some {| p_income := jofZ 0; p_expense := jofZ 0; p_net := jofZ 0;
            p_date := periodStart pt start (Z.of_nat i) |}.
Proof.
  intros Hi. unfold initPeriods.
  by rewrite list_lookup_fmap, lookup_seq_lt.
Qed.

Lemma initPeriods_sums pt start n :
  jsum (map p_income (initPeriods pt start n)) = jofZ 0 /\
  jsum (map p_expense (initPeriods pt start n)) = jofZ 0.
Proof.
  unfold initPeriods. rewrite !map_map. cbn [p_income p_expense].
  by rewrite !jsum_zeros.
Qed.

Lemma series_from_incomeData c ps :
  incomeData (series_from c ps) = map p_income ps /\
  expenseData (series_from c ps) = map p_expense ps.
Proof.
  revert c. induction ps as [|p ps IH]; intros c; [done|].
  cbn [series_from incomeData expenseData map].
  destruct (IH (jadd c (jsub (p_income p) (p_expense p)))) as [-> ->]. done.
Qed.

Lemma filter_hasBucket_covered now timeRange txs :
  List.filter (hasBucket now timeRange) txs
  = List.filter (covered now timeRange) txs.
Proof.
  apply filter_ext. intros tx. unfold hasBucket.
  pose proof (bucketOf_covered now timeRange tx) as Hc.
  destruct (covered now timeRange tx).
  - apply bool_decide_eq_true_2. by apply Hc.
  - apply bool_decide_eq_false_2. intros Hs%Hc. discriminate.
Qed.

End Bucketing.

End RealDataChartFacts.

(** ** Bucketing of the advanced cash-flow chart *)

Module AdvancedChartFacts.
Import Calendar CalendarFacts AdvancedChart.

Lemma setMonth_same t : setMonth t (getMonth t) = t.
Proof.
  rewrite setMonth_value. fold (monthIndex t). rewrite getDate_alt.
  pose proof (time_split t) as Ht.
  replace (monthStart (monthIndex t) + (Day t - monthStart (monthIndex t) + 1) - 1)
    with (Day t) by lia.
  lia.
Qed.

Lemma back_0 frame now : back frame now 0 = now.
Proof.
  destruct frame; unfold back.
  - replace (getDate now - 0 * 7) with (getDate now + 0) by lia.
    rewrite setDate_shift. lia.
  - replace (getMonth now - 0) with (getMonth now) by lia. apply setMonth_same.
  - replace (getMonth now - 0 * 3) with (getMonth now) by lia. apply setMonth_same.
Qed.

(** Going further back never gives a later instant. *)
Lemma back_mono frame now k1 k2 :
  k1 <= k2 -> back frame now k2 <= back frame now k1.
Proof.
  intros Hk. destruct frame; unfold back.
  - replace (getDate now - k2 * 7) with (getDate now + - (k2 * 7)) by lia.
    replace (getDate now - k1 * 7) with (getDate now + - (k1 * 7)) by lia.
    rewrite !setDate_shift. unfold msPerDay. lia.
  - rewrite !setMonth_value.
    pose proof (monthStart_mono (12 * getFullYear now + (getMonth now - k2))
                  (12 * getFullYear now + (getMonth now - k1)) ltac:(lia)).
    unfold msPerDay. lia.
  - rewrite !setMonth_value.
    pose proof (monthStart_mono (12 * getFullYear now + (getMonth now - k2 * 3))
                  (12 * getFullYear now + (getMonth now - k1 * 3)) ltac:(lia)).
    unfold msPerDay. lia.
Qed.

Section Bucketing.
Context {RT : Runtime}.

Lemma inPeriod_spec frame now i tx :
  inPeriod frame now i tx = true
  <-> exists t, parseDate (tx_date tx) = Some t /\
                back frame now (Z.of_nat i + 1) <= t < back frame now (Z.of_nat i).
Proof.
  unfold inPeriod, periodStart, periodEnd, dateGe, dateLt.
  destruct (parseDate (tx_date tx)) as [t|].
  - rewrite andb_true_iff, Z.leb_le, Z.ltb_lt. split.
    + intros ?. by exists t.
    + by intros (? & [= <-] & ?).
  - split; [done|]. by intros (? & ? & _).
Qed.

Lemma inWindow_spec frame now tx :
  inWindow frame now tx = true
  <-> exists t, parseDate (tx_date tx) = Some t /\
                back frame now (Z.of_nat (periods frame)) <= t < now.
Proof.
  unfold inWindow, dateGe, dateLt.
  destruct (parseDate (tx_date tx)) as [t|].
  - rewrite andb_true_iff, Z.leb_le, Z.ltb_lt. split.
    + intros ?. by exists t.
    + by intros (? & [= <-] & ?).
  - split; [done|]. by intros (? & ? & _).
Qed.

Lemma bucket_exists frame now t (n : nat) :
  back frame now (Z.of_nat n) <= t < now ->
  exists i, (i < n)%nat /\
    back frame now (Z.of_nat i + 1) <= t < back frame now (Z.of_nat i).
Proof.
  induction n as [|n IH]; intros Ht.
  - rewrite back_0 in Ht. lia.
  - destruct (Z.le_gt_cases (back frame now (Z.of_nat n)) t) as [Hge|Hlt].
    + destruct IH as (i & Hi & Hb); [lia|]. exists i. split; [lia|done].
    + exists n. split; [lia|]. replace (Z.of_nat n + 1) with (Z.of_nat (S n)) by lia.
      lia.
Qed.

(** Within the window a transaction is in exactly one bucket; outside it,
    in none. *)
Lemma inPeriod_unique frame now tx i j :
  inPeriod frame now i tx = true -> inPeriod frame now j tx = true -> i = j.
Proof.
  intros (t & Ht & Hi)%inPeriod_spec (t' & Ht' & Hj)%inPeriod_spec.
  assert (t' = t) as -> by congruence.
  destruct (Nat.lt_trichotomy i j) as [Hlt|[->|Hgt]]; [|done|].
  - pose proof (back_mono frame now (Z.of_nat i + 1) (Z.of_nat j) ltac:(lia)). lia.
  - pose proof (back_mono frame now (Z.of_nat j + 1) (Z.of_nat i) ltac:(lia)). lia.
Qed.

Lemma inPeriod_inWindow frame now tx i :
  (i < periods frame)%nat ->
  inPeriod frame now i tx = true -> inWindow frame now tx = true.
Proof.
  intros Hi (t & Ht & Hb)%inPeriod_spec. apply inWindow_spec. exists t.
  split; [done|].
  pose proof (back_mono frame now (Z.of_nat i + 1) (Z.of_nat (periods frame))
                ltac:(lia)).
  pose proof (back_mono frame now 0 (Z.of_nat i) ltac:(lia)) as H0.
  rewrite back_0 in H0. lia.
Qed.

Lemma inWindow_inPeriod frame now tx :
  inWindow frame now tx = true ->
  exists i, (i < periods frame)%nat /\ inPeriod frame now i tx = true.
Proof.
  intros (t & Ht & Hb)%inWindow_spec.
  destruct (bucket_exists frame now t (periods frame) Hb) as (i & Hi & Hbi).
  exists i. split; [done|]. apply inPeriod_spec. by exists t.
Qed.

Lemma sumOfType_totalOf ty ts : sumOfType ty ts = totalOf ty ts.
Proof.
  unfold sumOfType, totalOf, amountsOf, jsum.
  apply (fold_left_sum_map (fun t => parseFloat (tx_amount t))).
Qed.

Lemma totalOf_cons ty tx txs :
  totalOf ty (tx :: txs)
  = jadd (if TransactionType_eqb (tx_type tx) ty
          then parseFloat (tx_amount tx) else jofZ 0)
         (totalOf ty txs).
Proof.
  unfold totalOf. rewrite amountsOf_cons.
  destruct (TransactionType_eqb _ _); by rewrite ?jsum_cons, ?jadd_0_l.
Qed.

(** The buckets partition the window: their totals add up to the total
    over the window. *)
Lemma buckets_sum frame now ty (idxs : list nat) txs :
  NoDup idxs ->
  (forall i, i ∈ idxs <-> (i < periods frame)%nat) ->
  jsum (map (fun i => totalOf ty (List.filter (inPeriod frame now i) txs)) idxs)
  = totalOf ty (List.filter (inWindow frame now) txs).
Proof.
  intros Hnd Hidx. induction txs as [|tx txs IH].
  - cbn [List.filter]. apply jsum_zeros.
  - cbn [List.filter].
    rewrite (map_ext _ (fun i =>
               jadd (if inPeriod frame now i tx && TransactionType_eqb (tx_type tx) ty
                     then parseFloat (tx_amount tx) else jofZ 0)
                    (totalOf ty (List.filter (inPeriod frame now i) txs)))).
    2:{ intros i. destruct (inPeriod frame now i tx); cbn [andb].
        - by rewrite totalOf_cons.
        - by rewrite jadd_0_l. }
    rewrite jsum_pointwise, IH.
    destruct (inWindow frame now tx) eqn:Ew.
    + rewrite totalOf_cons. f_equal.
      destruct (TransactionType_eqb (tx_type tx) ty).
      * destruct (inWindow_inPeriod _ _ _ Ew) as (i0 & Hi0 & Hp0).
        rewrite (map_ext _ (fun i => if inPeriod frame now i tx
                                     then parseFloat (tx_amount tx) else jofZ 0))
          by (intros i; by rewrite andb_true_r).
        apply (jsum_single _ _ _ i0); [done|by apply Hidx|].
        intros i Hi. split; [|by intros ->].
        intros Hp. by eapply inPeriod_unique.
      * apply jsum_none. intros i _. by rewrite andb_false_r.
    + rewrite jsum_none; [by rewrite jadd_0_l|].
      intros i Hi%Hidx. destruct (inPeriod frame now i tx) eqn:Ep; [|done].
      apply inPeriod_inWindow in Ep; [congruence|done].
Qed.

Lemma processTransactionData_length now txs frame :
  length (processTransactionData now txs frame) = periods frame.
Proof.
  unfold processTransactionData. by rewrite length_map, length_rev, length_seq.
Qed.

Lemma processTransactionData_sums now txs frame :
  jsum (map a_income (processTransactionData now txs frame))
    = totalOf income (List.filter (inWindow frame now) txs) /\
  jsum (map a_expense (processTransactionData now txs frame))
    = totalOf expense (List.filter (inWindow frame now) txs).
Proof.
  unfold processTransactionData. rewrite !map_map.
  cbn [aggregate a_income a_expense].
  assert (Hnd : NoDup (rev (seq 0 (periods frame))))
    by (apply NoDup_ListNoDup, List.NoDup_rev, NoDup_ListNoDup, NoDup_seq).
  assert (Hidx : forall i, i ∈ rev (seq 0 (periods frame)) <-> (i < periods frame)%nat).
  { intros i. rewrite list_elem_of_In, <- in_rev, in_seq. lia. }
  split.
  - rewrite (map_ext _ (fun i => totalOf income (List.filter (inPeriod frame now i) txs)))
      by (intros i; apply sumOfType_totalOf).
    by apply buckets_sum.
  - rewrite (map_ext _ (fun i => totalOf expense (List.filter (inPeriod frame now i) txs)))
      by (intros i; apply sumOfType_totalOf).
    by apply buckets_sum.
Qed.

End Bucketing.

End AdvancedChartFacts.

(** ** The transaction dated at the instant of the rendering *)

(** C3. The real-data chart drops a transaction dated exactly [now] under
    day buckets.  In a zone that keeps one offset the window starts 30
    days before [now], as it does in UTC; the window test admits the
    transaction, its day index is the bucket count, and the bounds check
    leaves it out, so that the bucket incomes sum to 0 where the income
    of the window is 100.  Under month buckets, read in UTC, the same
    transaction is counted. *)
Theorem day_buckets_drop_the_transaction_at_now :
  let tx := exampleTx "2025-03-31T12:30:00.000Z" "100" income in
  (forall offset,
     LocalCalendar.setDate (zone := LocalCalendar.fixedOffset offset) exampleNow
       (LocalCalendar.getDate (zone := LocalCalendar.fixedOffset offset) exampleNow - 30)
     = RealDataChart.startDate exampleNow RealDataChart.daily) /\
  Ref.ref_parseDate (tx_date tx) = Some exampleNow /\
  RealDataChart.periodIndex RealDataChart.day
    (RealDataChart.startDate exampleNow RealDataChart.daily) exampleNow
  = Z.of_nat (RealDataChart.periods RealDataChart.daily) /\
  RealDataChart.inWindow (RT := Ref.refRuntime) exampleNow RealDataChart.daily tx = true /\
  (forall i, RealDataChart.inBucket (RT := Ref.refRuntime)
               exampleNow RealDataChart.daily i tx = false) /\
  jeqb (jsum (RealDataChart.incomeData
                (RealDataChart.chartSeries (RT := Ref.refRuntime)
                   exampleNow RealDataChart.daily [tx])))
       (jofZ 0) = true /\
  jeqb (totalOf (RT := Ref.refRuntime) income
          (List.filter (RealDataChart.inWindow (RT := Ref.refRuntime)
                          exampleNow RealDataChart.daily) [tx]))
       (jofZ 100) = true /\
  RealDataChart.inBucket (RT := Ref.refRuntime)
    exampleNow RealDataChart.monthly 10 tx = true /\
  jeqb (jsum (RealDataChart.incomeData
                (RealDataChart.chartSeries (RT := Ref.refRuntime)
                   exampleNow RealDataChart.monthly [tx])))
       (jofZ 100) = true.
Proof.
  cbn zeta. split.
  { intros offset. rewrite RealDataChartFacts.startDate_daily.
    unfold LocalCalendar.setDate, LocalCalendar.getDate, LocalCalendar.UTC,
      LocalCalendar.LocalTime. cbn [LocalCalendar.localTZA LocalCalendar.fixedOffset].
    replace (Calendar.getDate (exampleNow + offset) - 30)
      with (Calendar.getDate (exampleNow + offset) + -30) by lia.
    rewrite CalendarFacts.setDate_shift. lia. }
  split; [by vm_compute|]. split; [by vm_compute|]. split; [by vm_compute|]. split.
  - intros i. unfold RealDataChart.inBucket.
    assert (RealDataChart.bucketOf (RT := Ref.refRuntime) exampleNow RealDataChart.daily
              (exampleTx "2025-03-31T12:30:00.000Z" "100" income) = None) as ->
      by (by vm_compute).
    by apply bool_decide_eq_false_2.
  - repeat split; by vm_compute.
Qed.

(** ** Projections generated from transactions *)

Module ProjectionsFacts.
Import Projections.

Section Draws.
Context {RT : Runtime}.

Lemma futureProjections_draws oracle oracle' avgIncome avgExpenses lastDate i rounds drawn :
  (forall k, (k < rounds)%nat -> oracle (drawn + k)%nat = oracle' (drawn + k)%nat) ->
  futureProjections oracle avgIncome avgExpenses lastDate i rounds drawn
  = futureProjections oracle' avgIncome avgExpenses lastDate i rounds drawn.
Proof.
  revert i drawn. induction rounds as [|rounds IH]; intros i drawn Hagree; [done|].
  cbn [futureProjections]. unfold Math_random.
  pose proof (Hagree 0%nat ltac:(lia)) as H0. rewrite Nat.add_0_r in H0.
  rewrite H0. destruct (dateToISOString _); [|done].
  rewrite (IH (i + 1) (S drawn)); [done|].
  intros k Hk. replace (S drawn + k)%nat with (drawn + S k)%nat by lia.
  apply Hagree. lia.
Qed.

Lemma futureProjections_outcome oracle avgIncome avgExpenses lastDate i rounds drawn :
  match futureProjections oracle avgIncome avgExpenses lastDate i rounds drawn with
  | (Returns future, drawn') =>
      length future = rounds /\ drawn' = (drawn + rounds)%nat
  | (Throws, drawn') => (drawn < drawn' <= drawn + rounds)%nat
  end.
Proof.
  revert i drawn. induction rounds as [|rounds IH]; intros i drawn.
  - cbn. split; [done|lia].
  - cbn [futureProjections]. unfold Math_random.
    destruct (dateToISOString _); [|lia].
    specialize (IH (i + 1) (S drawn)).
    destruct (futureProjections _ _ _ _ _ _ _) as [[future|] drawn'].
    + destruct IH as [Hl ->]. split; [cbn [length]; by rewrite Hl|lia].
    + lia.
Qed.

(** C2, as the code has it.  The projections are a function of the
    transactions and of the next six draws of [Math.random], which is the
    only state read or written: two runs whose six draws agree give the
    same projections and metrics.  The aggregated historical part does
    not depend on the draws at all; a non-empty one is followed by six
    projected months, each of which consumes one draw. *)
Theorem projections_depend_on_draws (oracle oracle' : nat -> jsnum) (drawn : nat)
    (transactions : list Transaction) :
  ((forall k, (k < 6)%nat -> oracle (drawn + k)%nat = oracle' (drawn + k)%nat) ->
   generateProjectionsFromTransactions oracle drawn transactions
   = generateProjectionsFromTransactions oracle' drawn transactions /\
   forall data scenario months,
     projectionMetrics oracle drawn data transactions scenario months
     = projectionMetrics oracle' drawn data transactions scenario months) /\
  match generateProjectionsFromTransactions oracle drawn transactions with
  | (Returns projections, drawn') =>
      exists hist future,
        historicalPart transactions = Returns hist /\
        projections = hist ++ future /\
        (hist = [] -> future = [] /\ drawn' = drawn) /\
        (hist <> [] -> length future = 6%nat /\ drawn' = (drawn + 6)%nat)
  | (Throws, drawn') => (drawn <= drawn' <= drawn + 6)%nat
  end.
Proof.
  assert (Hgen : (forall k, (k < 6)%nat -> oracle (drawn + k)%nat = oracle' (drawn + k)%nat) ->
    generateProjectionsFromTransactions oracle drawn transactions
    = generateProjectionsFromTransactions oracle' drawn transactions).
  { intros Hagree. unfold generateProjectionsFromTransactions.
    destruct transactions as [|tx txs]; [done|].
    destruct (groupByMonth ∅ (tx :: txs)) as [monthlyData|]; [|done].
    destruct (last (historical monthlyData)); [|done].
    by rewrite (futureProjections_draws oracle oracle'). }
  split.
  - intros Hagree. split; [by apply Hgen|].
    intros data scenario months. unfold projectionMetrics.
    destruct data; [|done]. by rewrite Hgen.
  - unfold generateProjectionsFromTransactions, historicalPart.
    destruct transactions as [|tx txs].
    { exists [], []. by repeat split. }
    destruct (groupByMonth ∅ (tx :: txs)) as [monthlyData|]; [|lia].
    destruct (last (historical monthlyData)) as [lastProjection|] eqn:Elast.
    + pose proof (futureProjections_outcome oracle
        (jdiv (sumParsed projectedIncome (historical monthlyData))
              (jlength (historical monthlyData)))
        (jdiv (sumParsed projectedExpenses (historical monthlyData))
              (jlength (historical monthlyData)))
        (parseDate (date lastProjection)) 1 6 drawn) as Hf.
      destruct (futureProjections _ _ _ _ _ _ _) as [[future|] drawn'].
      * destruct Hf as [Hlen ->]. exists (historical monthlyData), future.
        split; [done|]. split; [done|]. split; [|done].
        intros E. rewrite E in Elast. discriminate.
      * lia.
    + exists (historical monthlyData), []. rewrite app_nil_r.
      apply last_None in Elast. split; [done|]. split; [done|]. split; [done|].
      intros Hne. by destruct Hne.
Qed.

End Draws.


End ProjectionsFacts.

Module ProjectionsExamples.
Import Projections ProjectionsFacts.

Lemma projections_depend_on_draws_witness :
  generateProjectionsFromTransactions (RT := Ref.refRuntime)
    drawsHalf 0 januaryTransactions
  = generateProjectionsFromTransactions (RT := Ref.refRuntime)
      drawsHalfThenZero 0 januaryTransactions.
Proof.
  assert (Hagree : forall k, (k < 6)%nat ->
            drawsHalf (0 + k)%nat = drawsHalfThenZero (0 + k)%nat).
  { intros k Hk. unfold drawsHalf, drawsHalfThenZero. cbn [Nat.add].
    by rewrite (proj2 (Nat.ltb_lt k 6) Hk). }
  pose proof (projections_depend_on_draws (RT := Ref.refRuntime)
                drawsHalf drawsHalfThenZero 0 januaryTransactions) as H.
  destruct H as [H _]. specialize (H Hagree). destruct H as [H _]. exact H.
Defined.

(** C2 fails as stated: on the same transactions, scenario and month
    count, two runs whose draws differ disagree on the projections and on
    the metrics. *)
Lemma two_runs_disagree :
  generateProjectionsFromTransactions (RT := Ref.refRuntime)
    drawsHalf 0 januaryTransactions
  <> generateProjectionsFromTransactions (RT := Ref.refRuntime)
       drawsZero 0 januaryTransactions /\
  projectionMetrics (RT := Ref.refRuntime) drawsHalf 0 []
    januaryTransactions baseScenario (jofZ 6)
  <> projectionMetrics (RT := Ref.refRuntime) drawsZero 0 []
       januaryTransactions baseScenario (jofZ 6).
Proof.
  split.
  - intros E. vm_compute in E. discriminate.
  - intros E. vm_compute in E. discriminate.
Qed.

End ProjectionsExamples.

(** ** Comparisons of finite numbers *)

Lemma jlt_Fin (x y : Qc) : jlt (Fin x) (Fin y) = true <-> (x < y)%Qc.
Proof.
  unfold jlt. cbn [jcmp]. rewrite Qclt_alt.
  destruct (x ?= y)%Qc; split; congruence.
Qed.

Lemma jle_Fin (x y : Qc) : jle (Fin x) (Fin y) = true <-> (x <= y)%Qc.
Proof.
  unfold jle. cbn [jcmp]. rewrite Qcle_alt.
  destruct (x ?= y)%Qc; split; congruence.
Qed.

Lemma jle_jlt_trans a b c : jle a b = true -> jlt b c = true -> jlt a c = true.
Proof.
  unfold jle, jlt.
  destruct (jcmp a b) as [[]|] eqn:E1; try discriminate;
  destruct (jcmp b c) as [[]|] eqn:E2; try discriminate; intros _ _.
  - apply jcmp_Eq in E1. subst. by rewrite E2.
  - by rewrite (jcmp_trans _ _ _ _ E1 E2).
Qed.

(** ** The chart value formatters *)

Module ChartFormattersFacts.
Import ChartFormatters.

Lemma jabs_jneg a : jabs (jneg a) = jabs a.
Proof. destruct a; simpl; try reflexivity. by rewrite Qcabs_opp. Qed.

Lemma IsMaxAbs_Permutation vs ws m :
  Permutation vs ws -> IsMaxAbs vs m -> IsMaxAbs ws m.
Proof.
  intros HP [(v & Hv & ->) Hall]. split.
  - exists v. split; [|done]. by eapply Permutation_in.
  - intros w Hw. apply Hall. eapply Permutation_in; [|done]. by symmetry.
Qed.

Lemma isNaN_In (vs : list jsnum) : existsb isNaN vs = true <-> In NaN vs.
Proof.
  rewrite existsb_exists. split.
  - intros (x & Hx & E). by destruct x.
  - intros H. by exists NaN.
Qed.

Lemma no_NaN_In (vs : list jsnum) :
  existsb isNaN vs = false -> forall v, In v vs -> v <> NaN.
Proof.
  intros E v Hv ->. apply isNaN_In in Hv. congruence.
Qed.

(** X1. The scale of a series depends neither on the order of its values
    nor on their signs. *)
Theorem determineScale_order_and_sign (vs ws : list jsnum) :
  Permutation vs ws ->
  determineScale ws = determineScale vs /\
  determineScale (map jneg vs) = determineScale vs.
Proof.
  intros HP. split.
  - destruct (existsb isNaN vs) eqn:E.
    + apply isNaN_In in E.
      rewrite (determineScale_NaN vs E).
      apply determineScale_NaN. by eapply Permutation_in.
    + destruct vs as [|v vs].
      { apply Permutation_nil in HP. by subst. }
      destruct (IsMaxAbs_exists (v :: vs)) as [m Hm]; [done|by apply no_NaN_In|].
      unfold determineScale.
      rewrite (Math_max_IsMaxAbs _ _ Hm).
      by rewrite (Math_max_IsMaxAbs _ _ (IsMaxAbs_Permutation _ _ _ HP Hm)).
  - unfold determineScale. rewrite map_map.
    by rewrite (map_ext _ _ jabs_jneg).
Qed.

Lemma determineScale_order_and_sign_witness :
  determineScale [jofZ 5; jofZ 2000] = determineScale [jofZ 2000; jofZ 5].
Proof.
  apply (determineScale_order_and_sign [jofZ 2000; jofZ 5] [jofZ 5; jofZ 2000]).
  apply perm_swap.
Defined.


Lemma jmax2_not_NaN a b : a <> NaN -> b <> NaN -> jmax2 a b <> NaN.
Proof.
  intros Ha Hb. unfold jmax2.
  destruct (jcmp a b) as [[]|] eqn:E; try done.
  destruct a, b; simpl in E; congruence.
Qed.

Lemma jmax2_ge_l a b : a <> NaN -> b <> NaN -> jle a (jmax2 a b) = true.
Proof.
  intros Ha Hb. unfold jmax2.
  destruct (jcmp a b) as [[]|] eqn:E.
  - by apply jle_refl.
  - unfold jle. by rewrite E.
  - by apply jle_refl.
  - destruct a, b; simpl in E; congruence.
Qed.

Lemma fold_max_ge (l : list jsnum) (acc : jsnum) :
  acc <> NaN -> (forall x, In x l -> x <> NaN) ->
  jle acc (fold_left jmax2 l acc) = true.
Proof.
  revert acc. induction l as [|x l IH]; intros acc Hacc Hl; cbn [fold_left].
  - by apply jle_refl.
  - assert (Hx : x <> NaN) by (apply Hl; by left).
    eapply jle_trans; [by apply jmax2_ge_l|].
    apply IH; [by apply jmax2_not_NaN|]. intros y Hy. apply Hl. by right.
Qed.

Lemma fold_max_not_NaN (l : list jsnum) (acc : jsnum) :
  acc <> NaN -> (forall x, In x l -> x <> NaN) ->
  fold_left jmax2 l acc <> NaN.
Proof.
  intros Hacc Hl. by destruct (jle_not_NaN _ _ (fold_max_ge l acc Hacc Hl)).
Qed.

Lemma scaleOfMax_mono m m' :
  jle m m' = true -> (scaleRank (scaleOfMax m) <= scaleRank (scaleOfMax m'))%nat.
Proof.
  intros Hle. unfold scaleOfMax, jge.
  destruct (jle (jofZ 1000000) m) eqn:E6.
  - by rewrite (jle_trans _ _ _ E6 Hle).
  - destruct (jle (jofZ 1000) m) eqn:E3.
    + rewrite (jle_trans _ _ _ E3 Hle).
      destruct (jle (jofZ 1000000) m'); simpl; lia.
    + simpl. lia.
Qed.

(** X2. Adding values to a series never lowers its scale, as long as no
    value is [NaN]. *)
Theorem determineScale_grows (vs ws : list jsnum) :
  (forall v, In v (vs ++ ws) -> v <> NaN) ->
  (scaleRank (determineScale vs) <= scaleRank (determineScale (vs ++ ws)))%nat.
Proof.
  intros Hnan. apply scaleOfMax_mono.
  rewrite map_app. unfold Math_max. rewrite fold_left_app.
  apply fold_max_ge.
  - apply fold_max_not_NaN; [done|].
    intros x (y & <- & Hy)%in_map_iff. apply jabs_not_NaN, Hnan.
    apply in_or_app. by left.
  - intros x (y & <- & Hy)%in_map_iff. apply jabs_not_NaN, Hnan.
    apply in_or_app. by right.
Qed.

Lemma determineScale_grows_witness :
  (scaleRank (determineScale [jofZ 1500])
   <= scaleRank (determineScale ([jofZ 1500] ++ [jofZ (-3000000)])))%nat.
Proof.
  apply (determineScale_grows [jofZ 1500] [jofZ (-3000000)]).
  intros v [<-|[<-|[]]]; discriminate.
Defined.

(** *** The sign of a formatted value *)

Lemma replaceDollar_none (s : string) :
  hasDollar s = false -> replaceDollar s = s.
Proof.
  unfold hasDollar. induction s as [|c s IH]; [done|].
  cbn [list_ascii_of_string existsb replaceDollar].
  destruct (Ascii.eqb c "$"); [done|]. cbn [orb]. intros H. by rewrite IH.
Qed.

Lemma replaceDollar_first (pre post : string) :
  hasDollar pre = false ->
  replaceDollar (pre ++ String "$" post) = (pre ++ String "-" (String "$" post))%string.
Proof.
  unfold hasDollar. induction pre as [|c s IH]; [done|].
  change (String c s +:+ ?t)%string with (String c (s +:+ t)).
  cbn [list_ascii_of_string existsb replaceDollar].
  destruct (Ascii.eqb c "$"); [done|]. cbn [orb]. intros H. by rewrite IH.
Qed.

Lemma replaceDollar_suffix (s : string) (scale : Scale) :
  (replaceDollar s ++ suffix scale)%string = replaceDollar (s ++ suffix scale).
Proof.
  induction s as [|c s IH].
  - by destruct scale.
  - change (String c s +:+ ?t)%string with (String c (s +:+ t)).
    cbn [replaceDollar].
    destruct (Ascii.eqb c "$"); [done|].
    change (String c ?u +:+ ?t)%string with (String c (u +:+ t)).
    by rewrite IH.
Qed.

Lemma Qcabs_div (x y : Qc) :
  Qcabs (/ y) = (/ y)%Qc -> Qcabs (x / y) = (Qcabs x / y)%Qc.
Proof. intros Hy. unfold Qcdiv. by rewrite Qcabs_Qcmult, Hy. Qed.

Lemma jabs_scaledValue (value : jsnum) (scale : Scale) :
  jabs (scaledValue (jabs value) scale) = jabs (scaledValue value scale).
Proof.
  destruct scale; simpl.
  - destruct value; simpl; try reflexivity. by rewrite Qcabs_idemp.
  - destruct value; try reflexivity. unfold jofZ.
    change (jabs (Fin q)) with (Fin (Qcabs q)).
    unfold jdiv. change (jsgn (Qc_of_Z 1000)) with Gt. cbn [jabs].
    rewrite !Qcabs_div, Qcabs_idemp; [done| |]; apply Qc_is_canon; reflexivity.
  - destruct value; try reflexivity. unfold jofZ.
    change (jabs (Fin q)) with (Fin (Qcabs q)).
    unfold jdiv. change (jsgn (Qc_of_Z 1000000)) with Gt. cbn [jabs].
    rewrite !Qcabs_div, Qcabs_idemp; [done| |]; apply Qc_is_canon; reflexivity.
Qed.

Lemma jabs_not_negative (value : jsnum) : (jabs value <? jofZ 0)%js = false.
Proof.
  destruct value; try reflexivity. unfold jlt, jofZ. cbn.
  pose proof (Qcabs_nonneg q) as H.
  destruct (Qcabs q ?= Qc_of_Z 0)%Qc eqn:E; try done.
  apply Qclt_alt in E. by apply Qcle_not_lt in H.
Qed.

Section Formatting.
Context {NF : NumberFormat}.

(** X3. A negative value is formatted as its magnitude with the sign put
    in afterwards: in front of the text when no currency is shown, in
    front of the first dollar sign when it is; a currency text without a
    dollar sign is left as it is, so the sign is lost. *)
Theorem formatValueWithScale_negative
    (value : jsnum) (scale : Scale) (options : ChartFormattingOptions) :
  (value <? jofZ 0)%js = true ->
  formatValueWithScale value scale options =
    (if default true (currency options) then replaceDollar else String "-")
      <$> formatValueWithScale (jabs value) scale options /\
  (forall pre post, hasDollar pre = false ->
     replaceDollar (pre ++ String "$" post)
     = (pre ++ String "-" (String "$" post))%string) /\
  (forall s, hasDollar s = false -> replaceDollar s = s).
Proof.
  intros Hneg. split; [|split; [apply replaceDollar_first|apply replaceDollar_none]].
  unfold formatValueWithScale.
  rewrite jabs_scaledValue, jabs_not_negative, Hneg.
  destruct (intlFormat _ _ _) as [formatted|]; [|done]. cbn.
  destruct (default true (currency options)); [|done].
  by rewrite replaceDollar_suffix.
Qed.

End Formatting.

Lemma formatValueWithScale_negative_witness :
  formatValueWithScale (NF := refNumberFormat) (jofZ (-1500)) Thousands noOptions
  = Some "-$ 1,5K"%string.
Proof.
  destruct (formatValueWithScale_negative (NF := refNumberFormat)
              (jofZ (-1500)) Thousands noOptions) as [E _]; [reflexivity|].
  rewrite E. vm_compute. reflexivity.
Defined.

Section Formatters.
Context {RT : Runtime} {NF : NumberFormat}.

(** X5. Axis ticks and tooltips built from the same series and options
    show the same text, provided the currency option is given, the scale
    is fixed or the series is not empty, and the decimals option is left
    out or at most 1. *)
Theorem tick_and_tooltip_agree
    (allValues : list jsnum) (options : ChartFormattingOptions)
    (value : StringOrNumber) :
  is_Some (currency options) ->
  (allValues <> [] \/ exists s, scale options = Some (fixed s)) ->
  (forall d, decimals options = Some d -> jle d (jofZ 1) = true) ->
  createChartTickFormatter allValues options value
  = createTooltipFormatter allValues options value.
Proof.
  intros [c Hc] Hs Hd.
  unfold createChartTickFormatter, createTooltipFormatter.
  destruct (isNaN (toNumeric value)); [done|].
  assert (Es : match default auto (scale options) with
               | auto => determineScale (valuesOr allValues (toNumeric value))
               | fixed s => s
               end
             = match default auto (scale options) with
               | auto => determineScale allValues
               | fixed s => s
               end).
  { destruct Hs as [Hne|[s ->]]; [|done]. by destruct allValues. }
  rewrite Es. set (effectiveScale := match default auto (scale options) with
                                     | auto => _ | fixed s => s end).
  unfold formatValueWithScale. rewrite Hc. cbn [default ChartFormatters.currency
    ChartFormatters.decimals].
  assert (Ed : jmax2 (jofZ 1) (default (jofZ 1) (decimals options)) = jofZ 1).
  { destruct (decimals options) as [d|] eqn:E; [|done].
    apply jmax2_le_l. by apply Hd. }
  rewrite Ed. by destruct effectiveScale.
Qed.

End Formatters.

Lemma tick_and_tooltip_agree_witness :
  createChartTickFormatter (RT := Ref.refRuntime) (NF := refNumberFormat)
    [jofZ 2500; jofZ 40]
    {| scale := None; currency := Some true; decimals := None |} (Str "2500")
  = createTooltipFormatter (RT := Ref.refRuntime) (NF := refNumberFormat)
      [jofZ 2500; jofZ 40]
      {| scale := None; currency := Some true; decimals := None |} (Str "2500").
Proof.
  apply (tick_and_tooltip_agree (RT := Ref.refRuntime) (NF := refNumberFormat)).
  - by eexists.
  - by left.
  - intros d [=].
Defined.

(** *** The scale fits the series *)

Lemma Qc_scale_lt (q : Qc) (c b : Z) :
  (0 < / Qc_of_Z c)%Qc -> (Qc_of_Z (b * c) * / Qc_of_Z c = Qc_of_Z b)%Qc ->
  (q < Qc_of_Z (b * c))%Qc -> (q / Qc_of_Z c < Qc_of_Z b)%Qc.
Proof.
  intros Hc E Hq. rewrite <- E. unfold Qcdiv. by apply Qcmult_lt_compat_r.
Qed.

Lemma Qc_scale_le (q : Qc) (c b : Z) :
  (0 < / Qc_of_Z c)%Qc -> (Qc_of_Z (b * c) * / Qc_of_Z c = Qc_of_Z b)%Qc ->
  (Qc_of_Z (b * c) <= q)%Qc -> (Qc_of_Z b <= q / Qc_of_Z c)%Qc.
Proof.
  intros Hc E Hq. rewrite <- E. unfold Qcdiv.
  apply Qcmult_le_compat_r; [done|]. by apply Qclt_le_weak.
Qed.

Lemma jabs_scaled_div (v : jsnum) (c : Z) :
  jsgn (Qc_of_Z c) = Gt -> Qcabs (/ Qc_of_Z c) = (/ Qc_of_Z c)%Qc ->
  jabs (v / jofZ c)%js = (jabs v / jofZ c)%js.
Proof.
  intros Hs Ha. destruct v; unfold jofZ, jdiv; rewrite ?Hs; try reflexivity.
  cbn [jabs]. by rewrite Qcabs_div.
Qed.

Lemma jlt_below_Fin (a : jsnum) (x : Qc) :
  jlt (jabs a) (Fin x) = true -> exists q, jabs a = Fin q /\ (q < x)%Qc.
Proof.
  destruct a; try discriminate. intros H. eexists. split; [done|].
  by apply jlt_Fin.
Qed.

(** X4. The scale chosen for a series without [NaN] fits it: below
    millions every scaled magnitude stays under 1000, and above units the
    largest scaled magnitude is at least 1. *)
Theorem determineScale_fits (vs : list jsnum) (v : jsnum) :
  (forall x, In x vs -> x <> NaN) -> In v vs ->
  (determineScale vs <> Millions ->
     jlt (jabs (scaledValue v (determineScale vs))) (jofZ 1000) = true) /\
  (determineScale vs <> Units ->
     exists w, In w vs /\
       jle (jofZ 1) (jabs (scaledValue w (determineScale vs))) = true).
Proof.
  intros Hnan Hv.
  destruct (IsMaxAbs_exists vs) as [m Hm]; [by intros ->|done|].
  pose proof (IsMaxAbs_not_NaN _ _ Hm) as Hmn.
  assert (E : determineScale vs = scaleOfMax m).
  { unfold determineScale. by rewrite (Math_max_IsMaxAbs _ _ Hm). }
  rewrite E. destruct Hm as [(w & Hw & ->) Hall].
  pose proof (Hall v Hv) as Hle.
  assert (H3 : jsgn (Qc_of_Z 1000) = Gt) by reflexivity.
  assert (H3' : Qcabs (/ Qc_of_Z 1000) = (/ Qc_of_Z 1000)%Qc)
    by (apply Qc_is_canon; reflexivity).
  assert (H6 : jsgn (Qc_of_Z 1000000) = Gt) by reflexivity.
  assert (H6' : Qcabs (/ Qc_of_Z 1000000) = (/ Qc_of_Z 1000000)%Qc)
    by (apply Qc_is_canon; reflexivity).
  unfold scaleOfMax.
  destruct (jge (jabs w) (jofZ 1000000)) eqn:G6.
  - split; [done|]. intros _. exists w. split; [done|].
    cbn [scaledValue]. rewrite (jabs_scaled_div _ _ H6 H6').
    unfold jge in G6. destruct (jabs w) as [| | |q] eqn:Ew; try done.
    unfold jofZ, jdiv. rewrite H6. apply jle_Fin.
    apply (Qc_scale_le q 1000000 1); [done|by apply Qc_is_canon|].
    by apply jle_Fin.
  - apply jge_false_jlt in G6; [|done|done].
    destruct (jge (jabs w) (jofZ 1000)) eqn:G3.
    + split.
      * intros _. cbn [scaledValue]. rewrite (jabs_scaled_div _ _ H3 H3').
        pose proof (jle_jlt_trans _ _ _ Hle G6) as Hlt.
        apply jlt_below_Fin in Hlt as (q & -> & Hq).
        unfold jofZ, jdiv. rewrite H3. apply jlt_Fin.
        by apply (Qc_scale_lt q 1000 1000); [done|apply Qc_is_canon|].
      * intros _. exists w. split; [done|].
        cbn [scaledValue]. rewrite (jabs_scaled_div _ _ H3 H3').
        unfold jge in G3. destruct (jabs w) as [| | |q] eqn:Ew; try done.
        unfold jofZ, jdiv. rewrite H3. apply jle_Fin.
        apply (Qc_scale_le q 1000 1); [done|by apply Qc_is_canon|].
        by apply jle_Fin.
    + split; [|done]. intros _. cbn [scaledValue].
      apply jge_false_jlt in G3; [|done|done].
      by eapply jle_jlt_trans.
Qed.

Lemma determineScale_fits_witness :
  jlt (jabs (scaledValue (jofZ (-2500)) (determineScale [jofZ 40; jofZ (-2500)])))
      (jofZ 1000) = true.
Proof.
  apply (determineScale_fits [jofZ 40; jofZ (-2500)] (jofZ (-2500))).
  - intros x [<-|[<-|[]]]; discriminate.
  - right; left; reflexivity.
  - discriminate.
Defined.

End ChartFormattersFacts.

(** ** The currency provider *)

Module CurrencyProviderFacts.
Import CurrencyProvider.

Lemma endpointRate_truthy (response : option Quote) (fallback : jsnum) :
  jtruthy fallback = true -> jtruthy (endpointRate response fallback) = true.
Proof.
  intros Hf. destruct response as [[v c]|]; [|exact Hf].
  unfold endpointRate, orElse. cbn [venta compra].
  repeat case_match; simplify_eq; cbn [default]; done.
Qed.

(** X6. In every state the provider settles in, the exchange rate is the
    rate of the selected dollar type, whatever dollar type the refreshing
    closure had captured, and every rate is truthy: a failed, missing or
    zero quote is replaced by the fallback rate. *)
Theorem settled_exchange_rate (st : CurrencyState) :
  Settled st ->
  exchangeRate st = Some (rateOf (dollarRates st) (dollarType st)) /\
  (forall t, jtruthy (rateOf (dollarRates st) t) = true) /\
  rateTruthy (exchangeRate st) = true.
Proof.
  intros H.
  assert (Hinv : exchangeRate st = Some (rateOf (dollarRates st) (dollarType st)) /\
                 forall t, jtruthy (rateOf (dollarRates st) t) = true).
  { induction H as [|st c _ [IH1 IH2]|st t _ [IH1 IH2]|st d r _ [IH1 IH2]].
    - split; [done|]. by intros [].
    - done.
    - done.
    - split; [done|]. intros []; cbn; by apply endpointRate_truthy. }
  destruct Hinv as [H1 H2]. split; [done|]. split; [done|].
  rewrite H1. apply H2.
Qed.

Lemma settled_exchange_rate_witness :
  rateTruthy (exchangeRate
    (refreshRates oficial
       {| resp_oficial := Some {| venta := Some (jofZ 0); compra := None |};
          resp_blue := None;
          resp_mep := Some {| venta := Some (jofZ 1310); compra := Some (jofZ 1290) |} |}
       (setDollarType initialCurrencyState mep))) = true.
Proof.
  apply settled_exchange_rate.
  apply settled_refresh.
  change (setDollarType initialCurrencyState mep)
    with (syncExchangeRate (setDollarType initialCurrencyState mep)).
  apply settled_setDollarType, settled_initial.
Defined.

(** Right after a refresh, before the effect runs, the exchange rate is
    the one of the dollar type the closure captured. *)
Lemma stale_rate_before_effect :
  let st := setDollarType initialCurrencyState blue in
  let r := {| resp_oficial := None; resp_blue := None; resp_mep := None |} in
  exchangeRate (fetchExchangeRates oficial r st) = Some (jofZ 1270) /\
  exchangeRate (refreshRates oficial r st) = Some (jofZ 1300).
Proof. by split. Qed.

Section Conversion.
Context {RT : Runtime}.

(** X7. What [formatAmount] shows for a readable amount is the magnitude
    of its conversion from ARS to the selected currency, with two
    decimals in USD and none in ARS; the symbol and the currency code are
    wrapped around that text. *)
Theorem formatAmount_shows_conversion (st : CurrencyState) (amount : StringOrNumber) :
  rateTruthy (exchangeRate st) = true ->
  isNaN (toNumeric amount) = false ->
  formatAmount st amount false
  = formatDecimal (if Currency_eqb (currency st) USD then 2%nat else 0%nat)
      (jabs (convertAmount st amount ARS (currency st))) /\
  formatAmount st amount true
  = ("$" ++ formatAmount st amount false
         ++ (if Currency_eqb (currency st) USD then " USD" else " ARS"))%string.
Proof.
  intros Hr Hn. unfold formatAmount, convertAmount. rewrite Hn, Hr.
  by destruct (currency st).
Qed.

End Conversion.

Lemma formatAmount_shows_conversion_witness :
  formatAmount (RT := Ref.refRuntime) usdState (Str "2540") true
  = ("$" ++ formatAmount (RT := Ref.refRuntime) usdState (Str "2540") false
         ++ " USD")%string.
Proof.
  apply (formatAmount_shows_conversion (RT := Ref.refRuntime) usdState (Str "2540"));
    reflexivity.
Defined.

End CurrencyProviderFacts.

(** ** Finite inputs of the projection metrics *)

Lemma isFinite_Fin (a : jsnum) : isFinite a = true <-> exists q, a = Fin q.
Proof.
  destruct a; simpl; split; try discriminate; try (by intros [? [=]]).
  by eexists.
Qed.

Lemma isFinite_jadd a b :
  isFinite a = true -> isFinite b = true -> isFinite (a + b)%js = true.
Proof. by destruct a, b. Qed.

Lemma isFinite_jneg a : isFinite a = true -> isFinite (jneg a) = true.
Proof. by destruct a. Qed.

Lemma isFinite_jsub a b :
  isFinite a = true -> isFinite b = true -> isFinite (a - b)%js = true.
Proof. intros Ha Hb. by apply isFinite_jadd; [|apply isFinite_jneg]. Qed.

Lemma isFinite_jmul a b :
  isFinite a = true -> isFinite b = true -> isFinite (a * b)%js = true.
Proof. by destruct a, b. Qed.

Lemma isFinite_jabs a : isFinite a = true -> isFinite (jabs a) = true.
Proof. by destruct a. Qed.

Lemma isFinite_jofZ z : isFinite (jofZ z) = true.
Proof. done. Qed.

Lemma Qc_of_Z_nonzero (z : Z) : z <> 0 -> Qc_of_Z z <> 0%Qc.
Proof. intros Hz E. apply Hz, Z2Qc_inj. by rewrite E, Z2Qc_inj_0. Qed.

Lemma isFinite_jdiv_Z a (z : Z) :
  z <> 0 -> isFinite a = true -> isFinite (a / jofZ z)%js = true.
Proof.
  intros Hz (q & ->)%isFinite_Fin. unfold jofZ.
  by rewrite (jdiv_Fin q _ (Qc_of_Z_nonzero z Hz)).
Qed.

Lemma isFinite_jdiv_pos a b :
  isFinite a = true -> jgt b (jofZ 0) = true -> isFinite (a / b)%js = true.
Proof.
  intros (q & ->)%isFinite_Fin Hb. destruct b as [| | |r]; try done.
  rewrite jdiv_Fin; [done|]. intros ->.
  unfold jgt, jofZ in Hb. by rewrite Z2Qc_inj_0, jlt_irrefl in Hb.
Qed.

Lemma jor_else_finite (a : jsnum) :
  isFinite a = true -> isFinite (jor_else a (jofZ 0)) = true.
Proof. intros Ha. unfold jor_else. by destruct (jtruthy a). Qed.

Lemma numOr0_finite (o : option jsnum) :
  (forall x, o = Some x -> isFinite x = true) -> isFinite (numOr0 o) = true.
Proof.
  intros H. destruct o as [x|]; [|done]. cbn [numOr0].
  apply jor_else_finite. by apply H.
Qed.

Lemma fold_jadd_finite (l : list jsnum) (acc : jsnum) :
  isFinite acc = true -> (forall x, In x l -> isFinite x = true) ->
  isFinite (fold_left jadd l acc) = true.
Proof.
  revert acc. induction l as [|x l IH]; intros acc Hacc Hl; [done|].
  cbn [fold_left]. apply IH.
  - apply isFinite_jadd; [done|]. apply Hl. by left.
  - intros y Hy. apply Hl. by right.
Qed.

(** ** Monthly grouping of the transactions *)

Module MonthlyTotalsFacts.
Import Calendar Projections ProjectionsFacts MonthlyTotals.

Section Grouping.
Context {RT : Runtime}.

Lemma addTransaction_lookup (m0 m1 : gmap string MonthData) (t : Transaction) :
  addTransaction m0 t = Returns m1 ->
  (forall key, key <> keyOf t -> m1 !! key = m0 !! key) /\
  exists base,
    m1 !! keyOf t = Some (bump t base) /\
    (m0 !! keyOf t = Some base \/
     m0 !! keyOf t = None /\
     exists t0, parseDate (tx_date t) = Some t0 /\ base = freshMonth t0).
Proof.
  unfold addTransaction. fold (keyOf t). fold (amountOf t).
  destruct (m0 !! keyOf t) as [md0|] eqn:E0.
  - rewrite E0. intros [= <-]. split.
    + intros key Hk. by rewrite lookup_insert_ne.
    + exists md0. split; [|by left].
      rewrite lookup_insert_eq. unfold bump. by destruct (tx_type t).
  - destruct (parseDate (tx_date t)) as [t0|] eqn:Ed; [|done].
    cbn [dateToISOString]. rewrite lookup_insert_eq. intros [= <-]. split.
    + intros key Hk. by rewrite !lookup_insert_ne.
    + exists (freshMonth t0). split.
      * rewrite lookup_insert_eq. unfold bump, freshMonth. by destruct (tx_type t).
      * right. split; [done|]. by exists t0.
Qed.

Lemma hasKey_true key t : hasKey key t = true <-> keyOf t = key.
Proof. unfold hasKey. apply String.eqb_eq. Qed.

Lemma hasKey_false key t : hasKey key t = false <-> keyOf t <> key.
Proof. unfold hasKey. apply String.eqb_neq. Qed.

Lemma incomesOf_cons key t ts :
  incomesOf key (t :: ts)
  = if hasKey key t && TransactionType_eqb (tx_type t) income
    then amountOf t :: incomesOf key ts else incomesOf key ts.
Proof. unfold incomesOf. cbn [List.filter]. by destruct (_ && _). Qed.

Lemma expensesOf_cons key t ts :
  expensesOf key (t :: ts)
  = if hasKey key t && TransactionType_eqb (tx_type t) expense
    then jabs (amountOf t) :: expensesOf key ts else expensesOf key ts.
Proof. unfold expensesOf. cbn [List.filter]. by destruct (_ && _). Qed.

(** A month that is already in the map keeps its date and accumulates
    the amounts of its transactions. *)
Lemma groupByMonth_present (txs : list Transaction) (m0 m : gmap string MonthData)
    (key : string) (md0 : MonthData) :
  groupByMonth m0 txs = Returns m -> m0 !! key = Some md0 ->
  exists md, m !! key = Some md /\
    md_date md = md_date md0 /\
    md_income md = fold_left jadd (incomesOf key txs) (md_income md0) /\
    md_expenses md = fold_left jadd (expensesOf key txs) (md_expenses md0).
Proof.
  revert m0 md0. induction txs as [|t ts IH]; intros m0 md0 Hg H0.
  - cbn in Hg. injection Hg as <-. by exists md0.
  - cbn [groupByMonth] in Hg.
    destruct (addTransaction m0 t) as [m1|] eqn:Ea; [|done].
    destruct (addTransaction_lookup _ _ _ Ea) as (Hother & base & Hb & Hbase).
    rewrite incomesOf_cons, expensesOf_cons.
    destruct (hasKey key t) eqn:Ek.
    + apply hasKey_true in Ek. subst key.
      destruct Hbase as [Hbase|[Hbase _]]; [|congruence].
      assert (base = md0) by congruence. subst base.
      destruct (IH m1 (bump t md0) Hg Hb) as (md & Hm & Hd & Hi & He).
      exists md. split; [done|]. unfold bump in Hd, Hi, He.
      destruct (tx_type t); cbn in *; by rewrite ?Hd, ?Hi, ?He.
    + apply hasKey_false in Ek. cbn [andb].
      apply (IH m1 md0 Hg). rewrite Hother; [done|congruence].
Qed.

(** A month that is not in the map yet stays out of it unless a
    transaction has its key, in which case the first such transaction
    dates it. *)
Lemma groupByMonth_absent (txs : list Transaction) (m0 m : gmap string MonthData)
    (key : string) :
  groupByMonth m0 txs = Returns m -> m0 !! key = None ->
  (m !! key = None /\ forall tx, In tx txs -> keyOf tx <> key) \/
  exists md tx t0, m !! key = Some md /\
    md_income md = jsum (incomesOf key txs) /\
    md_expenses md = jsum (expensesOf key txs) /\
    In tx txs /\ keyOf tx = key /\ parseDate (tx_date tx) = Some t0 /\
    md_date md = toISOString (newDateYM1 (getFullYear t0) (getMonth t0)).
Proof.
  revert m0 m. induction txs as [|t ts IH]; intros m0 m Hg H0.
  - cbn in Hg. injection Hg as <-. left. split; [done|]. by intros tx [].
  - cbn [groupByMonth] in Hg.
    destruct (addTransaction m0 t) as [m1|] eqn:Ea; [|done].
    destruct (addTransaction_lookup _ _ _ Ea) as (Hother & base & Hb & Hbase).
    destruct (hasKey key t) eqn:Ek.
    + apply hasKey_true in Ek. subst key. right.
      destruct Hbase as [Hbase|[_ (t0 & Ht0 & ->)]]; [congruence|].
      destruct (groupByMonth_present ts m1 m (keyOf t) _ Hg Hb)
        as (md & Hm & Hd & Hi & He).
      exists md, t, t0. split; [done|].
      rewrite incomesOf_cons, expensesOf_cons.
      assert (Hk : hasKey (keyOf t) t = true) by by apply hasKey_true.
      rewrite Hk. cbn [andb]. unfold jsum.
      unfold bump, freshMonth in Hd, Hi, He.
      destruct (tx_type t); cbn in *; rewrite Hi, He, Hd;
        repeat split; auto.
    + pose proof Ek as Ek'. apply hasKey_false in Ek'.
      destruct (IH m1 m Hg) as [[Hn Hall]|(md & tx & t0 & Hm & Hi & He & Hin & Hrest)].
      * rewrite Hother; [done|congruence].
      * left. split; [done|]. intros tx [<-|Hin]; [done|by apply Hall].
      * right. exists md, tx, t0. rewrite incomesOf_cons, expensesOf_cons, Ek.
        cbn [andb]. split; [done|]. split; [done|]. split; [done|].
        split; [by right|done].
Qed.

(** X12. When the grouping returns, a month is in the map exactly when a
    transaction has its key; its income is the sum of the amounts of its
    income transactions and its expenses the sum of the magnitudes of its
    other amounts, both taken in the order of the transactions, an
    unreadable amount counting as 0; and its date is the first day of the
    month of one of its transactions. *)
Theorem groupByMonth_totals (txs : list Transaction) (m : gmap string MonthData) :
  groupByMonth ∅ txs = Returns m ->
  forall key,
    (m !! key = None <-> forall tx, In tx txs -> keyOf tx <> key) /\
    forall md, m !! key = Some md ->
      md_income md = jsum (incomesOf key txs) /\
      md_expenses md = jsum (expensesOf key txs) /\
      exists tx t0, In tx txs /\ keyOf tx = key /\
        parseDate (tx_date tx) = Some t0 /\
        md_date md = toISOString (newDateYM1 (getFullYear t0) (getMonth t0)).
Proof.
  intros Hg key.
  destruct (groupByMonth_absent txs ∅ m key Hg (lookup_empty key))
    as [[Hn Hall]|(md & tx & t0 & Hm & Hi & He & Hin & Hk & Hd & Hdate)].
  - split; [done|]. intros md Hm. congruence.
  - split.
    + split; [congruence|]. intros Hall. by destruct (Hall tx Hin).
    + intros md' Hm'. assert (md' = md) by congruence. subst md'.
      split; [done|]. split; [done|]. by exists tx, t0.
Qed.

(** *** When the generation throws *)








End Grouping.

Lemma groupByMonth_totals_witness :
  match groupByMonth (RT := Ref.refRuntime) ∅ januaryTransactions with
  | Returns m =>
      md_income <$> m !! "2025-01"%string
      = Some (jsum (incomesOf (RT := Ref.refRuntime) "2025-01" januaryTransactions))
  | Throws => False
  end.
Proof.
  destruct (groupByMonth (RT := Ref.refRuntime) ∅ januaryTransactions)
    as [m|] eqn:E; [|vm_compute in E; discriminate].
  pose proof (groupByMonth_totals (RT := Ref.refRuntime) januaryTransactions
                m E "2025-01"%string) as [Hnone Hsome].
  destruct (m !! "2025-01"%string) as [md|] eqn:Em.
  - destruct (Hsome md eq_refl) as [Hi _]. cbn. by rewrite Hi.
  - exfalso.
    apply (proj1 Hnone eq_refl
             (exampleTx "2025-01-15T10:00:00.000Z" "1000" income)).
    + by left.
    + by vm_compute.
Defined.


End MonthlyTotalsFacts.

(** ** The smart insights *)

Module SmartInsightsFacts.
Import Calendar CalendarFacts SmartInsights.

(** *** Objects used as maps *)



Lemma getProp_None (o : JSObject) (key : string) :
  getProp o key = None <-> key ∉ o.*1.
Proof.
  induction o as [|[k v] o IH]; cbn [getProp fmap list_fmap fst].
  - split; [intros _; apply not_elem_of_nil|done].
  - rewrite not_elem_of_cons. destruct (String.eqb k key) eqn:E.
    + apply String.eqb_eq in E. split; [done|]. by intros [? _].
    + apply String.eqb_neq in E. rewrite IH. split; [by split|by intros [_ ?]].
Qed.


Lemma setProp_keys (o : JSObject) (key : string) (value : jsnum) :
  (setProp o key value).*1 = if getProp o key is Some _ then o.*1 else o.*1 ++ [key].
Proof.
  induction o as [|[k v] o IH]; cbn [setProp getProp]; [done|].
  destruct (String.eqb k key) eqn:E; [done|].
  cbn [fmap list_fmap fst]. fold (fmap (M := list) (@fst string jsnum)).
  rewrite IH. by destruct (getProp o key).
Qed.








(** *** Spending patterns *)

Section Patterns.
Context {RT : Runtime}.


Lemma fold_addExpense_keys (l : list Transaction) (o : JSObject) (c : string) :
  c ∈ (fold_left addExpense l o).*1 <->
  c ∈ o.*1 \/ exists t, In t l /\ tx_categoryId t = c.
Proof.
  revert o. induction l as [|t l IH]; intros o; cbn [fold_left].
  - split; [by left|]. by intros [?|(t & [] & _)].
  - rewrite IH. unfold addExpense at 1. rewrite setProp_keys.
    assert (Hk : c ∈ (if getProp o (tx_categoryId t) is Some _ then o.*1
                      else o.*1 ++ [tx_categoryId t])
                 <-> c ∈ o.*1 \/ tx_categoryId t = c).
    { destruct (getProp o (tx_categoryId t)) eqn:E.
      - split; [by left|]. intros [?|<-]; [done|].
        destruct (decide (tx_categoryId t ∈ o.*1)) as [|Hn]; [done|].
        apply getProp_None in Hn. congruence.
      - rewrite elem_of_app, list_elem_of_singleton. split; intros [?|?]; auto. }
    rewrite Hk. split.
    + intros [[?|<-]|(t' & Hin & <-)]; [by left|right; exists t; by split; [left|]|].
      right. exists t'. by split; [right|].
    + intros [?|(t' & [<-|Hin] & <-)]; [by left; left|by left; right|].
      right. by exists t'.
Qed.



End Patterns.


(** *** How many categories can stand out *)







Section Bound.
Context {RT : Runtime} {P : Printer}.


End Bound.



End SmartInsightsFacts.

(** ** The routes of the API *)

Module ApiFacts.
Import Server Api.

Section Routes.
Context {Raw Parsed Data : Type} {E : Env Raw Parsed Data}.

Ltac route_cases :=
  unfold handle, me, register, login, guarded, owned, create, perform, session,
    refused, answer, authenticateToken;
  repeat case_match; simplify_eq;
  cbn [reply calls code content param_userId set_userId] in *.

Lemma guarded_unverified (handler : AuthRequest -> Handled Parsed Data)
    (req : ApiRequest Raw) :
  verifiedUser req = None ->
  guarded handler req
  = match bearerToken (authorization (auth req)) with
    | None => answer 401 (Msg "Token de acceso requerido") []
    | Some _ => answer 403 (Msg "Token inválido o expirado") []
    end.
Proof.
  unfold verifiedUser, guarded, authenticateToken.
  destruct (bearerToken _) as [token|]; [|done].
  by destruct (verifyToken token).
Qed.

Lemma guarded_verified (handler : AuthRequest -> Handled Parsed Data)
    (req : ApiRequest Raw) (u : string) :
  verifiedUser req = Some u ->
  guarded handler req = handler (set_userId (auth req) u).
Proof.
  unfold verifiedUser, guarded, authenticateToken.
  destruct (bearerToken _) as [token|]; [|done].
  destruct (verifyToken token); [|done]. by intros [= <-].
Qed.

(** X18. On a route behind the token check, a request without a verified
    token makes no storage call: it is answered 401 when no token can be
    read off the header and 403 when the token does not verify.  The
    other routes, those that create categories and inflation data among
    them, never look at the header. *)
Theorem unverified_requests_touch_nothing (route : Route) (req : ApiRequest Raw) :
  (tokenRoute route = true -> verifiedUser req = None ->
   handle route req
   = match bearerToken (authorization (auth req)) with
     | None => answer 401 (Msg "Token de acceso requerido") []
     | Some _ => answer 403 (Msg "Token inválido o expirado") []
     end) /\
  (tokenRoute route = false ->
   forall req' : ApiRequest Raw,
     req_body req' = req_body req -> handle route req' = handle route req).
Proof.
  split.
  - intros Hr Hv. destruct route; try discriminate Hr;
      unfold handle, me; by rewrite guarded_unverified.
  - intros Hr req' Hb. destruct route; try discriminate Hr;
      unfold handle, register, login; by rewrite ?Hb.
Qed.


(** X19. On the routes that compare the token's user with the user of the
    path, and on the profile route, every storage call is about the user
    the token is verified for; a verified token of another user is
    answered 403 without any storage call. *)
Theorem owner_routes_serve_the_owner (route : Route) (req : ApiRequest Raw) :
  ownerRoute route = true \/ route = Me ->
  (forall call, call ∈ calls (handle route req) ->
     callUser call = verifiedUser req /\ is_Some (verifiedUser req)) /\
  (ownerRoute route = true ->
   forall u, verifiedUser req = Some u -> u <> param_userId (auth req) ->
     handle route req = answer 403 (Msg "No autorizado") []).
Proof.
  intros Hr. split.
  - intros call Hin.
    destruct (verifiedUser req) as [u|] eqn:Hv.
    + assert (callUser call = Some u); [|by split].
      destruct Hr as [Hr| ->]; [destruct route; try discriminate Hr|];
        unfold handle, me in Hin; rewrite (guarded_verified _ _ u Hv) in Hin;
        unfold owned, create, perform, answer in Hin;
        cbn [req_userId param_userId set_userId userIdOf default] in Hin;
        repeat case_match; cbn [calls] in Hin;
        try (by apply elem_of_nil in Hin);
        apply list_elem_of_singleton in Hin; subst call; cbn [callUser];
        try done;
        match goal with
        | H : negb (bool_decide _) = false |- _ =>
            apply negb_false_iff, bool_decide_eq_true in H; by injection H as ->
        end.
    + exfalso.
      destruct Hr as [Hr| ->]; [destruct route; try discriminate Hr|];
        unfold handle, me in Hin; rewrite (guarded_unverified _ _ Hv) in Hin;
        destruct (bearerToken _); by apply elem_of_nil in Hin.
  - intros Ho u Hv Hne.
    destruct route; try discriminate Ho;
      unfold handle; rewrite (guarded_verified _ _ u Hv);
      unfold owned; cbn [req_userId param_userId set_userId];
      rewrite bool_decide_eq_false_2 by congruence; done.
Qed.

(** X20. The routes that create transactions, insights and projections,
    and those that mark or delete one notification, check the token but
    not whose it is: two requests that differ in the header only and both
    carry a verified token get the same storage calls and the same
    reply. *)
Theorem unchecked_routes_ignore_the_user (route : Route) (req req' : ApiRequest Raw) :
  In route [PostTransaction; PostAiInsight; PostProjection; MarkRead;
            RemoveNotification] ->
  req_body req' = req_body req ->
  param_userId (auth req') = param_userId (auth req) ->
  param_notificationId req' = param_notificationId req ->
  is_Some (verifiedUser req) -> is_Some (verifiedUser req') ->
  handle route req' = handle route req.
Proof.
  intros Hr Hb Hu Hn [u Hv] [u' Hv'].
  destruct Hr as [<-|[<-|[<-|[<-|[<-|[]]]]]];
    unfold handle;
    rewrite (guarded_verified _ _ u Hv), (guarded_verified _ _ u' Hv');
    cbn [param_userId set_userId]; by rewrite ?Hb, ?Hu, ?Hn.
Qed.

(** X21. A login is answered 200 exactly when the body is well formed,
    a user has the email and the password matches the stored one; it
    then carries a token for that user.  An unknown email and a wrong
    password get the same 401 reply, and a login only ever reads. *)
Theorem login_outcome (req : ApiRequest Raw) :
  (code (reply (login req)) = 200%nat <->
   exists email password user,
     parseLogin (req_body req) = Some (email, password) /\
     getUserByEmail email = Some (Some user) /\
     comparePassword password (user_password user) = true /\
     content (reply (login req))
     = Session (generateToken {| payload_userId := user_id user;
                                 payload_email := user_email user |})
               (publicUser user)) /\
  (code (reply (login req)) = 401%nat ->
   content (reply (login req)) = Msg "Credenciales inválidas") /\
  (forall call, call ∈ calls (login req) -> exists email, call = GetUserByEmail email).
Proof.
  unfold login, session, answer.
  destruct (parseLogin (req_body req)) as [[email password]|] eqn:Ep.
  - destruct (getUserByEmail email) as [[user|]|] eqn:Eu.
    + destruct (comparePassword password (user_password user)) eqn:Ec;
        cbn [negb reply code content calls].
      * split; [|split].
        -- split; [|done]. intros _. by exists email, password, user.
        -- done.
        -- intros call ->%list_elem_of_singleton. by eexists.
      * split; [|split].
        -- split; [done|]. intros (e & p & u & [= <- <-] & Hu & Hc & _).
           rewrite Eu in Hu. injection Hu as <-. congruence.
        -- done.
        -- intros call ->%list_elem_of_singleton. by eexists.
    + cbn [reply code content calls]. split; [|split].
      * split; [done|]. intros (e & p & u & [= <- <-] & Hu & _). congruence.
      * done.
      * intros call ->%list_elem_of_singleton. by eexists.
    + cbn [reply code content calls]. split; [|split].
      * split; [done|]. intros (e & p & u & [= <- <-] & Hu & _). congruence.
      * done.
      * intros call ->%list_elem_of_singleton. by eexists.
  - cbn [reply code content calls]. split; [|split].
    + split; [done|]. by intros (e & p & u & [=] & _).
    + done.
    + by intros call ?%elem_of_nil.
Qed.

(** X22. A registration stores a user only for a well-formed body whose
    email no user has yet, and what it stores is the body with the
    password replaced by its hash; an email that is taken is answered 400
    after the lookup alone. *)
Theorem register_stores_the_hash (req : ApiRequest Raw) :
  (forall insertUser, CreateUser insertUser ∈ calls (register req) ->
     exists userData,
       parseUser (req_body req) = Some userData /\
       getUserByEmail (new_email userData) = Some None /\
       insertUser = withPassword userData (hashPassword (new_password userData))) /\
  (forall userData existingUser,
     parseUser (req_body req) = Some userData ->
     getUserByEmail (new_email userData) = Some (Some existingUser) ->
     register req
     = answer 400 (Msg "El usuario ya existe con este email")
              [GetUserByEmail (new_email userData)]).
Proof.
  unfold register, session, answer. split.
  - intros insertUser Hin.
    destruct (parseUser (req_body req)) as [userData|] eqn:Ep;
      [|by apply elem_of_nil in Hin].
    destruct (getUserByEmail (new_email userData)) as [[user|]|] eqn:Eu;
      cbn [calls] in Hin.
    + by apply list_elem_of_singleton in Hin.
    + exists userData. split; [done|]. split; [done|].
      destruct (createUser _); cbn [calls] in Hin;
        apply elem_of_cons in Hin as [[=]|Hin];
        apply list_elem_of_singleton in Hin; by injection Hin.
    + by apply list_elem_of_singleton in Hin.
  - intros userData existingUser -> ->. done.
Qed.

(** X23. Every reply is one of 200, 201, 400, 401, 403, 404 and 500, and
    a route answers 500 exactly when the storage layer rejected the last
    call it made. *)
Theorem server_errors_are_storage_errors (route : Route) (req : ApiRequest Raw) :
  In (code (reply (handle route req))) [200; 201; 400; 401; 403; 404; 500]%nat /\
  (code (reply (handle route req)) = 500%nat <->
   exists call, last (calls (handle route req)) = Some call /\ rejected call = true).
Proof.
  destruct route; route_cases; cbn [last In];
    (split; [repeat first [by left | right]|]);
    (split;
     [intros Hc;
      first [discriminate Hc
            | eexists; split; [done|]; cbn [rejected]; by apply bool_decide_eq_true]
     |intros (call & Hl & Hrej);
      first [discriminate Hl
            | done
            | injection Hl as <-; cbn [rejected] in Hrej;
              apply bool_decide_eq_true in Hrej; congruence]]).
Qed.

End Routes.

Section Examples.
Import ServerExamples ApiExamples.

Lemma unverified_requests_touch_nothing_witness :
  handle (E := exampleEnv) RemoveNotification (apiRequest "u1" None "")
  = answer 401 (Msg "Token de acceso requerido") [].
Proof.
  apply (proj1 (unverified_requests_touch_nothing (E := exampleEnv)
                  RemoveNotification (apiRequest "u1" None ""))); reflexivity.
Defined.

Lemma owner_routes_serve_the_owner_witness :
  handle (E := exampleEnv) PostNotification
         (apiRequest "u1" (Some "Bearer u2"%string) "hello")
  = answer 403 (Msg "No autorizado") [].
Proof.
  apply (proj2 (owner_routes_serve_the_owner (E := exampleEnv) PostNotification
                  (apiRequest "u1" (Some "Bearer u2"%string) "hello")
                  (or_introl eq_refl)) eq_refl "u2"%string eq_refl).
  discriminate.
Defined.

Lemma unchecked_routes_ignore_the_user_witness :
  handle (E := exampleEnv) RemoveNotification
         (apiRequest "u1" (Some "Bearer u2"%string) "")
  = handle (E := exampleEnv) RemoveNotification
           (apiRequest "u1" (Some "Bearer u1"%string) "").
Proof.
  apply (unchecked_routes_ignore_the_user (E := exampleEnv) RemoveNotification);
    try reflexivity.
  - do 4 right. by left.
  - by eexists.
  - by eexists.
Defined.

Lemma login_outcome_witness :
  content (reply (login (E := exampleEnv) (apiRequest "" None "ana@example.com")))
  = Msg "Credenciales inválidas".
Proof.
  apply (proj1 (proj2 (login_outcome (E := exampleEnv)
                         (apiRequest "" None "ana@example.com")))).
  reflexivity.
Defined.

Lemma register_stores_the_hash_witness :
  register (E := exampleEnv) (apiRequest "" None "ana@example.com")
  = answer 400 (Msg "El usuario ya existe con este email")
           [GetUserByEmail "ana@example.com"].
Proof.
  apply (proj2 (register_stores_the_hash (E := exampleEnv)
                  (apiRequest "" None "ana@example.com"))
               {| new_username := "ana@example.com"; new_email := "ana@example.com";
                  new_password := "secret1"; new_companyName := "SRL";
                  new_taxId := None; new_preferredCurrency := None |}
               ana); reflexivity.
Defined.

Lemma server_errors_are_storage_errors_witness :
  code (reply (handle (E := exampleEnv) Register (apiRequest "" None "bea@example.com")))
  <> 500%nat.
Proof.
  intros H.
  apply (proj1 (proj2 (server_errors_are_storage_errors (E := exampleEnv) Register
                         (apiRequest "" None "bea@example.com")))) in H.
  destruct H as (call & Hl & Hrej). vm_compute in Hl. injection Hl as <-.
  vm_compute in Hrej. discriminate.
Defined.

End Examples.

End ApiFacts.

(** ** The report windows *)

Module ReportCardFacts.
Import Calendar CalendarFacts ReportCard.

Lemma newDate_plain year month date :
  ~ (0 <= year <= 99) -> newDate year month date = MakeDate (MakeDay year month date) 0.
Proof.
  intros Hy. unfold newDate.
  destruct ((0 <=? year) && (year <=? 99)) eqn:E; [|done].
  apply andb_true_iff in E as [?%Z.leb_le ?%Z.leb_le]. lia.
Qed.

Lemma MakeDay_date y m d : MakeDay y m d = MakeDay y m 0 + d.
Proof. unfold MakeDay. ring. Qed.

Lemma MakeDay_year_end y : MakeDay y 11 31 = MakeDay (y + 1) 0 1 - 1.
Proof.
  unfold MakeDay. replace (y + 11 / 12) with y by zdiv.
  replace (y + 1 + 0 / 12) with (y + 1) by zdiv.
  replace (11 mod 12) with 11 by zdiv. replace (0 mod 12) with 0 by zdiv.
  rewrite DayFromYear_succ. unfold DaysInYear, daysBeforeMonth, leapDay. cbn.
  destruct (isLeap y), (isLeap (y + 1)); lia.
Qed.

Section Windows.
Context {RT : Runtime}.

(** X24. For each kind of report, and a current year outside 0 to 100,
    the current window starts exactly one day after the previous window
    ends: a transaction dated strictly between them, on a whole day but
    for its ends, is in neither report. *)
Theorem report_windows_leave_a_gap (now : Z) (defaultPeriod : DefaultPeriod)
    (startDate endDate : option Z) (transactions : list Transaction) :
  ~ (0 <= getFullYear now <= 100) ->
  let current := getDateRange now defaultPeriod "current" startDate endDate in
  let previous := getDateRange now defaultPeriod "previous" startDate endDate in
  range_start current = range_end previous + msPerDay /\
  forall tx t, parseDate (tx_date tx) = Some t ->
    range_end previous < t < range_start current ->
    ~ In tx (getFilteredTransactions current transactions) /\
    ~ In tx (getFilteredTransactions previous transactions).
Proof.
  intros Hy current previous.
  assert (Hgap : range_start current = range_end previous + msPerDay).
  { subst current previous. unfold getDateRange.
    cbn [String.eqb Ascii.eqb Bool.eqb].
    destruct defaultPeriod; cbn [range_start range_end].
    - rewrite !newDate_plain by lia. rewrite (MakeDay_date _ _ 1).
      unfold MakeDate, msPerDay. lia.
    - replace (getDate now - getDay now - 7)
        with (getDate now + (- getDay now - 7)) by lia.
      replace (getDate now - getDay now) with (getDate now + - getDay now) by lia.
      rewrite (setDate_shift (setDate now _) 6).
      rewrite !setDate_shift. unfold msPerDay. lia.
    - rewrite !newDate_plain by lia. rewrite (MakeDay_date _ _ 1).
      unfold MakeDate, msPerDay. lia.
    - rewrite !newDate_plain by lia.
      rewrite (MakeDay_year_end (getFullYear now - 1)).
      replace (getFullYear now - 1 + 1) with (getFullYear now) by lia.
      unfold MakeDate, msPerDay. lia. }
  split; [done|]. intros tx t Hd Ht.
  unfold getFilteredTransactions. rewrite !filter_In, Hd. cbn [dateGe dateLe].
  rewrite !andb_true_iff, !Z.leb_le. lia.
Qed.

End Windows.

Lemma report_windows_leave_a_gap_witness :
  range_start (getDateRange exampleNow monthly "current" None None)
  = range_end (getDateRange exampleNow monthly "previous" None None) + msPerDay.
Proof.
  apply (report_windows_leave_a_gap (RT := Ref.refRuntime) exampleNow monthly
           None None []).
  vm_compute. intros [_ H]. by apply H.
Defined.

End ReportCardFacts.

(** ** The token of a request *)

Module TokenFacts.
Import Server.

Lemma string_app_nil_r (s : string) : (s ++ EmptyString)%string = s.
Proof.
  induction s as [|c s IH]; [done|].
  change (String c s +:+ EmptyString)%string with (String c (s +:+ EmptyString)).
  by rewrite IH.
Qed.

Lemma string_app_assoc (a b c : string) :
  ((a ++ b) ++ c)%string = (a ++ (b ++ c))%string.
Proof.
  induction a as [|x a IH]; [done|].
  change (String x a +:+ b)%string with (String x (a +:+ b)).
  change (String x (a +:+ b) +:+ c)%string with (String x ((a +:+ b) +:+ c)).
  change (String x a +:+ (b +:+ c))%string with (String x (a +:+ (b +:+ c))).
  by rewrite IH.
Qed.

Lemma split_space_aux_word (cur s : string) :
  noSpace s = true -> split_space_aux cur s = [(cur ++ s)%string].
Proof.
  revert cur. induction s as [|c s IH]; intros cur Hs.
  - cbn. by rewrite string_app_nil_r.
  - unfold noSpace in Hs. cbn [list_ascii_of_string forallb] in Hs.
    apply andb_true_iff in Hs as [Hc Hs]. apply negb_true_iff in Hc.
    cbn [split_space_aux]. rewrite Hc, (IH _ Hs).
    by rewrite string_app_assoc.
Qed.

Lemma split_space_aux_words (cur a b : string) :
  noSpace a = true ->
  split_space_aux cur (a ++ String " " b)%string
  = (cur ++ a)%string :: split_space_aux EmptyString b.
Proof.
  revert cur. induction a as [|c a IH]; intros cur Ha.
  - change (EmptyString +:+ String " " b)%string with (String " " b).
    cbn [split_space_aux]. change (Ascii.eqb " " " ") with true. cbv iota.
    by rewrite string_app_nil_r.
  - unfold noSpace in Ha. cbn [list_ascii_of_string forallb] in Ha.
    apply andb_true_iff in Ha as [Hc Ha]. apply negb_true_iff in Hc.
    change (String c a +:+ String " " b)%string with (String c (a +:+ String " " b)).
    cbn [split_space_aux]. rewrite Hc, (IH _ Ha).
    by rewrite string_app_assoc.
Qed.

(** X25. The token read off a header is its second word, whatever the
    first word is and whatever follows the second: the scheme is not
    looked at.  A header of one word, or whose second word is empty,
    carries no token. *)
Theorem bearerToken_is_the_second_word (scheme token rest : string) :
  noSpace scheme = true -> noSpace token = true ->
  bearerToken (Some (scheme ++ String " " token)%string)
  = (if token is EmptyString then None else Some token) /\
  bearerToken (Some (scheme ++ String " " (token ++ String " " rest))%string)
  = (if token is EmptyString then None else Some token) /\
  bearerToken (Some scheme) = None.
Proof.
  intros Hs Ht. unfold bearerToken, split_space. split; [|split].
  - rewrite (split_space_aux_words _ _ _ Hs), (split_space_aux_word _ _ Ht).
    cbn [nth_error]. change (EmptyString +:+ token)%string with token.
    destruct (scheme +:+ String " " token)%string eqn:E.
    + by destruct scheme.
    + by destruct token.
  - rewrite (split_space_aux_words _ _ _ Hs), (split_space_aux_words _ _ _ Ht).
    cbn [nth_error]. change (EmptyString +:+ token)%string with token.
    destruct (scheme +:+ String " " (token +:+ String " " rest))%string eqn:E.
    + by destruct scheme.
    + by destruct token.
  - rewrite (split_space_aux_word _ _ Hs). by destruct scheme.
Qed.

Lemma bearerToken_is_the_second_word_witness :
  bearerToken (Some "Basic abc.def"%string) = Some "abc.def"%string.
Proof.
  apply (proj1 (bearerToken_is_the_second_word "Basic" "abc.def" "" eq_refl eq_refl)).
Defined.

Section Reads.
Context {Data : Type} {B : Backend Data}.

(** X26. The reads behind [optionalAuth], that is the dashboard, the
    transactions, the insights and the projections of a user, answer the
    same to every caller: two requests for the same user and limit get
    the same reply whatever their headers, and never a 401 or a 403. *)
Theorem open_reads_ignore_the_caller (r : Resource) (req req' : AuthRequest) :
  r <> Notifications ->
  param_userId req' = param_userId req ->
  query_limit req' = query_limit req ->
  handleGet r req' = handleGet r req /\
  (status (handleGet r req) = 200%nat \/ status (handleGet r req) = 500%nat).
Proof.
  intros Hr Hu Hl.
  assert (Hvia : forall handler : AuthRequest -> Response Data,
            (forall a b, param_userId a = param_userId b ->
                         query_limit a = query_limit b -> handler a = handler b) ->
            via optionalAuth handler req' = via optionalAuth handler req).
  { intros handler Hh. unfold via, optionalAuth.
    destruct (bearerToken (authorization req')) as [t'|];
      [destruct (verifyToken t')|];
      (destruct (bearerToken (authorization req)) as [t|];
        [destruct (verifyToken t)|]); by apply Hh. }
  assert (Hst : forall handler : AuthRequest -> Response Data,
            (forall a, status (handler a) = 200%nat \/ status (handler a) = 500%nat) ->
            status (via optionalAuth handler req) = 200%nat
            \/ status (via optionalAuth handler req) = 500%nat).
  { intros handler Hh. unfold via, optionalAuth.
    destruct (bearerToken (authorization req)) as [t|];
      [destruct (verifyToken t)|]; apply Hh. }
  destruct r; try done; cbn [handleGet]; (split; [apply Hvia|apply Hst]);
    try (intros a b Ha Hb; by rewrite Ha, ?Hb);
    intros a; unfold jsonOr500; case_match; auto.
Qed.

End Reads.

Lemma open_reads_ignore_the_caller_witness :
  handleGet (B := ServerExamples.trustingBackend) Transactions
    (ServerExamples.requestFor "u1" (Some "Bearer u2"%string))
  = handleGet (B := ServerExamples.trustingBackend) Transactions
      (ServerExamples.requestFor "u1" None).
Proof.
  apply (open_reads_ignore_the_caller (B := ServerExamples.trustingBackend)
           Transactions); done.
Defined.

End TokenFacts.

(** ** The series of the real-data chart *)

Module ChartSeriesFacts.
Import RealDataChart RealDataChartFacts.

Lemma series_from_lengths c ps :
  length (incomeData (series_from c ps)) = length ps /\
  length (expenseData (series_from c ps)) = length ps /\
  length (netData (series_from c ps)) = length ps /\
  length (cumulativeData (series_from c ps)) = length ps.
Proof.
  revert c. induction ps as [|p ps IH]; intros c; [done|].
  cbn [series_from incomeData expenseData netData cumulativeData length].
  destruct (IH (jadd c (jsub (p_income p) (p_expense p)))) as (-> & -> & -> & ->).
  done.
Qed.

Lemma series_from_running c ps i :
  (i < length ps)%nat ->
  cumulativeData (series_from c ps) !! i
  = Some (fold_left jadd (take (S i) (netData (series_from c ps))) c) /\
  netData (series_from c ps) !! i
  = (fun p => (p_income p - p_expense p)%js) <$> ps !! i.
Proof.
  revert c i. induction ps as [|p ps IH]; intros c i Hi; [cbn in Hi; lia|].
  cbn [series_from cumulativeData netData].
  destruct i as [|i]; [done|].
  cbn [length] in Hi. cbn [lookup list_lookup take fold_left].
  apply IH. lia.
Qed.

Section Series.
Context {RT : Runtime}.

(** X27. The four series of the chart have one entry per bucket; each
    net entry is the income less the expense of its bucket, and each
    cumulative entry is the sum of the net entries up to and including
    its own, taken from the left. *)
Theorem cumulative_is_the_running_total (now : Z) (timeRange : TimeRange)
    (transactions : list Transaction) :
  let s := chartSeries now timeRange transactions in
  length (incomeData s) = periods timeRange /\
  length (expenseData s) = periods timeRange /\
  length (netData s) = periods timeRange /\
  length (cumulativeData s) = periods timeRange /\
  forall i, (i < periods timeRange)%nat ->
    cumulativeData s !! i = Some (jsum (take (S i) (netData s))) /\
    exists inc exp,
      incomeData s !! i = Some inc /\ expenseData s !! i = Some exp /\
      netData s !! i = Some (inc - exp)%js.
Proof.
  intros s. subst s. unfold chartSeries.
  set (ps := sortedPeriods (periodData now timeRange transactions)).
  assert (Hlen : length ps = periods timeRange).
  { subst ps. unfold sortedPeriods. rewrite merge_sort_Permutation.
    unfold periodData. by rewrite fold_step_length, initPeriods_length. }
  destruct (series_from_lengths (jofZ 0) ps) as (H1 & H2 & H3 & H4).
  rewrite H1, H2, H3, H4, Hlen. repeat (split; [done|]).
  intros i Hi. rewrite <- Hlen in Hi.
  destruct (series_from_running (jofZ 0) ps i Hi) as [Hc Hn].
  split; [exact Hc|].
  destruct (series_from_incomeData (jofZ 0) ps) as [Ei Ee].
  destruct (lookup_lt_is_Some_2 ps i Hi) as [p Hp].
  exists (p_income p), (p_expense p). rewrite Ei, Ee, Hn.
  change (map ?f ps) with (f <$> ps). by rewrite !list_lookup_fmap, Hp.
Qed.

End Series.

Lemma cumulative_is_the_running_total_witness :
  length (cumulativeData
            (chartSeries (RT := Ref.refRuntime) exampleNow RealDataChart.weekly
                         januaryTransactions)) = 8%nat.
Proof.
  apply (cumulative_is_the_running_total (RT := Ref.refRuntime) exampleNow
           RealDataChart.weekly januaryTransactions).
Defined.

End ChartSeriesFacts.

(** ** Binary64 arithmetic *)

Module Binary64Facts.
Import Binary64.

Lemma Qc_of_Z_pos (z : Z) : 0 < z -> (0 < Qc_of_Z z)%Qc.
Proof. intros Hz. rewrite <- Z2Qc_inj_0. by apply (proj1 (Z2Qc_inj_lt _ _)). Qed.

Lemma pow2_nonneg (k : Z) : 0 <= k -> pow2 k = Qc_of_Z (2 ^ k).
Proof. intros Hk. unfold pow2. by rewrite (proj2 (Z.leb_le 0 k) Hk). Qed.

Lemma pow2_neg (k : Z) : k < 0 -> pow2 k = (/ Qc_of_Z (2 ^ (- k)))%Qc.
Proof. intros Hk. unfold pow2. by rewrite (proj2 (Z.leb_gt 0 k) Hk). Qed.

Lemma pow2_pos (k : Z) : (0 < pow2 k)%Qc.
Proof.
  destruct (Z_le_gt_dec 0 k) as [Hk|Hk].
  - rewrite pow2_nonneg by done. apply Qc_of_Z_pos. apply Z.pow_pos_nonneg; lia.
  - rewrite pow2_neg by lia. apply Qcinv_pos, Qc_of_Z_pos.
    apply Z.pow_pos_nonneg; lia.
Qed.

Lemma pow2_nonzero (k : Z) : pow2 k <> 0%Qc.
Proof.
  intros E. pose proof (pow2_pos k) as H. rewrite E in H.
  by apply (Qclt_not_le _ _ H), Qcle_refl.
Qed.

(** [pow2 k] scaled up to a power of two with a natural exponent. *)
Lemma pow2_scaled (k n : Z) :
  0 <= n -> 0 <= k + n -> (pow2 k * Qc_of_Z (2 ^ n) = Qc_of_Z (2 ^ (k + n)))%Qc.
Proof.
  intros Hn Hkn. destruct (Z_le_gt_dec 0 k) as [Hk|Hk].
  - rewrite pow2_nonneg by done. by rewrite <- Z2Qc_inj_mul, <- Z.pow_add_r.
  - rewrite pow2_neg by lia.
    replace n with (- k + (k + n)) at 1 by lia.
    rewrite Z.pow_add_r, Z2Qc_inj_mul by lia.
    field. apply Qc_of_Z_nonzero. apply Z.pow_nonzero; lia.
Qed.

Lemma pow2_add (a b : Z) : (pow2 (a + b) = pow2 a * pow2 b)%Qc.
Proof.
  set (n := Z.abs a + Z.abs b).
  set (c := Qc_of_Z (2 ^ n)).
  assert (Hc : c <> 0%Qc) by (apply Qc_of_Z_nonzero, Z.pow_nonzero; lia).
  assert (E : (pow2 (a + b) * (c * c) = pow2 a * pow2 b * (c * c))%Qc).
  { transitivity (Qc_of_Z (2 ^ (a + b + (n + n)))).
    - subst c. rewrite <- Z2Qc_inj_mul, <- Z.pow_add_r by lia.
      apply pow2_scaled; lia.
    - transitivity ((pow2 a * c) * (pow2 b * c))%Qc; [|ring].
      subst c. rewrite !pow2_scaled by lia.
      rewrite <- Z2Qc_inj_mul, <- Z.pow_add_r by lia. f_equal. f_equal. lia. }
  transitivity (pow2 (a + b) * (c * c) * / (c * c))%Qc; [by field|].
  rewrite E. by field.
Qed.

Lemma pow2_0 : pow2 0 = 1%Qc.
Proof. rewrite pow2_nonneg by done. apply Z2Qc_inj_1. Qed.

Lemma pow2_opp (k : Z) : (pow2 (- k) = / pow2 k)%Qc.
Proof.
  assert (E : (pow2 (- k) * pow2 k = 1)%Qc).
  { rewrite <- pow2_add. replace (- k + k) with 0 by lia. apply pow2_0. }
  transitivity (pow2 (- k) * pow2 k * / pow2 k)%Qc.
  - field. apply pow2_nonzero.
  - rewrite E. ring.
Qed.

Lemma pow2_ge_1 (k : Z) : 0 <= k -> (1 <= pow2 k)%Qc.
Proof.
  intros Hk. rewrite pow2_nonneg by done. rewrite <- Z2Qc_inj_1.
  apply (proj1 (Z2Qc_inj_le _ _)). pose proof (Z.pow_pos_nonneg 2 k). lia.
Qed.

Lemma pow2_gt_1 (k : Z) : 0 < k -> (1 < pow2 k)%Qc.
Proof.
  intros Hk. rewrite pow2_nonneg by lia. rewrite <- Z2Qc_inj_1.
  apply (proj1 (Z2Qc_inj_lt _ _)). apply Z.pow_gt_1; lia.
Qed.

Lemma pow2_le_mono (a b : Z) : a <= b -> (pow2 a <= pow2 b)%Qc.
Proof.
  intros Hab. replace b with (a + (b - a)) by lia. rewrite pow2_add.
  rewrite <- (Qcmult_1_r (pow2 a)) at 1.
  apply Qcmult_le_mono_nonneg_l; [apply Qclt_le_weak, pow2_pos|].
  apply pow2_ge_1. lia.
Qed.

Lemma pow2_lt_mono (a b : Z) : a < b -> (pow2 a < pow2 b)%Qc.
Proof.
  intros Hab. replace b with (a + (b - a)) by lia. rewrite pow2_add.
  rewrite <- (Qcmult_1_r (pow2 a)) at 1.
  apply Qcmult_lt_mono_pos_l; [apply pow2_pos|].
  apply pow2_gt_1. lia.
Qed.

Lemma pow2_lt_inv (a b : Z) : (pow2 a < pow2 b)%Qc -> a < b.
Proof.
  intros H. destruct (Z_lt_le_dec a b) as [Hab|Hab]; [done|].
  exfalso. apply (Qclt_not_le _ _ H). by apply pow2_le_mono.
Qed.

Lemma pow2_double (k : Z) : (pow2 (k - 1) + pow2 (k - 1) = pow2 k)%Qc.
Proof.
  replace k with (1 + (k - 1)) at 3 by lia. rewrite pow2_add.
  rewrite (pow2_nonneg 1) by done. change (2 ^ 1) with 2.
  rewrite Z2Qc_inj_2. ring.
Qed.

(** A rational is its numerator over its denominator. *)
Lemma Qc_num_den (x : Qc) :
  x = (Qc_of_Z (Qnum x) / Qc_of_Z (Zpos (Qden x)))%Qc.
Proof.
  apply Qc_is_canon. destruct x as [[n d] Hx]. cbn [this Qnum Qden].
  unfold Qcdiv, Qcmult, Qcinv, Qc_of_Z, Q2Qc. cbn [this].
  rewrite !Qred_correct. apply Qmake_Qdiv.
Qed.

Lemma Qc_num_pos (x : Qc) : (0 < x)%Qc -> 0 < Qnum x.
Proof.
  destruct x as [[n d] Hx]. unfold Qclt, Qlt. cbn [this Qnum Qden].
  change (Qnum (this 0%Qc)) with 0. change (QDen (this 0%Qc)) with 1. lia.
Qed.

Lemma Qc_div_lt (p d a : Qc) : (0 < d)%Qc -> (p < a * d)%Qc -> (p / d < a)%Qc.
Proof.
  intros Hd H. apply (Qcmult_lt_mono_pos_r _ _ d Hd).
  replace (p / d * d)%Qc with p; [done|].
  field. intros E. rewrite E in Hd. by apply (Qclt_not_le _ _ Hd), Qcle_refl.
Qed.

Lemma Qc_lt_div (p d a : Qc) : (0 < d)%Qc -> (a * d < p)%Qc -> (a < p / d)%Qc.
Proof.
  intros Hd H. apply (Qcmult_lt_mono_pos_r _ _ d Hd).
  replace (p / d * d)%Qc with p; [done|].
  field. intros E. rewrite E in Hd. by apply (Qclt_not_le _ _ Hd), Qcle_refl.
Qed.

Lemma Qc_le_div (p d a : Qc) : (0 < d)%Qc -> (a * d <= p)%Qc -> (a <= p / d)%Qc.
Proof.
  intros Hd H. apply (Qcmult_le_mono_pos_r _ _ d Hd).
  replace (p / d * d)%Qc with p; [done|].
  field. intros E. rewrite E in Hd. by apply (Qclt_not_le _ _ Hd), Qcle_refl.
Qed.

Lemma Qc_div_le (p d a : Qc) : (0 < d)%Qc -> (p <= a * d)%Qc -> (p / d <= a)%Qc.
Proof.
  intros Hd H. apply (Qcmult_le_mono_pos_r _ _ d Hd).
  replace (p / d * d)%Qc with p; [done|].
  field. intros E. rewrite E in Hd. by apply (Qclt_not_le _ _ Hd), Qcle_refl.
Qed.

Lemma log2_bounds (p : Z) :
  0 < p ->
  (pow2 (Z.log2 p) <= Qc_of_Z p)%Qc /\ (Qc_of_Z p < pow2 (Z.log2 p + 1))%Qc.
Proof.
  intros Hp. pose proof (Z.log2_spec p Hp) as [H1 H2].
  pose proof (Z.log2_nonneg p) as H0.
  rewrite !pow2_nonneg by lia. split.
  - by apply (proj1 (Z2Qc_inj_le _ _)).
  - apply (proj1 (Z2Qc_inj_lt _ _)). by rewrite <- Z.add_1_r in H2.
Qed.

Lemma magnitude_spec (x : Qc) :
  (0 < x)%Qc ->
  (pow2 (magnitude x) <= x)%Qc /\ (x < pow2 (magnitude x + 1))%Qc.
Proof.
  intros Hx. unfold magnitude.
  set (p := Qnum x). set (d := Zpos (Qden x)).
  set (l := Z.log2 p - Z.log2 d).
  assert (Hp : 0 < p) by (by apply Qc_num_pos).
  assert (Hd : 0 < d) by done.
  destruct (log2_bounds p Hp) as [Hp1 Hp2].
  destruct (log2_bounds d Hd) as [Hd1 Hd2].
  assert (HD : (0 < Qc_of_Z d)%Qc) by (by apply Qc_of_Z_pos).
  assert (Ex : x = (Qc_of_Z p / Qc_of_Z d)%Qc) by apply Qc_num_den.
  assert (Hlo : (pow2 (l - 1) < x)%Qc).
  { rewrite Ex. apply Qc_lt_div; [done|].
    eapply Qclt_le_trans; [|exact Hp1].
    replace (Z.log2 p) with (l - 1 + (Z.log2 d + 1)) by lia.
    rewrite pow2_add. apply Qcmult_lt_mono_pos_l; [apply pow2_pos|done]. }
  assert (Hhi : (x < pow2 (l + 1))%Qc).
  { rewrite Ex. apply Qc_div_lt; [done|].
    eapply Qclt_le_trans; [exact Hp2|].
    replace (Z.log2 p + 1) with (l + 1 + Z.log2 d) by lia.
    rewrite pow2_add. apply Qcmult_le_mono_nonneg_l; [apply Qclt_le_weak, pow2_pos|done]. }
  destruct (x ?= pow2 l)%Qc eqn:E.
  - apply Qceq_alt in E. split; [rewrite <- E; apply Qcle_refl|done].
  - apply Qclt_alt in E. split; [by apply Qclt_le_weak|].
    by replace (l - 1 + 1) with l by lia.
  - apply Qcgt_alt in E. split; [by apply Qclt_le_weak|done].
Qed.


Lemma pow2_half : pow2 (-1) = (/ Qc_of_Z 2)%Qc.
Proof. by rewrite pow2_neg. Qed.

Lemma nearestEven_cases (n d : Z) :
  0 < d ->
  let f := n / d in
  let k := match 2 * (n mod d) ?= d with
           | Lt => f
           | Gt => f + 1
           | Eq => if Z.even f then f else f + 1
           end in
  (2 * k - 1) * d <= 2 * n <= (2 * k + 1) * d.
Proof.
  intros Hd f k.
  pose proof (Z.div_mod n d ltac:(lia)) as Hdm.
  pose proof (Z.mod_pos_bound n d Hd) as Hm.
  fold f in Hdm. subst k. set (r := n mod d) in *. clearbody f r.
  destruct (Z.compare_spec (2 * r) d) as [E|E|E].
  - destruct (Z.even f); rewrite Hdm; split; ring_simplify; lia.
  - rewrite Hdm; split; ring_simplify; lia.
  - rewrite Hdm; split; ring_simplify; lia.
Qed.

Lemma nearestEven_spec (m : Qc) :
  (Qcabs (Qc_of_Z (nearestEven m) - m) <= pow2 (-1))%Qc.
Proof.
  pose proof (nearestEven_cases (Qnum m) (Zpos (Qden m)) eq_refl) as H.
  cbv zeta in H. fold (nearestEven m) in H.
  set (k := nearestEven m) in *. destruct H as [H1 H2].
  set (n := Qnum m) in *. set (d := Zpos (Qden m)) in *.
  assert (HD : (0 < Qc_of_Z d)%Qc) by (by apply Qc_of_Z_pos).
  assert (H2D : (0 < Qc_of_Z 2 * Qc_of_Z d)%Qc).
  { apply Qcmult_pos_pos; [by apply Qc_of_Z_pos|done]. }
  assert (HDne : Qc_of_Z d <> 0%Qc) by (by apply Qc_of_Z_nonzero).
  assert (H2ne : Qc_of_Z 2 <> 0%Qc) by (by apply Qc_of_Z_nonzero).
  assert (Em : m = (Qc_of_Z n / Qc_of_Z d)%Qc) by apply Qc_num_den.
  rewrite pow2_half. apply Qcabs_diff_Qcle_condition. split.
  - apply (Qcmult_le_mono_pos_r _ _ _ H2D).
    replace ((Qc_of_Z k - / Qc_of_Z 2) * (Qc_of_Z 2 * Qc_of_Z d))%Qc
      with (Qc_of_Z ((2 * k - 1) * d)).
    2:{ rewrite Z2Qc_inj_mul, Z2Qc_inj_sub, Z2Qc_inj_mul, Z2Qc_inj_1. by field. }
    replace (m * (Qc_of_Z 2 * Qc_of_Z d))%Qc with (Qc_of_Z (2 * n)).
    2:{ rewrite Em at 1. rewrite Z2Qc_inj_mul. by field. }
    by apply (proj1 (Z2Qc_inj_le _ _)).
  - apply (Qcmult_le_mono_pos_r _ _ _ H2D).
    replace ((Qc_of_Z k + / Qc_of_Z 2) * (Qc_of_Z 2 * Qc_of_Z d))%Qc
      with (Qc_of_Z ((2 * k + 1) * d)).
    2:{ rewrite Z2Qc_inj_mul, Z2Qc_inj_add, Z2Qc_inj_mul, Z2Qc_inj_1. by field. }
    replace (m * (Qc_of_Z 2 * Qc_of_Z d))%Qc with (Qc_of_Z (2 * n)).
    2:{ rewrite Em at 1. rewrite Z2Qc_inj_mul. by field. }
    by apply (proj1 (Z2Qc_inj_le _ _)).
Qed.

Lemma Qcabs_pos_nonzero (x : Qc) : x <> 0%Qc -> (0 < Qcabs x)%Qc.
Proof.
  intros Hx. destruct (Qcle_lt_or_eq _ _ (Qcabs_nonneg x)) as [H|H]; [done|].
  symmetry in H. by apply Qcabs_null in H.
Qed.

Lemma Qc_pos_nonzero (x : Qc) : (0 < x)%Qc -> x <> 0%Qc.
Proof. intros H E. rewrite E in H. by apply (Qclt_not_le _ _ H), Qcle_refl. Qed.

(** The rounded magnitude is within half a unit in the last place. *)
Lemma roundedMagnitude_error (x : Qc) :
  (Qcabs (roundedMagnitude x - Qcabs x) <= pow2 (ulpExponent x - 1))%Qc.
Proof.
  unfold roundedMagnitude. cbv zeta.
  set (q := ulpExponent x). set (t := pow2 q). set (X := Qcabs x).
  set (K := Qc_of_Z (nearestEven (X / t))).
  assert (Ht : (0 < t)%Qc) by apply pow2_pos.
  assert (Htne : t <> 0%Qc) by (by apply Qc_pos_nonzero).
  replace (K * t - X)%Qc with ((K - X / t) * t)%Qc by (by field).
  rewrite Qcabs_Qcmult, (Qcabs_pos t) by (by apply Qclt_le_weak).
  replace (q - 1) with (-1 + q) by lia. rewrite pow2_add. fold t.
  apply Qcmult_le_mono_nonneg_r; [by apply Qclt_le_weak|].
  apply nearestEven_spec.
Qed.

Lemma round64_nonzero (x : Qc) :
  x <> 0%Qc -> (roundedMagnitude x < pow2 1024)%Qc ->
  exists y, round64 x = Fin y /\
    Qcabs (y - x) = Qcabs (roundedMagnitude x - Qcabs x).
Proof.
  intros Hx Hv.
  assert (Hc : (roundedMagnitude x ?= pow2 1024)%Qc = Lt)
    by (by apply (proj1 (Qclt_alt _ _))).
  unfold round64. cbv zeta. rewrite Hc.
  unfold jsgn. destruct (x ?= 0)%Qc eqn:E.
  - by apply Qceq_alt in E.
  - apply Qclt_alt in E. eexists. split; [done|].
    rewrite (Qcabs_neg x) by (by apply Qclt_le_weak).
    rewrite <- Qcabs_opp. f_equal. ring.
  - apply Qcgt_alt in E. eexists. split; [done|].
    by rewrite (Qcabs_pos x) by (by apply Qclt_le_weak).
Qed.

(** Within the range of the normal doubles, rounding is off by at most
    [2^-53] of the magnitude. *)
Lemma round64_error (x : Qc) :
  (pow2 (-1022) <= Qcabs x)%Qc -> (Qcabs x <= pow2 1023)%Qc ->
  exists y, round64 x = Fin y /\ (Qcabs (y - x) <= pow2 (-53) * Qcabs x)%Qc.
Proof.
  intros Hlo Hhi.
  assert (HX : (0 < Qcabs x)%Qc).
  { eapply Qclt_le_trans; [apply (pow2_pos (-1022))|done]. }
  assert (Hx : x <> 0%Qc).
  { intros E. rewrite E in HX. by apply (Qclt_not_le _ _ HX). }
  destruct (magnitude_spec (Qcabs x) HX) as [He1 He2].
  set (e := magnitude (Qcabs x)) in *.
  assert (Hemin : -1022 <= e).
  { assert (-1022 < e + 1); [|lia]. apply pow2_lt_inv.
    by eapply Qcle_lt_trans. }
  assert (Hemax : e <= 1023).
  { assert (e < 1024); [|lia]. apply pow2_lt_inv.
    eapply Qcle_lt_trans; [exact He1|].
    eapply Qcle_lt_trans; [exact Hhi|]. by apply pow2_lt_mono. }
  assert (Hq : ulpExponent x = e - 52).
  { unfold ulpExponent. fold e. lia. }
  pose proof (roundedMagnitude_error x) as Herr. rewrite Hq in Herr.
  assert (Hbound : (pow2 (e - 52 - 1) <= pow2 (-53) * Qcabs x)%Qc).
  { replace (e - 52 - 1) with (-53 + e) by lia. rewrite pow2_add.
    apply Qcmult_le_mono_nonneg_l; [apply Qclt_le_weak, pow2_pos|done]. }
  assert (Hv : (roundedMagnitude x < pow2 1024)%Qc).
  { apply Qcabs_diff_Qcle_condition in Herr as [H1 H2].
    assert (H3 : (roundedMagnitude x <= Qcabs x + pow2 (e - 52 - 1))%Qc).
    { apply (proj2 (Qcplus_le_mono_r _ _ (- pow2 (e - 52 - 1)))).
      by replace (Qcabs x + pow2 (e - 52 - 1) + - pow2 (e - 52 - 1))%Qc
        with (Qcabs x) by ring. }
    eapply Qcle_lt_trans; [exact H3|].
    rewrite <- (pow2_double 1024). replace (1024 - 1) with 1023 by lia.
    eapply Qcle_lt_trans; [apply Qcplus_le_mono_r; exact Hhi|].
    apply Qcplus_lt_mono_l. apply pow2_lt_mono. lia. }
  destruct (round64_nonzero x Hx Hv) as (y & Ey & Eabs).
  exists y. split; [done|]. rewrite Eabs.
  by eapply Qcle_trans.
Qed.


(** *** Two roundings in a row *)

Lemma this_add (x y : Qc) : (this (x + y)%Qc == this x + this y)%Q.
Proof. apply Qred_correct. Qed.

Lemma this_mul (x y : Qc) : (this (x * y)%Qc == this x * this y)%Q.
Proof. apply Qred_correct. Qed.

Lemma this_opp (x : Qc) : (this (- x)%Qc == - this x)%Q.
Proof. apply Qred_correct. Qed.

Lemma this_sub (x y : Qc) : (this (x - y)%Qc == this x - this y)%Q.
Proof. unfold Qcminus. rewrite this_add, this_opp. reflexivity. Qed.

(** Inequalities between rationals in canonical form, decided as
    inequalities between plain rationals. *)
Ltac qc_arith :=
  unfold Qcle, Qclt in *;
  repeat (rewrite this_sub in * || rewrite this_add in *
          || rewrite this_mul in * || rewrite this_opp in *);
  change (this 0%Qc) with 0%Q in *;
  change (this 1%Qc) with 1%Q in *;
  nra.

Lemma Qcabs_sum_le (x y : Qc) (b c : Qc) :
  (Qcabs x <= b)%Qc -> (Qcabs y <= c)%Qc -> (Qcabs (x + y) <= b + c)%Qc.
Proof.
  intros Hx Hy. eapply Qcle_trans; [apply Qcabs_triangle|].
  eapply Qcle_trans; [apply Qcplus_le_mono_r; exact Hx|].
  by apply Qcplus_le_mono_l.
Qed.

(** A number scaled by [s], rounded, scaled back by [t], and rounded
    again returns within [2^-52 + 2^-106] of itself, relative to its
    magnitude, when it and its scaling lie well within the normal
    doubles. *)
Lemma two_roundings (a s t : Qc) :
  (s * t = 1)%Qc ->
  (pow2 (-1021) <= Qcabs a)%Qc -> (Qcabs a <= pow2 1022)%Qc ->
  (pow2 (-1022) <= Qcabs (a * s))%Qc -> (Qcabs (a * s) <= pow2 1023)%Qc ->
  exists y z,
    round64 (a * s) = Fin y /\ round64 (y * t) = Fin z /\
    (Qcabs (z - a) <= (pow2 (-52) + pow2 (-106)) * Qcabs a)%Qc.
Proof.
  intros Hst Ha1 Ha2 Hs1 Hs2.
  destruct (round64_error (a * s) Hs1 Hs2) as (y & Ey & Hy).
  set (u := pow2 (-53)) in *. set (A := Qcabs a) in *.
  assert (Hu0 : (0 < u)%Qc) by apply pow2_pos.
  assert (Hu1 : (u + u <= 1)%Qc).
  { assert (E0 : (u + u = pow2 (-52))%Qc) by apply (pow2_double (-52)).
    rewrite E0, <- pow2_0. by apply pow2_le_mono. }
  assert (HA0 : (0 <= A)%Qc) by apply Qcabs_nonneg.
  assert (Hw : (Qcabs (y * t - a) <= u * A)%Qc).
  { replace (y * t - a)%Qc with ((y - a * s) * t)%Qc.
    2:{ transitivity (y * t - a * (s * t))%Qc; [ring|]. rewrite Hst. ring. }
    rewrite Qcabs_Qcmult.
    replace A with (Qcabs (a * s) * Qcabs t)%Qc.
    2:{ rewrite <- Qcabs_Qcmult. subst A. f_equal.
        transitivity (a * (s * t))%Qc; [ring|]. rewrite Hst. ring. }
    rewrite Qcmult_assoc.
    apply Qcmult_le_mono_nonneg_r; [apply Qcabs_nonneg|done]. }
  set (W := Qcabs (y * t)).
  assert (HW1 : (W <= A + u * A)%Qc).
  { subst W. replace (y * t)%Qc with (a + (y * t - a))%Qc by ring.
    apply Qcabs_sum_le; [apply Qcle_refl|done]. }
  assert (HW2 : (A <= W + u * A)%Qc).
  { subst A W. replace a with (y * t + (a - y * t))%Qc at 1 by ring.
    apply Qcabs_sum_le; [apply Qcle_refl|]. by rewrite Qcabs_Qcminus. }
  assert (E1 : (pow2 (-1022) + pow2 (-1022) = pow2 (-1021))%Qc)
    by apply (pow2_double (-1021)).
  assert (E2 : (pow2 1022 + pow2 1022 = pow2 1023)%Qc)
    by apply (pow2_double 1023).
  assert (Hr1 : (pow2 (-1022) <= W)%Qc).
  { rewrite <- E1 in Ha1. clear - Ha1 HW2 Hu0 Hu1 HA0. qc_arith. }
  assert (Hr2 : (W <= pow2 1023)%Qc).
  { rewrite <- E2. clear - Ha2 HW1 Hu0 Hu1 HA0. qc_arith. }
  destruct (round64_error (y * t) Hr1 Hr2) as (z & Ez & Hz).
  fold u in Hz. fold W in Hz.
  exists y, z. split; [done|]. split; [done|].
  assert (E3 : (pow2 (-52) = u + u)%Qc) by (symmetry; apply (pow2_double (-52))).
  assert (E4 : (pow2 (-106) = u * u)%Qc) by (subst u; by rewrite <- pow2_add).
  rewrite E3, E4.
  assert (Hsum : (Qcabs (z - a) <= u * W + u * A)%Qc).
  { replace (z - a)%Qc with ((z - y * t) + (y * t - a))%Qc by ring.
    by apply Qcabs_sum_le. }
  assert (Hprod : (u * W <= u * (A + u * A))%Qc).
  { apply Qcmult_le_mono_nonneg_l; [by apply Qclt_le_weak|done]. }
  clear - Hsum Hprod. qc_arith.
Qed.


(** *** Whole numbers *)

Lemma pow2_le_inv (a b : Z) : (pow2 a <= pow2 b)%Qc -> a <= b.
Proof.
  intros H. destruct (Z_le_gt_dec a b) as [Hab|Hab]; [done|].
  exfalso. apply (Qcle_not_lt _ _ H). apply pow2_lt_mono. lia.
Qed.

Lemma this_of_Z (z : Z) : this (Qc_of_Z z) = inject_Z z.
Proof.
  reflexivity.
Qed.

Lemma nearestEven_Z (j : Z) : nearestEven (Qc_of_Z j) = j.
Proof.
  unfold nearestEven. rewrite this_of_Z. cbn [inject_Z Qnum Qden].
  by rewrite Z.div_1_r, Z.mod_1_r.
Qed.

Lemma Qcabs_of_Z (z : Z) : Qcabs (Qc_of_Z z) = Qc_of_Z (Z.abs z).
Proof.
  destruct (Z_le_gt_dec 0 z) as [Hz|Hz].
  - rewrite Z.abs_eq by done. apply Qcabs_pos.
    rewrite <- Z2Qc_inj_0. by apply (proj1 (Z2Qc_inj_le _ _)).
  - rewrite Z.abs_neq by lia. rewrite Z2Qc_inj_opp. apply Qcabs_neg.
    rewrite <- Z2Qc_inj_0. apply (proj1 (Z2Qc_inj_le _ _)). lia.
Qed.

(** A whole number below [2^53] in magnitude is a double. *)
Lemma round64_Z (z : Z) :
  Z.abs z < 2 ^ 53 -> round64 (Qc_of_Z z) = Fin (Qc_of_Z z).
Proof.
  intros Hz. destruct (Z.eq_dec z 0) as [->|Hne];
    [by rewrite Z2Qc_inj_0|].
  set (x := Qc_of_Z z).
  assert (Hx : x <> 0%Qc) by (by apply Qc_of_Z_nonzero).
  assert (EX : Qcabs x = Qc_of_Z (Z.abs z)) by apply Qcabs_of_Z.
  assert (HX : (0 < Qcabs x)%Qc) by (by apply Qcabs_pos_nonzero).
  destruct (magnitude_spec (Qcabs x) HX) as [He1 He2].
  set (e := magnitude (Qcabs x)) in *.
  assert (He0 : 0 <= e).
  { assert (0 < e + 1); [|lia]. apply pow2_lt_inv.
    eapply Qcle_lt_trans; [|exact He2]. rewrite pow2_0, EX, <- Z2Qc_inj_1.
    apply (proj1 (Z2Qc_inj_le _ _)). lia. }
  assert (He52 : e <= 52).
  { assert (e < 53); [|lia]. apply pow2_lt_inv.
    eapply Qcle_lt_trans; [exact He1|]. rewrite EX, (pow2_nonneg 53) by done.
    by apply (proj1 (Z2Qc_inj_lt _ _)). }
  assert (Hq : ulpExponent x = e - 52) by (unfold ulpExponent; fold e; lia).
  assert (Hv : roundedMagnitude x = Qcabs x).
  { unfold roundedMagnitude. cbv zeta. rewrite Hq.
    replace (Qcabs x / pow2 (e - 52))%Qc
      with (Qc_of_Z (Z.abs z * 2 ^ (52 - e))).
    2:{ rewrite Z2Qc_inj_mul, <- EX, <- pow2_nonneg by lia.
        replace (52 - e) with (- (e - 52)) by lia. rewrite pow2_opp.
        done. }
    rewrite nearestEven_Z, Z2Qc_inj_mul, <- EX, <- pow2_nonneg by lia.
    rewrite <- Qcmult_assoc, <- pow2_add.
    replace (52 - e + (e - 52)) with 0 by lia. rewrite pow2_0. ring. }
  destruct (round64_nonzero x Hx) as (y & Ey & Eabs).
  { rewrite Hv, EX, (pow2_nonneg 1024) by done.
    apply (proj1 (Z2Qc_inj_lt _ _)).
    eapply Z.lt_trans; [exact Hz|]. by apply Z.pow_lt_mono_r. }
  rewrite Ey. f_equal. rewrite Hv in Eabs.
  replace (Qcabs x - Qcabs x)%Qc with 0%Qc in Eabs by ring.
  rewrite (Qcabs_pos 0) in Eabs by apply Qcle_refl.
  apply Qcabs_null in Eabs.
  transitivity (y - x + x)%Qc; [ring|]. rewrite Eabs. ring.
Qed.

Lemma fadd_Z (x y : Z) :
  Z.abs (x + y) < 2 ^ 53 -> fadd (jofZ x) (jofZ y) = jofZ (x + y).
Proof.
  intros H. unfold fadd, jofZ. cbn [jadd rounded].
  rewrite <- Z2Qc_inj_add. by apply round64_Z.
Qed.

Lemma fsub_Z (x y : Z) :
  Z.abs (x - y) < 2 ^ 53 -> fsub (jofZ x) (jofZ y) = jofZ (x - y).
Proof.
  intros H. unfold fsub, jsub, jofZ. cbn [jneg jadd rounded].
  replace (Qc_of_Z x + - Qc_of_Z y)%Qc with (Qc_of_Z (x - y))
    by (rewrite Z2Qc_inj_sub; ring).
  by apply round64_Z.
Qed.

Lemma fmul_Z (x y : Z) :
  Z.abs (x * y) < 2 ^ 53 -> fmul (jofZ x) (jofZ y) = jofZ (x * y).
Proof.
  intros H. unfold fmul, jofZ. cbn [jmul rounded].
  rewrite <- Z2Qc_inj_mul. by apply round64_Z.
Qed.

Lemma fdiv_Z (x y q : Z) :
  y <> 0 -> x = q * y -> Z.abs q < 2 ^ 53 ->
  fdiv (jofZ x) (jofZ y) = jofZ q.
Proof.
  intros Hy -> Hq. unfold fdiv, jofZ.
  rewrite jdiv_Fin by (by apply Qc_of_Z_nonzero). cbn [rounded].
  replace (Qc_of_Z (q * y) / Qc_of_Z y)%Qc with (Qc_of_Z q).
  2:{ rewrite Z2Qc_inj_mul. field. by apply Qc_of_Z_nonzero. }
  by apply round64_Z.
Qed.

End Binary64Facts.

(** ** Round trips of the conversion, over doubles *)

Module DoublesFacts.
Import Binary64 Binary64Facts.

Section RoundTrips.
Context {RT : Runtime}.

Lemma convert_to_dollars (st : CurrencyState) (a r : Qc) :
  exchangeRate st = Some (Fin r) -> r <> 0%Qc ->
  Doubles.convertAmount st (Num (Fin a)) ARS USD = round64 (a * / r).
Proof.
  intros Hrate Hr. unfold Doubles.convertAmount. rewrite Hrate.
  cbn [toNumeric isNaN rateTruthy rateValue orb negb Currency_eqb andb].
  rewrite (jtruthy_Fin r Hr). cbn [negb]. unfold fdiv.
  by rewrite (jdiv_Fin a r Hr).
Qed.

Lemma convert_to_pesos (st : CurrencyState) (a r : Qc) :
  exchangeRate st = Some (Fin r) -> r <> 0%Qc ->
  Doubles.convertAmount st (Num (Fin a)) USD ARS = round64 (a * r).
Proof.
  intros Hrate Hr. unfold Doubles.convertAmount. rewrite Hrate.
  cbn [toNumeric isNaN rateTruthy rateValue orb negb Currency_eqb andb].
  by rewrite (jtruthy_Fin r Hr).
Qed.

Lemma round64_0 : round64 0%Qc = Fin 0%Qc.
Proof. reflexivity. Qed.

(** C6. With a selected rate [r] that is not zero, pesos converted to
    dollars and back are the amount again over exact rationals.  Over
    doubles the result is within [2^-52 + 2^-106] of the amount, relative
    to its magnitude, when the amount lies between [2^-1021] and [2^1022]
    and its quotient by the rate between [2^-1022] and [2^1023], all in
    magnitude; an amount of zero comes back as zero. *)
Theorem convertAmount_round_trip_tolerance (st : CurrencyState) (a r : Qc) :
  exchangeRate st = Some (Fin r) -> r <> 0%Qc ->
  convertAmount st (Num (convertAmount st (Num (Fin a)) ARS USD)) USD ARS = Fin a /\
  Doubles.pesosRoundTrip st (Fin 0%Qc) = Fin 0%Qc /\
  ((pow2 (-1021) <= Qcabs a)%Qc -> (Qcabs a <= pow2 1022)%Qc ->
   (pow2 (-1022) <= Qcabs (a / r))%Qc -> (Qcabs (a / r) <= pow2 1023)%Qc ->
   exists z, Doubles.pesosRoundTrip st (Fin a) = Fin z /\
     (Qcabs (z - a) <= (pow2 (-52) + pow2 (-106)) * Qcabs a)%Qc).
Proof.
  intros Hrate Hr. split; [by apply (convertAmount_round_trip st a r)|]. split.
  - unfold Doubles.pesosRoundTrip.
    rewrite (convert_to_dollars st 0 r Hrate Hr).
    replace (0 * / r)%Qc with 0%Qc by ring. rewrite round64_0.
    rewrite (convert_to_pesos st 0 r Hrate Hr).
    by replace (0 * r)%Qc with 0%Qc by ring.
  - intros Ha1 Ha2 Hq1 Hq2.
    destruct (two_roundings a (/ r) r) as (y & z & Ey & Ez & Hz); try done.
    { by field. }
    exists z. split; [|done]. unfold Doubles.pesosRoundTrip.
    rewrite (convert_to_dollars st a r Hrate Hr), Ey.
    by rewrite (convert_to_pesos st y r Hrate Hr).
Qed.

(** X8. Dollars converted to pesos and back, over doubles, come within
    [2^-52 + 2^-106] of the amount, relative to its magnitude, when the
    amount lies between [2^-1021] and [2^1022] and its product by the
    rate between [2^-1022] and [2^1023], all in magnitude. *)
Theorem dollars_round_trip_tolerance (st : CurrencyState) (a r : Qc) :
  exchangeRate st = Some (Fin r) -> r <> 0%Qc ->
  (pow2 (-1021) <= Qcabs a)%Qc -> (Qcabs a <= pow2 1022)%Qc ->
  (pow2 (-1022) <= Qcabs (a * r))%Qc -> (Qcabs (a * r) <= pow2 1023)%Qc ->
  exists z, Doubles.dollarsRoundTrip st (Fin a) = Fin z /\
    (Qcabs (z - a) <= (pow2 (-52) + pow2 (-106)) * Qcabs a)%Qc.
Proof.
  intros Hrate Hr Ha1 Ha2 Hq1 Hq2.
  destruct (two_roundings a r (/ r)) as (y & z & Ey & Ez & Hz); try done.
  { by field. }
  exists z. split; [|done]. unfold Doubles.dollarsRoundTrip.
  rewrite (convert_to_pesos st a r Hrate Hr), Ey.
  by rewrite (convert_to_dollars st y r Hrate Hr).
Qed.

End RoundTrips.

(** 81 pesos at 1270 pesos the dollar come back as 81.00000000000001. *)
Lemma round_trip_of_81 :
  jeqb (Doubles.pesosRoundTrip (RT := Ref.refRuntime) initialCurrencyState (jofZ 81))
       (Fin (Qc_of_Z 81 + pow2 (-46))) = true.
Proof. by vm_compute. Qed.

(** C6 fails as stated over doubles: at a rate of one half the largest
    power of two overflows on the way and comes back as [Infinity]; at
    the fallback rate the smallest positive double comes back as zero. *)
Lemma round_trip_out_of_range :
  Doubles.pesosRoundTrip (RT := Ref.refRuntime)
    (Doubles.withRate initialCurrencyState (Fin (pow2 (-1)))) (Fin (pow2 1023))
  = PosInf /\
  jeqb (Doubles.pesosRoundTrip (RT := Ref.refRuntime)
          initialCurrencyState (Fin (pow2 (-1074))))
       (Fin 0%Qc) = true.
Proof. split; by vm_compute. Qed.

Lemma convertAmount_round_trip_tolerance_witness :
  exists z,
    Doubles.pesosRoundTrip (RT := Ref.refRuntime) initialCurrencyState
      (Fin (Qc_of_Z 81)) = Fin z /\
    (Qcabs (z - Qc_of_Z 81) <= (pow2 (-52) + pow2 (-106)) * Qcabs (Qc_of_Z 81))%Qc.
Proof.
  destruct (convertAmount_round_trip_tolerance (RT := Ref.refRuntime)
              initialCurrencyState (Qc_of_Z 81) (Qc_of_Z 1270) eq_refl)
    as (_ & _ & H); [done|].
  apply H; by vm_compute.
Defined.

Lemma dollars_round_trip_tolerance_witness :
  exists z,
    Doubles.dollarsRoundTrip (RT := Ref.refRuntime) initialCurrencyState
      (Fin (Qc_of_Z 81)) = Fin z /\
    (Qcabs (z - Qc_of_Z 81) <= (pow2 (-52) + pow2 (-106)) * Qcabs (Qc_of_Z 81))%Qc.
Proof.
  apply (dollars_round_trip_tolerance (RT := Ref.refRuntime)
           initialCurrencyState (Qc_of_Z 81) (Qc_of_Z 1270) eq_refl);
    by vm_compute.
Defined.

End DoublesFacts.

(** ** The insights generator, over doubles *)

Module InsightsGeneratorFacts.
Import Calendar CalendarFacts Binary64 Binary64Facts SmartInsights.
Import InsightsGenerator.

(** *** The accumulator *)

Lemma accGet_set_eq (o : Accumulator) (key : string) (value : Held) :
  InsightsGenerator.getProp (InsightsGenerator.setProp o key value) key = Some value.
Proof.
  induction o as [|[k v] o IH];
    cbn [InsightsGenerator.setProp InsightsGenerator.getProp].
  - by rewrite String.eqb_refl.
  - destruct (String.eqb k key) eqn:E; cbn [InsightsGenerator.getProp]; by rewrite E.
Qed.

Lemma accGet_set_ne (o : Accumulator) (key key' : string) (value : Held) :
  key' <> key ->
  InsightsGenerator.getProp (InsightsGenerator.setProp o key value) key'
  = InsightsGenerator.getProp o key'.
Proof.
  intros Hne. induction o as [|[k v] o IH];
    cbn [InsightsGenerator.setProp InsightsGenerator.getProp].
  - by rewrite (proj2 (String.eqb_neq key key')).
  - destruct (String.eqb k key) eqn:E; cbn [InsightsGenerator.getProp].
    + apply String.eqb_eq in E. subst k.
      by rewrite (proj2 (String.eqb_neq key key')).
    + by rewrite IH.
Qed.

Lemma accGet_None (o : Accumulator) (key : string) :
  InsightsGenerator.getProp o key = None <-> key ∉ o.*1.
Proof.
  induction o as [|[k v] o IH]; cbn [InsightsGenerator.getProp fmap list_fmap fst].
  - split; [intros _; apply not_elem_of_nil|done].
  - rewrite not_elem_of_cons. destruct (String.eqb k key) eqn:E.
    + apply String.eqb_eq in E. split; [done|]. by intros [? _].
    + apply String.eqb_neq in E. rewrite IH. split; [by split|by intros [_ ?]].
Qed.

Lemma accGet_Some (o : Accumulator) (key : string) (value : Held) :
  NoDup o.*1 -> InsightsGenerator.getProp o key = Some value <-> (key, value) ∈ o.
Proof.
  induction o as [|[k v] o IH];
    cbn [InsightsGenerator.getProp fmap list_fmap fst]; intros Hnd.
  - split; [done|]. by intros ?%elem_of_nil.
  - apply NoDup_cons in Hnd as [Hk Hnd]. rewrite elem_of_cons.
    destruct (String.eqb k key) eqn:E.
    + apply String.eqb_eq in E. subst k. split.
      * intros [= ->]. by left.
      * intros [[= ->]|Hin]; [done|].
        exfalso. apply Hk. apply list_elem_of_fmap. by exists (key, value).
    + apply String.eqb_neq in E. rewrite (IH Hnd). split; [by right|].
      intros [[= -> ->]|Hin]; [done|done].
Qed.

Lemma accSet_keys (o : Accumulator) (key : string) (value : Held) :
  (InsightsGenerator.setProp o key value).*1
  = if InsightsGenerator.getProp o key is Some _ then o.*1 else o.*1 ++ [key].
Proof.
  induction o as [|[k v] o IH];
    cbn [InsightsGenerator.setProp InsightsGenerator.getProp]; [done|].
  destruct (String.eqb k key) eqn:E; [done|].
  cbn [fmap list_fmap fst]. fold (fmap (M := list) (@fst string Held)).
  rewrite IH. by destruct (InsightsGenerator.getProp o key).
Qed.

Lemma accSet_NoDup (o : Accumulator) (key : string) (value : Held) :
  NoDup o.*1 -> NoDup (InsightsGenerator.setProp o key value).*1.
Proof.
  intros Hnd. rewrite accSet_keys.
  destruct (InsightsGenerator.getProp o key) eqn:E; [done|].
  apply accGet_None in E. apply NoDup_app. split; [done|]. split.
  - intros x Hx ->%list_elem_of_singleton. done.
  - apply NoDup_singleton.
Qed.

Lemma acc_indexed_named (o : Accumulator) :
  map snd (InsightsGenerator.indexed o) ++ InsightsGenerator.named o ≡ₚ o.
Proof.
  unfold InsightsGenerator.indexed, InsightsGenerator.named.
  induction o as [|[k v] o IH]; [done|].
  cbn [omap list_omap List.filter fst]. destruct (arrayIndex k) as [i|]; cbn.
  - by constructor.
  - rewrite <- Permutation_middle. by constructor.
Qed.

Lemma acc_entries_Permutation (o : Accumulator) :
  InsightsGenerator.objectEntries o ≡ₚ o.
Proof.
  unfold InsightsGenerator.objectEntries. etrans; [|apply acc_indexed_named].
  apply Permutation_app_tail, Permutation_map, merge_sort_Permutation.
Qed.

Section Generator.
Context {RT : Runtime} {P : Printer} {zone : LocalCalendar.Zone}.

Lemma addExpense_NoDup (o : Accumulator) (t : Transaction) :
  NoDup o.*1 -> NoDup (InsightsGenerator.addExpense o t).*1.
Proof.
  intros Hnd. unfold InsightsGenerator.addExpense. cbv zeta.
  destruct (String.eqb _ _); [done|]. by apply accSet_NoDup.
Qed.

Lemma acc_fold_NoDup (l : list Transaction) (o : Accumulator) :
  NoDup o.*1 -> NoDup (fold_left InsightsGenerator.addExpense l o).*1.
Proof.
  revert o. induction l as [|t l IH]; intros o Hnd; [done|].
  cbn [fold_left]. apply IH. by apply addExpense_NoDup.
Qed.

Lemma accumulated_ids_NoDup (total : Held) (entries : Accumulator) :
  NoDup entries.*1 ->
  NoDup (map (fun i => insight_id (insight i))
             (omap (fun '(categoryId, amount) =>
                      let percentage :=
                        fmul (fdiv (toNumber amount) (toNumber total)) (jofZ 100) in
                      if (percentage >? jofZ 30)%js
                      then Some (InsightsGenerator.patternInsight categoryId percentage
                                   (toNumber amount))
                      else None)
                   entries)).
Proof.
  induction entries as [|[c a] es IH]; intros Hnd; [apply NoDup_nil_2|].
  cbn [fmap list_fmap fst] in Hnd. apply NoDup_cons in Hnd as [Hc Hnd].
  cbn [omap list_omap]. cbv zeta.
  destruct (jgt _ _); [|by apply IH].
  cbn [map]. apply NoDup_cons. split; [|by apply IH].
  cbn [InsightsGenerator.patternInsight insight insight_id].
  intros Hin%list_elem_of_In%in_map_iff. destruct Hin as (i & Hid & Hi).
  apply list_elem_of_In, list_elem_of_omap in Hi as ([c' a'] & Hin & Hf).
  cbv zeta in Hf. destruct (jgt _ _); [|done]. injection Hf as <-.
  cbn [InsightsGenerator.patternInsight insight insight_id] in Hid.
  injection Hid as Hid. change (c' = c) in Hid. subst c'.
  apply Hc, list_elem_of_fmap. by exists (c, a').
Qed.

(** X15. Whatever the transactions, the cash-flow data, the clock and
    the zone, the insights of one generation have pairwise distinct
    ids. *)
Theorem insight_ids_distinct (st : CurrencyState) (clock : nat -> Z)
    (txs : list Transaction) (cashFlowData : list CashFlowProjection) :
  NoDup (map (fun i => insight_id (insight i))
             (generateInsights st clock txs cashFlowData)).
Proof.
  unfold generateInsights, InsightsGenerator.detectSpendingPatterns. cbv zeta.
  rewrite !map_app, map_map. cbn [insight].
  set (trends := map insight_id (detectCashFlowTrends cashFlowData)).
  set (recs := map (fun i => insight_id (insight i))
                   (InsightsGenerator.generateOptimizationRecommendations st clock txs)).
  assert (Ht : trends = [] \/ trends = ["trend-decreasing"%string]
               \/ trends = ["trend-increasing"%string]).
  { subst trends. unfold detectCashFlowTrends.
    destruct (_ <? _)%nat; [by left|].
    destruct (every _ _); [by right; left|].
    destruct (every _ _); [by right; right|by left]. }
  assert (Hr : recs = [] \/ recs = ["recommendation-expense-review"%string]).
  { subst recs. unfold InsightsGenerator.generateOptimizationRecommendations.
    cbv zeta. destruct (filter_from _ _ txs); [by left|].
    destruct (jgt _ _); [by right|by left]. }
  set (o := fold_left InsightsGenerator.addExpense (List.filter isExpense txs) []).
  set (total := fold_left plus (InsightsGenerator.objectValues o) (Number (jofZ 0))).
  assert (Hp : forall x, x ∈ map (fun i => insight_id (insight i))
                 (omap (fun '(categoryId, amount) =>
                    let percentage :=
                      fmul (fdiv (toNumber amount) (toNumber total)) (jofZ 100) in
                    if (percentage >? jofZ 30)%js
                    then Some (InsightsGenerator.patternInsight categoryId percentage
                                 (toNumber amount))
                    else None)
                  (InsightsGenerator.objectEntries o))
               -> exists c, x = ("pattern-" ++ c)%string).
  { intros x (i & <- & Hi)%list_elem_of_In%in_map_iff.
    apply list_elem_of_In, list_elem_of_omap in Hi as ([c a] & _ & Hf).
    cbv zeta in Hf. destruct (jgt _ _); [|done]. injection Hf as <-. by exists c. }
  apply NoDup_app. split; [|split].
  - apply accumulated_ids_NoDup. rewrite acc_entries_Permutation.
    apply acc_fold_NoDup, NoDup_nil_2.
  - intros x Hx Hin. apply Hp in Hx as [c ->].
    apply elem_of_app in Hin as [Hin|Hin].
    + destruct Ht as [Ht|[Ht|Ht]]; rewrite Ht in Hin;
        [by apply elem_of_nil in Hin| |];
        apply list_elem_of_singleton in Hin; discriminate.
    + destruct Hr as [Hr|Hr]; rewrite Hr in Hin;
        [by apply elem_of_nil in Hin|].
      apply list_elem_of_singleton in Hin; discriminate.
  - apply NoDup_app. split; [|split].
    + destruct Ht as [Ht|[Ht|Ht]]; rewrite Ht;
        [apply NoDup_nil_2|apply NoDup_singleton|apply NoDup_singleton].
    + intros x Hx Hin.
      destruct Hr as [Hr|Hr]; rewrite Hr in Hin; [by apply elem_of_nil in Hin|].
      apply list_elem_of_singleton in Hin. subst x.
      destruct Ht as [Ht|[Ht|Ht]]; rewrite Ht in Hx;
        [by apply elem_of_nil in Hx| |];
        apply list_elem_of_singleton in Hx; discriminate.
    + destruct Hr as [Hr|Hr]; rewrite Hr; [apply NoDup_nil_2|apply NoDup_singleton].
Qed.

(** *** Spending patterns *)

Lemma round64_not_NaN (x : Qc) : round64 x <> NaN.
Proof.
  unfold round64. destruct (jsgn x); [done| |];
    cbv zeta; by destruct (_ ?= _)%Qc.
Qed.

Lemma fadd_not_NaN (a b : jsnum) :
  a <> NaN -> isFinite b = true -> fadd a b <> NaN.
Proof.
  intros Ha (q & ->)%isFinite_Fin. unfold fadd.
  destruct a as [| | |x]; cbn [jadd rounded]; try done. apply round64_not_NaN.
Qed.

Lemma jor_else_not_NaN (v : jsnum) : v <> NaN -> jor_else v (jofZ 0) = v.
Proof.
  intros Hv. destruct v as [| | |q]; try done.
  unfold jor_else, jtruthy, jsgn.
  destruct (q ?= 0)%Qc eqn:E; try done.
  apply Qceq_alt in E. subst q. unfold jofZ. by rewrite Z2Qc_inj_0.
Qed.

Lemma fsum_snoc (l : list jsnum) (a : jsnum) : fsum (l ++ [a]) = fadd (fsum l) a.
Proof. unfold fsum. by rewrite fold_left_app. Qed.

Lemma fsum_not_NaN (l : list jsnum) :
  (forall x, In x l -> isFinite x = true) -> fsum l <> NaN.
Proof.
  induction l as [|a l IH] using rev_ind; intros Hl; [done|].
  rewrite fsum_snoc. apply fadd_not_NaN.
  - apply IH. intros x Hx. apply Hl, in_or_app. by left.
  - apply Hl, in_or_app. right. by left.
Qed.

(** What the accumulator holds after expenses of plain categories with
    finite amounts: under each category the sum of its amounts. *)
Lemma expenses_by_category (l : list Transaction) :
  (forall t, In t l ->
     isInherited (tx_categoryId t) = false /\ isFinite (amountRead t) = true) ->
  forall c,
    InsightsGenerator.getProp (fold_left InsightsGenerator.addExpense l []) c
    = if existsb (inCategory c) l
      then Some (Number (fsum (map amountRead (List.filter (inCategory c) l))))
      else None.
Proof.
  induction l as [|t l IH] using rev_ind; intros Hall c; [done|].
  rewrite fold_left_app. cbn [fold_left].
  assert (Hl : forall t', In t' l ->
            isInherited (tx_categoryId t') = false /\ isFinite (amountRead t') = true).
  { intros t' Hin. apply Hall, in_or_app. by left. }
  specialize (IH Hl).
  set (o := fold_left InsightsGenerator.addExpense l []) in *.
  destruct (Hall t) as [Hplain Ha]; [apply in_or_app; right; by left|].
  assert (Hproto : String.eqb (tx_categoryId t) "__proto__" = false).
  { destruct (String.eqb _ _) eqn:E; [|done].
    apply String.eqb_eq in E. rewrite E in Hplain. discriminate. }
  unfold InsightsGenerator.addExpense. cbv zeta. rewrite Hproto, Hplain.
  fold (amountRead t).
  rewrite existsb_app, List.filter_app, map_app. cbn [existsb List.filter].
  destruct (decide (c = tx_categoryId t)) as [->|Hne].
  - rewrite accGet_set_eq.
    assert (Hin : inCategory (tx_categoryId t) t = true) by apply String.eqb_refl.
    rewrite Hin, orb_true_r. cbn [orb map]. rewrite fsum_snoc.
    f_equal. rewrite IH.
    destruct (existsb (inCategory (tx_categoryId t)) l) eqn:Ex.
    + rewrite jor_else_not_NaN; [done|].
      apply fsum_not_NaN. intros x (t' & <- & [Hin' _]%filter_In)%in_map_iff.
      by apply Hl.
    + rewrite filter_all_false; [done|].
      intros x Hx. destruct (inCategory (tx_categoryId t) x) eqn:Ec; [|done].
      assert (existsb (inCategory (tx_categoryId t)) l = true)
        by (apply existsb_exists; by exists x).
      congruence.
  - rewrite accGet_set_ne by done.
    assert (Hin : inCategory c t = false) by (apply String.eqb_neq; congruence).
    rewrite Hin, app_nil_r. cbn [orb]. rewrite orb_false_r. apply IH.
Qed.

Lemma acc_fold_keys (l : list Transaction) (o : Accumulator) (c : string) :
  (forall t, In t l -> isInherited (tx_categoryId t) = false) ->
  c ∈ (fold_left InsightsGenerator.addExpense l o).*1 <->
  c ∈ o.*1 \/ exists t, In t l /\ tx_categoryId t = c.
Proof.
  revert o. induction l as [|t l IH]; intros o Hall; cbn [fold_left].
  - split; [by left|]. by intros [?|(t & [] & _)].
  - rewrite IH by (intros t' Hin; apply Hall; by right).
    assert (Hproto : String.eqb (tx_categoryId t) "__proto__" = false).
    { destruct (String.eqb _ _) eqn:E; [|done].
      apply String.eqb_eq in E. specialize (Hall t (or_introl eq_refl)).
      rewrite E in Hall. discriminate. }
    unfold InsightsGenerator.addExpense at 1. cbv zeta. rewrite Hproto, accSet_keys.
    assert (Hk : c ∈ (if InsightsGenerator.getProp o (tx_categoryId t) is Some _
                      then o.*1 else o.*1 ++ [tx_categoryId t])
                 <-> c ∈ o.*1 \/ tx_categoryId t = c).
    { destruct (InsightsGenerator.getProp o (tx_categoryId t)) eqn:E.
      - split; [by left|]. intros [?|<-]; [done|].
        destruct (decide (tx_categoryId t ∈ o.*1)) as [|Hn]; [done|].
        apply accGet_None in Hn. congruence.
      - rewrite elem_of_app, list_elem_of_singleton. split; intros [?|?]; auto. }
    rewrite Hk. split.
    + intros [[?|<-]|(t' & Hin & <-)]; [by left|right; exists t; by split; [left|]|].
      right. exists t'. by split; [right|].
    + intros [?|(t' & [<-|Hin] & <-)]; [by left; left|by left; right|].
      right. by exists t'.
Qed.

Lemma omap_pairs {A B C} (f : A -> B) (g : A * B -> option C) (l : list A) :
  omap g (map (fun a => (a, f a)) l) = omap (fun a => g (a, f a)) l.
Proof.
  induction l as [|a l IH]; [done|]. cbn [map omap list_omap].
  destruct (g (a, f a)); by rewrite IH.
Qed.

Lemma fold_plus_numbers (l : list jsnum) (acc : jsnum) :
  fold_left plus (map Number l) (Number acc) = Number (fold_left fadd l acc).
Proof. revert acc. induction l as [|x l IH]; intros acc; [done|]. apply IH. Qed.

(** X14. For expenses whose amounts read as finite numbers and whose
    categories are not named like a property of [Object.prototype], the
    pattern insights are these, in the order in which [Object.entries]
    lists the categories: one for each category whose share exceeds 30
    percent, carrying that share and the total of the category, with high
    priority when the share exceeds 50 percent and medium priority
    otherwise.  All sums are those of doubles: the total of a category
    adds up its expenses in the order of the transactions; the share
    divides it by the sum of the category totals, added in the order of
    the listing, and multiplies by 100.  Every category with an expense
    is listed, once. *)
Theorem spending_pattern_rule (txs : list Transaction) :
  (forall t, In t txs -> isExpense t = true ->
     isInherited (tx_categoryId t) = false /\ isFinite (amountRead t) = true) ->
  let categories := categoriesListed txs in
  let total := fsum (map (fun c => InsightsGenerator.categoryTotal c txs) categories) in
  let share := fun c =>
    fmul (fdiv (InsightsGenerator.categoryTotal c txs) total) (jofZ 100) in
  NoDup categories /\
  (forall c, c ∈ categories <->
     exists t, In t txs /\ isExpense t = true /\ tx_categoryId t = c) /\
  InsightsGenerator.detectSpendingPatterns txs
  = omap (fun c =>
            if jgt (share c) (jofZ 30)
            then Some (InsightsGenerator.patternInsight c (share c)
                         (InsightsGenerator.categoryTotal c txs))
            else None)
         categories /\
  (forall c, priority (insight (InsightsGenerator.patternInsight c (share c)
                                  (InsightsGenerator.categoryTotal c txs)))
             = if jgt (share c) (jofZ 50) then prio_high else prio_medium).
Proof.
  intros Hall categories total share.
  assert (Hexp : forall t, In t (List.filter isExpense txs) ->
            isInherited (tx_categoryId t) = false /\ isFinite (amountRead t) = true).
  { intros t [Hin He]%filter_In. by apply Hall. }
  pose proof (acc_fold_NoDup (List.filter isExpense txs) [] (NoDup_nil_2)) as Hnd.
  pose proof (expenses_by_category (List.filter isExpense txs) Hexp) as Hget.
  set (o := fold_left InsightsGenerator.addExpense (List.filter isExpense txs) []) in *.
  assert (Hperm : categories ≡ₚ o.*1).
  { subst categories. unfold categoriesListed.
    apply fmap_Permutation, acc_entries_Permutation. }
  assert (Hentries : InsightsGenerator.objectEntries o
                     = map (fun c => (c, Number (InsightsGenerator.categoryTotal c txs)))
                           categories).
  { subst categories. unfold categoriesListed. fold o.
    change (?l.*1) with (map fst l). rewrite map_map.
    rewrite <- (map_id (InsightsGenerator.objectEntries o)) at 1.
    apply map_ext_in. intros [c v] Hin%list_elem_of_In. cbn [fst].
    rewrite acc_entries_Permutation in Hin.
    apply (accGet_Some o c v Hnd) in Hin. rewrite Hget in Hin.
    destruct (existsb (inCategory c) _); [|done]. by injection Hin as <-. }
  split; [by rewrite Hperm|]. split.
  { intros c. rewrite Hperm. subst o.
    rewrite acc_fold_keys by (intros t Ht; by apply Hexp). split.
    - intros [[]%elem_of_nil|(t & [Hin He]%filter_In & Hc)]. by exists t.
    - intros (t & Hin & He & Hc). right. exists t. split; [by apply filter_In|done]. }
  split; [|done].
  unfold InsightsGenerator.detectSpendingPatterns. cbv zeta. fold o.
  unfold InsightsGenerator.objectValues. rewrite Hentries, map_map. cbn [snd].
  rewrite <- (map_map (fun c => InsightsGenerator.categoryTotal c txs) Number).
  rewrite fold_plus_numbers. fold (fsum (map (fun c => InsightsGenerator.categoryTotal c txs) categories)).
  fold total. rewrite omap_pairs. done.
Qed.

(** *** The expense review *)

Lemma filter_from_ext {A} (p q : A -> nat -> bool) (i : nat) (l : list A) :
  (forall x k, p x k = q x k) -> filter_from p i l = filter_from q i l.
Proof.
  intros H. revert i. induction l as [|x l IH]; intros i; [done|].
  cbn [filter_from]. by rewrite H, IH.
Qed.

Lemma fold_fadd_amounts (l : list Transaction) (acc : jsnum) :
  fold_left (fun sum t => fadd sum (parseFloat (tx_amount t))) l acc
  = fold_left fadd (map amountRead l) acc.
Proof. revert acc. induction l as [|t l IH]; intros acc; [done|]. apply IH. Qed.

(** In a zone of one offset, setting the day of the month moves the
    date by whole days. *)
Lemma local_setDate_shift (offset t n : Z) :
  (forall u b, LocalCalendar.localTZA u b = offset) ->
  LocalCalendar.setDate t (LocalCalendar.getDate t + n) = t + n * msPerDay.
Proof.
  intros Hz. unfold LocalCalendar.setDate, LocalCalendar.getDate,
    LocalCalendar.UTC, LocalCalendar.LocalTime.
  rewrite setDate_shift, !Hz. lia.
Qed.

(** X16. In a zone that keeps one offset all year, the expense review
    is recommended exactly when some transaction is dated at or after
    the instant thirty days before the clock reading taken for it, and
    the expenses dated so, added up as doubles in the order of the
    transactions and divided by 30, exceed 5000; nothing bounds the dates
    from above.  The insight carries that average. *)
Theorem expense_review_rule (offset : Z) (st : CurrencyState)
    (clock : nat -> Z) (txs : list Transaction) :
  (forall u b, LocalCalendar.localTZA u b = offset) ->
  let recent :=
    filter_from (fun t k => dateGe (parseDate (tx_date t)) (clock k - 30 * msPerDay))
                0 txs in
  let average :=
    fdiv (fsum (map amountRead (List.filter isExpense recent))) (jofZ 30) in
  InsightsGenerator.generateOptimizationRecommendations st clock txs
  = if negb (bool_decide (recent = [])) && jgt average (jofZ 5000)
    then [InsightsGenerator.expenseReview st average]
    else [].
Proof.
  intros Hz recent average.
  unfold InsightsGenerator.generateOptimizationRecommendations. cbv zeta.
  rewrite (filter_from_ext _
             (fun t k => dateGe (parseDate (tx_date t)) (clock k - 30 * msPerDay))).
  2:{ intros t k. f_equal.
      replace (LocalCalendar.getDate (clock k) - 30)
        with (LocalCalendar.getDate (clock k) + -30) by lia.
      rewrite (local_setDate_shift offset) by done. lia. }
  fold recent. rewrite fold_fadd_amounts.
  fold (fsum (map amountRead (List.filter isExpense recent))). fold average.
  destruct recent; [done|]. by rewrite bool_decide_eq_false_2.
Qed.

End Generator.

Lemma aprilExpenses_plain (t : Transaction) :
  In t aprilExpenses -> isExpense t = true ->
  isInherited (tx_categoryId t) = false
  /\ isFinite (amountRead (RT := doubleRuntime) t) = true.
Proof. intros [<-|[<-|[]]] _; by vm_compute. Qed.

Lemma spending_pattern_rule_witness :
  categoriesListed (RT := doubleRuntime) aprilExpenses = ["rent"; "food"]%string /\
  map (fun i => insight_id (insight i))
      (InsightsGenerator.detectSpendingPatterns (RT := doubleRuntime) (P := refPrinter)
         aprilExpenses)
  = ["pattern-rent"; "pattern-food"]%string.
Proof.
  destruct (spending_pattern_rule (RT := doubleRuntime) (P := refPrinter)
              aprilExpenses aprilExpenses_plain) as (_ & _ & E & _).
  split; [by vm_compute|]. rewrite E. by vm_compute.
Defined.

(** Over doubles a tenth and two tenths against seven tenths come to
    more than 30 percent, by one unit in the last place. *)
Lemma three_tenths_stand_out :
  map (fun i => insight_id (insight i))
      (InsightsGenerator.detectSpendingPatterns (RT := doubleRuntime) (P := refPrinter)
         [categoryTx "a" "0.1"; categoryTx "a" "0.2"; categoryTx "b" "0.7"])
  = ["pattern-a"; "pattern-b"]%string.
Proof. by vm_compute. Qed.

Lemma expense_review_rule_witness :
  map (fun i => insight_id (insight i))
      (InsightsGenerator.generateOptimizationRecommendations
         (RT := doubleRuntime) (zone := buenosAires)
         initialCurrencyState tickingClock aprilExpenses)
  = ["recommendation-expense-review"]%string.
Proof.
  rewrite (expense_review_rule (RT := doubleRuntime) (zone := buenosAires)
             (-10800000) initialCurrencyState tickingClock aprilExpenses)
    by reflexivity.
  by vm_compute.
Defined.

(** Two patterns, a trend and the review: four ids, all different. *)
Lemma insight_ids_example :
  map (fun i => insight_id (insight i))
      (generateInsights (RT := doubleRuntime) (P := refPrinter) (zone := buenosAires)
         initialCurrencyState tickingClock aprilExpenses
         [bucket "0" "0" "300"; bucket "0" "0" "200"; bucket "0" "0" "100"])
  = ["pattern-rent"; "pattern-food"; "trend-decreasing";
     "recommendation-expense-review"]%string.
Proof. by vm_compute. Qed.

Lemma insight_ids_distinct_witness :
  NoDup (map (fun i => insight_id (insight i))
           (generateInsights (RT := doubleRuntime) (P := refPrinter) (zone := buenosAires)
              initialCurrencyState tickingClock aprilExpenses
              [bucket "0" "0" "300"; bucket "0" "0" "200"; bucket "0" "0" "100"])).
Proof.
  apply (insight_ids_distinct (RT := doubleRuntime) (P := refPrinter)
           (zone := buenosAires)).
Defined.

End InsightsGeneratorFacts.

(** ** The forecast of the advanced chart *)

Module ForecastFacts.
Import AdvancedChart Forecast Binary64 Binary64Facts.

(** The operations on whole numbers, pushed through their rounding. *)
Ltac whole_numbers :=
  repeat first
    [ rewrite fmul_Z by (change (2 ^ 53) with 9007199254740992; lia)
    | rewrite fadd_Z by (change (2 ^ 53) with 9007199254740992; lia)
    | rewrite fsub_Z by (change (2 ^ 53) with 9007199254740992; lia) ].

Ltac line_values Hline :=
  unfold trendLine, xValuesOf, yValuesOf, jlength;
  cbn [length mapi_from map reduce_from at_index nth];
  repeat match goal with
         | |- context [a_netFlow ?d] =>
             match goal with
             | H : forall i d, _ !! i = Some d -> a_netFlow d = _ |- _ =>
                 first [ rewrite (H 0%nat d eq_refl) | rewrite (H 1%nat d eq_refl)
                       | rewrite (H 2%nat d eq_refl) | rewrite (H 3%nat d eq_refl)
                       | rewrite (H 4%nat d eq_refl) | rewrite (H 5%nat d eq_refl)
                       | rewrite (H 6%nat d eq_refl) | rewrite (H 7%nat d eq_refl)
                       | rewrite (H 8%nat d eq_refl) | rewrite (H 9%nat d eq_refl)
                       | rewrite (H 10%nat d eq_refl) | rewrite (H 11%nat d eq_refl) ]
             end
         end;
  cbn [Z.of_nat Pos.of_succ_nat Pos.succ].

Lemma trendLine_of_a_line (a b : Z) (data : list PeriodAggregate) :
  length data = 12%nat \/ length data = 4%nat ->
  Z.abs a <= 10 ^ 12 -> Z.abs b <= 10 ^ 12 ->
  (forall i d, data !! i = Some d -> a_netFlow d = jofZ (a + b * Z.of_nat i)) ->
  trendLine data = (jofZ b, jofZ a).
Proof.
  change (10 ^ 12) with 1000000000000.
  intros [Hlen|Hlen] Ha Hb Hline.
  - do 13 (destruct data as [|? data]; try discriminate Hlen).
    line_values Hline. whole_numbers.
    rewrite (fdiv_Z _ _ b) by (change (2 ^ 53) with 9007199254740992; lia).
    whole_numbers.
    rewrite (fdiv_Z _ _ a) by (change (2 ^ 53) with 9007199254740992; lia).
    done.
  - do 5 (destruct data as [|? data]; try discriminate Hlen).
    line_values Hline. whole_numbers.
    rewrite (fdiv_Z _ _ b) by (change (2 ^ 53) with 9007199254740992; lia).
    whole_numbers.
    rewrite (fdiv_Z _ _ a) by (change (2 ^ 53) with 9007199254740992; lia).
    done.
Qed.


(** X28. When the net flows of the history are whole numbers on a line,
    the entry of index [i] being [a + b * i] with [a] and [b] at most
    [10^12] in magnitude, the regression over doubles finds that line
    and the six forecast values continue it past the history, with no
    rounding; a constant history is forecast to stay as it is.  The
    history has the length the time frame gives it. *)
Theorem forecast_continues_the_line (timeFrame : TimeFrame)
    (data : list PeriodAggregate) (a b : Z) :
  length data = periods timeFrame ->
  Z.abs a <= 10 ^ 12 -> Z.abs b <= 10 ^ 12 ->
  (forall i d, data !! i = Some d -> a_netFlow d = jofZ (a + b * Z.of_nat i)) ->
  trendLine data = (jofZ b, jofZ a) /\
  exists values,
    forecastValues data = Some values /\
    length values = 6%nat /\
    forall k v, values !! k = Some v ->
      v = jofZ (a + b * Z.of_nat (length data + k)).
Proof.
  intros Hlen Ha Hb Hline.
  assert (Hn : length data = 12%nat \/ length data = 4%nat).
  { rewrite Hlen. destruct timeFrame; cbn; auto. }
  pose proof (trendLine_of_a_line a b data Hn Ha Hb Hline) as Et.
  split; [done|].
  unfold forecastValues. rewrite Et.
  destruct (last data) as [lastEntry|] eqn:El.
  2:{ apply last_None in El. subst data. destruct Hn; discriminate. }
  eexists. split; [done|]. split; [by rewrite length_map, length_seq|].
  intros k v Hv. change (map ?f ?l) with (f <$> l) in Hv.
  rewrite list_lookup_fmap in Hv.
  destruct (seq 0 forecastPeriods !! k) as [i|] eqn:Ei; [|done].
  apply lookup_seq in Ei as [-> Hk]. injection Hv as <-.
  unfold jlength. cbn [Nat.add]. change (10 ^ 12) with 1000000000000 in *.
  unfold forecastPeriods in Hk.
  do 6 (destruct k as [|k]; [destruct Hn as [-> | ->];
          cbn [Nat.add Z.of_nat Pos.of_succ_nat Pos.succ];
          whole_numbers; f_equal; lia|]).
  lia.
Qed.

Lemma quarterHistory_line (i : nat) (d : PeriodAggregate) :
  quarterHistory !! i = Some d -> a_netFlow d = jofZ (10 + 10 * Z.of_nat i).
Proof. by destruct i as [|[|[|[|i]]]]; intros [= <-]. Qed.

Lemma forecast_continues_the_line_witness :
  exists values,
    forecastValues quarterHistory = Some values /\ length values = 6%nat.
Proof.
  destruct (forecast_continues_the_line quarterly quarterHistory 10 10
              eq_refl ltac:(vm_compute; discriminate) ltac:(vm_compute; discriminate)
              quarterHistory_line)
    as (_ & values & E & Hl & _).
  by exists values.
Defined.

(** The forecast of [quarterHistory]: 50, 60, 70, 80, 90 and 100. *)
Lemma quarterHistory_forecast :
  match forecastValues quarterHistory with
  | Some values =>
      length values = 6%nat /\
      zip_with (fun v z => jeqb v (jofZ z)) values [50; 60; 70; 80; 90; 100]
      = [true; true; true; true; true; true]
  | None => False
  end.
Proof. by vm_compute. Qed.

(** A constant history of one tenth is not forecast to stay as it is:
    one tenth is no double, and the rounding of the regression adds up. *)
Lemma tenths_forecast_drifts :
  match forecastValues
          (map (fun _ => {| a_income := jofZ 0; a_expense := jofZ 0;
                            a_netFlow := round64 (Q2Qc (1 # 10));
                            a_date := 0 |}) (seq 0 12)) with
  | Some (v :: _) => jeqb v (round64 (Q2Qc (1 # 10))) = false
  | _ => False
  end.
Proof. by vm_compute. Qed.

End ForecastFacts.

(** ** Cash-flow metrics *)

Module CashFlowMetricsFacts.
Import CashFlowMetrics.

Section Weeks.
Context {RT : Runtime}.

Lemma inWeek_bounds now i t :
  inWeek now i t = true <->
  exists d, parseDate (tx_date t) = Some d /\
    now - (Z.of_nat i + 1) * msPerWeek <= d < now - Z.of_nat i * msPerWeek.
Proof.
  unfold inWeek. cbn zeta. destruct (parseDate (tx_date t)) as [d|]; cbn.
  - rewrite andb_true_iff, Z.leb_le, Z.ltb_lt. split.
    + intros [H1 H2]. by exists d.
    + intros (d' & [= <-] & H1 & H2). done.
  - split; [done|]. by intros (d & ? & _).
Qed.

Lemma inLastEightWeeks_bounds now t :
  inLastEightWeeks now t = true <->
  exists d, parseDate (tx_date t) = Some d /\ now - 8 * msPerWeek <= d < now.
Proof.
  unfold inLastEightWeeks. cbn zeta. destruct (parseDate (tx_date t)) as [d|]; cbn.
  - rewrite andb_true_iff, Z.leb_le, Z.ltb_lt. split.
    + intros [H1 H2]. by exists d.
    + intros (d' & [= <-] & H1 & H2). done.
  - split; [done|]. by intros (d & ? & _).
Qed.

Lemma inWeek_unique now i j t :
  inWeek now i t = true -> inWeek now j t = true -> i = j.
Proof.
  intros (d & Ed & Hi)%inWeek_bounds (d' & Ed' & Hj)%inWeek_bounds.
  rewrite Ed in Ed'. injection Ed' as <-. unfold msPerWeek in *. lia.
Qed.

Lemma inWeek_window now i t :
  (i < 8)%nat -> inWeek now i t = true -> inLastEightWeeks now t = true.
Proof.
  intros Hi (d & Ed & Hd)%inWeek_bounds. apply inLastEightWeeks_bounds.
  exists d. split; [done|]. unfold msPerWeek in *. lia.
Qed.

Lemma window_inWeek now t :
  inLastEightWeeks now t = true -> exists i, (i < 8)%nat /\ inWeek now i t = true.
Proof.
  intros (d & Ed & Hd)%inLastEightWeeks_bounds.
  exists (Z.to_nat ((now - d - 1) / msPerWeek)).
  assert (Hw : 0 < msPerWeek) by done.
  pose proof (Z.div_mod (now - d - 1) msPerWeek ltac:(lia)) as Hdm.
  pose proof (Z.mod_pos_bound (now - d - 1) msPerWeek Hw) as Hm.
  assert (Hq : 0 <= (now - d - 1) / msPerWeek < 8).
  { split; [apply Z.div_pos; lia|]. apply Z.div_lt_upper_bound; lia. }
  split; [lia|]. apply inWeek_bounds. exists d. split; [done|].
  rewrite Z2Nat.id by lia. lia.
Qed.

Lemma calculateWeeklyMetrics_lookup now txs i :
  (i < 8)%nat ->
  calculateWeeklyMetrics now txs !! i = Some (weekMetrics now txs i).
Proof.
  intros Hi. unfold calculateWeeklyMetrics.
  change (map ?f ?l) with (f <$> l). rewrite list_lookup_fmap.
  by rewrite lookup_seq_lt.
Qed.

(** X29. The eight weeks of the metrics partition the 56 days that end
    at the time of rendering, that time left out: a transaction dated in
    that window is among the transactions of exactly one week, a
    transaction dated outside it (or with no readable date) of none.
    Week [i] holds the dates from [i + 1] weeks back up to, but not at,
    [i] weeks back. *)
Theorem weeks_partition_the_window (now : Z) (txs : list Transaction) :
  totalWeeks now txs = 8%nat /\
  (forall i, (i < 8)%nat ->
     exists w, calculateWeeklyMetrics now txs !! i = Some w /\
       w_income w = sumOfType income (List.filter (inWeek now i) txs) /\
       w_expenses w = sumOfType expense (List.filter (inWeek now i) txs)) /\
  (forall t, inLastEightWeeks now t = true <->
     exists i, (i < 8)%nat /\ inWeek now i t = true) /\
  (forall t i j, inWeek now i t = true -> inWeek now j t = true -> i = j).
Proof.
  split; [|split; [|split]].
  - unfold totalWeeks, calculateWeeklyMetrics. by rewrite length_map, length_seq.
  - intros i Hi. eexists. split; [by apply calculateWeeklyMetrics_lookup|]. done.
  - intros t. split; [apply window_inWeek|].
    intros (i & Hi & Hw). by eapply inWeek_window.
  - intros t i j. apply inWeek_unique.
Qed.

End Weeks.

(** Of [flowTransactions] the expense falls in the second week back and
    in no other, and the weeks hold what the window holds. *)
Lemma weeks_partition_the_window_witness :
  let t := exampleTx "2025-03-20T10:00:00.000Z" "1200" expense in
  inWeek (RT := Ref.refRuntime) exampleNow 1 t = true /\
  inLastEightWeeks (RT := Ref.refRuntime) exampleNow t = true /\
  forall j, inWeek (RT := Ref.refRuntime) exampleNow j t = true -> j = 1%nat.
Proof.
  cbn zeta.
  destruct (weeks_partition_the_window (RT := Ref.refRuntime) exampleNow
              flowTransactions) as (_ & _ & _ & Hu).
  assert (H1 : inWeek (RT := Ref.refRuntime) exampleNow 1
                 (exampleTx "2025-03-20T10:00:00.000Z" "1200" expense) = true)
    by (by vm_compute).
  split; [done|]. split; [by vm_compute|].
  intros j Hj. exact (Hu _ j 1%nat Hj H1).
Defined.

End CashFlowMetricsFacts.
